(** * Whistle: the time-entry session state machine and its aggregates

    A shallow embedding of the request handlers of the punch clock
    (api/time/clock-in.js, api/time/clock-out.js, api/time/status.js,
    api/time/heatmap.js, api/_helpers.js) together with the two tables of
    db/schema.sql they work on; of the other endpoints (api/time/entries.js,
    api/auth/register.js, login.js, logout.js and me.js,
    api/account/delete.js); and of the functions of the page that show what
    the endpoints return (public/js/app.js, public/js/profile.js).

    Conventions of the embedding.
    - An instant is the time value of a JavaScript [Date]: an integer number
      of milliseconds since 1970-01-01T00:00:00Z, kept in [Z].  The columns
      [start_time] and [end_time] hold such instants (the microseconds a
      TIMESTAMP WITH TIME ZONE can carry beyond them are left out).
    - A JavaScript Number that is not an instant (hours, seconds) and a SQL
      numeric are kept as exact rationals in [Q]; results are compared with
      [==].  The only comparisons the handlers make on such numbers
      ([> 15], [>= 15]) are between an integer number of milliseconds divided
      by a constant and an integer, where binary floating point and exact
      arithmetic agree; those of the page are between a number of two
      decimals and an integer.  [Math.round(x * 100) / 100] in binary
      floating point can settle on the other neighbour when [x * 100] is
      exactly half-way between two integers; what is proved of a rounded
      number ([rounded_to_2_decimals]) holds of either neighbour.
    - Every clock reading made while one request is served ([new Date()],
      SQL [NOW()]) returns the same instant, the argument [now] of the
      handler.
    - The server process and the database session run in UTC, so that
      [getFullYear] is the UTC year and SQL [DATE(ts)] is the UTC calendar
      day of [ts].
    - A query without ORDER BY returns rows in table order.
    - A JavaScript string is kept as the [string] of its code units, for the
      strings whose code units are below 256; the pattern of [isValidEmail]
      is given for code units at large.  The strings a request carries are
      taken to hold no NUL character, which the database refuses in a value.
    - What a library or the platform decides ([Intl.DateTimeFormat],
      [toLowerCase], [trim], bcryptjs, [String] of a fractional number, the
      time zone of the browser) is a parameter of the functions that use it,
      and what is proved of them holds for every value of the parameter
      unless a hypothesis says otherwise; [uuidv4()], [bcrypt.hash] and the
      sequence of [users.id] are arguments of the handlers that call them.
    - Requests are served one after another: a handler runs to its end on
      the tables the previous one left.  What two requests racing on the same
      rows would do is left to the storage layer, as the design has it. *)

From Stdlib Require Import ZArith QArith Qround Qabs Lia Lqa Ascii String DecimalString
  Sorted.
From stdpp Require Import base option list strings gmap.

Local Open Scope Z_scope.

(** ** ECMAScript time values *)

Module JSDate.

Definition msPerDay : Z := 86400000.
Definition msPerHour : Z := 3600000.
Definition msPerMinute : Z := 60000.
Definition msPerSecond : Z := 1000.

Definition Day (t : Z) : Z := t / msPerDay.
Definition TimeWithinDay (t : Z) : Z := t mod msPerDay.

Definition DaysInYear (y : Z) : Z :=
  if negb (y mod 4 =? 0) then 365
  else if negb (y mod 100 =? 0) then 366
  else if negb (y mod 400 =? 0) then 365
  else 366.

Definition DayFromYear (y : Z) : Z :=
  365 * (y - 1970) + (y - 1969) / 4 - (y - 1901) / 100 + (y - 1601) / 400.

Definition TimeFromYear (y : Z) : Z := msPerDay * DayFromYear y.

(** The largest year whose first day is not after day [d]: an estimate from
    the mean length of a Gregorian year, corrected by at most one. *)
Definition YearFromDay (d : Z) : Z :=
  let y0 := 1970 + (400 * d) / 146097 in
  if DayFromYear (y0 + 1) <=? d then y0 + 1
  else if DayFromYear y0 <=? d then y0
  else y0 - 1.

Definition YearFromTime (t : Z) : Z := YearFromDay (Day t).

Definition InLeapYear (t : Z) : Z :=
  if DaysInYear (YearFromTime t) =? 366 then 1 else 0.

Definition DayWithinYear (t : Z) : Z := Day t - DayFromYear (YearFromTime t).

Definition MonthFromTime (t : Z) : Z :=
  let d := DayWithinYear t in
  let leap := InLeapYear t in
  if d <? 31 then 0
  else if d <? 59 + leap then 1
  else if d <? 90 + leap then 2
  else if d <? 120 + leap then 3
  else if d <? 151 + leap then 4
  else if d <? 181 + leap then 5
  else if d <? 212 + leap then 6
  else if d <? 243 + leap then 7
  else if d <? 273 + leap then 8
  else if d <? 304 + leap then 9
  else if d <? 334 + leap then 10
  else 11.

Definition DateFromTime (t : Z) : Z :=
  let d := DayWithinYear t in
  let leap := InLeapYear t in
  match MonthFromTime t with
  | 0 => d + 1
  | 1 => d - 30
  | 2 => d - 58 - leap
  | 3 => d - 89 - leap
  | 4 => d - 119 - leap
  | 5 => d - 150 - leap
  | 6 => d - 180 - leap
  | 7 => d - 211 - leap
  | 8 => d - 242 - leap
  | 9 => d - 272 - leap
  | 10 => d - 303 - leap
  | _ => d - 333 - leap
  end.

(** 1970-01-01 was a Thursday; 0 is Sunday. *)
Definition WeekDay (t : Z) : Z := (Day t + 4) mod 7.

Definition HourFromTime (t : Z) : Z := (t / msPerHour) mod 24.
Definition MinFromTime (t : Z) : Z := (t / msPerMinute) mod 60.
Definition SecFromTime (t : Z) : Z := (t / msPerSecond) mod 60.
Definition msFromTime (t : Z) : Z := t mod msPerSecond.

(** [Date.UTC(year, month, date, hours, minutes, seconds)] for a month in
    0..11 (the general MakeDay also normalises months outside that range). *)
Definition DayFromMonth (y m : Z) : Z :=
  let leap := if DaysInYear y =? 366 then 1 else 0 in
  match m with
  | 0 => 0
  | 1 => 31
  | 2 => 59 + leap
  | 3 => 90 + leap
  | 4 => 120 + leap
  | 5 => 151 + leap
  | 6 => 181 + leap
  | 7 => 212 + leap
  | 8 => 243 + leap
  | 9 => 273 + leap
  | 10 => 304 + leap
  | _ => 334 + leap
  end.

Definition MakeDay (y m dt : Z) : Z := DayFromYear y + DayFromMonth y m + dt - 1.
Definition MakeTime (h mi s ms : Z) : Z :=
  h * msPerHour + mi * msPerMinute + s * msPerSecond + ms.
Definition MakeDate (day time : Z) : Z := day * msPerDay + time.
Definition UTC (y m dt h mi s : Z) : Z := MakeDate (MakeDay y m dt) (MakeTime h mi s 0).

(** Decimal rendering, as [toISOString] pads it. *)
Definition digit (n : Z) : ascii := ascii_of_nat (48 + Z.to_nat (n mod 10)).

Fixpoint pad (width : nat) (n : Z) : string :=
  match width with
  | O => EmptyString
  | S w => pad w (n / 10) +:+ String (digit n) EmptyString
  end.

Definition isoYear (y : Z) : string :=
  if (0 <=? y) && (y <=? 9999) then pad 4 y
  else if y <? 0 then String "-" (pad 6 (- y))
  else String "+" (pad 6 y).

Definition isoDate (t : Z) : string :=
  isoYear (YearFromTime t) +:+ "-" +:+ pad 2 (MonthFromTime t + 1)
    +:+ "-" +:+ pad 2 (DateFromTime t).

Definition isoTime (t : Z) : string :=
  pad 2 (HourFromTime t) +:+ ":" +:+ pad 2 (MinFromTime t) +:+ ":"
    +:+ pad 2 (SecFromTime t) +:+ "." +:+ pad 3 (msFromTime t).

Definition toISOString (t : Z) : string := isoDate t +:+ "T" +:+ isoTime t +:+ "Z".

End JSDate.

Import JSDate.

(** ** JavaScript values and numbers *)

(** The values a parsed JSON body (or a missing one) can hold. *)
#[warnings="-register-all"]
Inductive jsval :=
| JUndefined
| JNull
| JBool (b : bool)
| JNumber (q : Q)
| JString (s : string)
| JObject (fields : list (string * jsval)).

(** ToBoolean. *)
Definition truthy (v : jsval) : bool :=
  match v with
  | JUndefined | JNull => false
  | JBool b => b
  | JNumber q => negb (Qeq_bool q 0)
  | JString s => negb (String.eqb s "")
  | JObject _ => true
  end.

Fixpoint assoc (k : string) (fields : list (string * jsval)) : jsval :=
  match fields with
  | [] => JUndefined
  | (k', v) :: rest => if String.eqb k k' then v else assoc k rest
  end.

(** Property read [v.k] for the keys the handlers read ([auto], [timezone]):
    [None] is the TypeError raised on [undefined] and [null]; primitives
    have no such property. *)
Definition getprop (v : jsval) (k : string) : option jsval :=
  match v with
  | JUndefined | JNull => None
  | JObject fields => Some (assoc k fields)
  | _ => Some JUndefined
  end.

(** [Math.round]: the nearest integer, ties towards plus infinity. *)
Definition Math_round (x : Q) : Z := Qfloor (x + (1 # 2)).
Definition Math_floor (x : Q) : Z := Qfloor x.

(** [Math.round(x * 100) / 100]. *)
Definition round2 (x : Q) : Q := (inject_Z (Math_round (x * 100)) / 100)%Q.

(** [parseInt(s, 10)]: leading white space, an optional sign, then the
    longest run of decimal digits; [None] is NaN. *)
Definition is_space (c : ascii) : bool :=
  let n := nat_of_ascii c in
  ((n =? 32) || (n =? 9) || (n =? 10) || (n =? 11) || (n =? 12) || (n =? 13))%nat.

Definition digit_value (c : ascii) : option Z :=
  let n := nat_of_ascii c in
  if ((48 <=? n) && (n <=? 57))%nat then Some (Z.of_nat n - 48) else None.

Fixpoint parse_digits (s : string) (acc : option Z) : option Z :=
  match s with
  | EmptyString => acc
  | String c rest =>
      match digit_value c with
      | Some d => parse_digits rest (Some (10 * default 0 acc + d))
      | None => acc
      end
  end.

Fixpoint skip_spaces (s : string) : string :=
  match s with
  | String c rest => if is_space c then skip_spaces rest else s
  | EmptyString => s
  end.

Definition parseInt (s : string) : option Z :=
  match skip_spaces s with
  | String "-" rest => Z.opp <$> parse_digits rest None
  | String "+" rest => parse_digits rest None
  | s' => parse_digits s' None
  end.

(** [x >= n] on a number that may be NaN. *)
Definition nan_ge (x : option Z) (n : Z) : bool :=
  match x with Some v => n <=? v | None => false end.

(** ** The platform's time-zone formatter *)

(** One element of [formatToParts]. *)
Record part := { type : string; value : string }.

(** [new Intl.DateTimeFormat('en-US', { timeZone: tz, weekday: 'short',
    hour: 'numeric', hour12: false }).formatToParts(t)]; [None] is the
    RangeError the constructor raises on a name it does not recognise.  The
    time-zone data and the text of each part are the platform's (so is the
    text it prints for the hour after midnight under [hour12: false]), and
    the handlers are modelled for any such formatter. *)
Class Intl := formatToParts : string → Z → option (list part).

(** [parts.find(p => p.type === k)]. *)
Definition find_part (k : string) (parts : list part) : option part :=
  List.find (λ p, String.eqb (type p) k) parts.

(** The copy of [checkWeekendRestriction] that clock-in.js and clock-out.js
    each carry.  The error message when the instant [now] is restricted in
    [timezone], [None] ([null]) otherwise; a formatter that throws and a
    missing part (a TypeError on [.value]) both end in the [catch]. *)
Definition checkWeekendRestriction `{Intl} (timezone : string) (now : Z) : option string :=
  match formatToParts timezone now with
  | None => None
  | Some parts =>
      match find_part "weekday" parts, find_part "hour" parts with
      | Some w, Some h =>
          let weekday := value w in
          let hour := parseInt (value h) in
          if String.eqb weekday "Sun" then
            Some "Clock in/out is not available on Sundays."%string
          else if String.eqb weekday "Sat" && nan_ge hour 18 then
            Some "Clock in/out is not available after 6pm on Saturdays."%string
          else None
      | _, _ => None
      end
  end.

(** ** The tables of db/schema.sql *)

Module U.
Record user := { id : Z; email : string; session_token : option string }.
End U.

Record time_entry := {
  id : Z;
  user_id : Z;
  start_time : Z;
  end_time : option Z;
  start_timezone : string
}.

(** [time_entries_id_seq] is the sequence behind [id SERIAL]. *)
Record DB := {
  users : list U.user;
  time_entries : list time_entry;
  time_entries_id_seq : Z
}.

Definition with_entries (db : DB) (rows : list time_entry) : DB :=
  {| users := users db; time_entries := rows;
     time_entries_id_seq := time_entries_id_seq db |}.

(** [SELECT id, start_time, start_timezone FROM time_entries
     WHERE user_id = uid AND end_time IS NULL] *)
Definition select_open (db : DB) (uid : Z) : list time_entry :=
  filter (λ r, user_id r = uid ∧ end_time r = None) (time_entries db).

Definition set_end_time (e : Z) (r : time_entry) : time_entry :=
  {| id := id r; user_id := user_id r; start_time := start_time r;
     end_time := Some e; start_timezone := start_timezone r |}.

(** [UPDATE time_entries SET end_time = e WHERE id = i RETURNING ...]:
    the new table and the rows returned. *)
Definition update_end_time (db : DB) (i e : Z) : DB * list time_entry :=
  let rows := (λ r, if decide (id r = i) then set_end_time e r else r) <$> time_entries db in
  (with_entries db rows, filter (λ r, id r = i) rows).

Fixpoint only_spaces (s : string) : bool :=
  match s with
  | EmptyString => true
  | String c rest => Ascii.eqb c " " && only_spaces rest
  end.

(** What a [VARCHAR(n)] column takes from [value]: the value itself when it
    has at most [n] characters; a longer one makes the statement raise,
    unless the characters in excess are all spaces, which PostgreSQL cuts
    off.  [None] is the statement raising. *)
Definition VARCHAR (n : nat) (value : string) : option string :=
  if (String.length value <=? n)%nat then Some value
  else if only_spaces (substring n (String.length value - n) value)
       then Some (substring 0 n value)
       else None.

(** The table with an open row added, and the row returned. *)
Definition insert_row (db : DB) (uid now : Z) (zone : string) : DB * list time_entry :=
  let r := {| id := time_entries_id_seq db; user_id := uid; start_time := now;
              end_time := None; start_timezone := zone |} in
  ({| users := users db; time_entries := time_entries db ++ [r];
      time_entries_id_seq := time_entries_id_seq db + 1 |}, [r]).

(** [INSERT INTO time_entries (user_id, start_time, start_timezone)
     VALUES (uid, NOW(), tz) RETURNING ...], with [start_timezone
    VARCHAR(100)]; a statement that raises stores nothing. *)
Definition insert_entry (db : DB) (uid now : Z) (tz : string) : option (DB * list time_entry) :=
  insert_row db uid now <$> VARCHAR 100 tz.

(** SQL [SUM]: NULL inputs are skipped, and the sum of no input is NULL. *)
Fixpoint SUM (l : list (option Q)) : option Q :=
  match l with
  | [] => None
  | x :: rest =>
      match x, SUM rest with
      | Some a, Some b => Some (a + b)%Q
      | Some a, None => Some a
      | None, s => s
      end
  end.

Definition COALESCE (x : option Q) (d : Q) : option Q :=
  match x with Some v => Some v | None => Some d end.

(** [EXTRACT(EPOCH FROM (end_time - start_time)) / 3600], NULL on an open row. *)
Definition hours (r : time_entry) : option Q :=
  match end_time r with
  | Some e => Some (((e - start_time r) # 1000) / 3600)%Q
  | None => None
  end.

(** The rows both aggregates read: [WHERE user_id = uid AND end_time IS NOT
    NULL AND start_time >= yearStart AND start_time < yearEnd]. *)
Definition completed_in (db : DB) (uid yearStart yearEnd : Z) : list time_entry :=
  filter (λ r, user_id r = uid ∧ end_time r ≠ None
               ∧ yearStart ≤ start_time r ∧ start_time r < yearEnd)
         (time_entries db).

(** The year-total query of status.js. *)
Definition total_hours (db : DB) (uid yearStart yearEnd : Z) : option Q :=
  COALESCE (SUM (hours <$> completed_in db uid yearStart yearEnd)) 0.

(** SQL [DATE(ts)], a day number. *)
Definition DATE (ts : Z) : Z := Day ts.

Fixpoint insert_date (d : Z) (l : list Z) : list Z :=
  match l with
  | [] => [d]
  | x :: rest =>
      if d <? x then d :: l
      else if d =? x then l
      else x :: insert_date d rest
  end.

(** The keys of [GROUP BY DATE(start_time) ORDER BY work_date]. *)
Definition work_dates (rows : list time_entry) : list Z :=
  foldr insert_date [] ((λ r, DATE (start_time r)) <$> rows).

(** The daily-totals query of heatmap.js: one row [(work_date, total_hours)]
    per day on which a selected entry starts. *)
Definition daily_totals (db : DB) (uid yearStart yearEnd : Z) : list (Z * option Q) :=
  let rows := completed_in db uid yearStart yearEnd in
  (λ d, (d, SUM (hours <$> filter (λ r, DATE (start_time r) = d) rows)))
    <$> work_dates rows.

(** ** Requests and replies *)

(** What a handler reads of a request: the method, the [session] cookie as
    [cookie.parse] returns it, and the parsed body ([JUndefined] when the
    request carries none). *)
Record request := {
  method : string;
  cookie_session : option string;
  body : jsval
}.

Record session := {
  session_id : Z;
  session_start_time : Z;
  timezone : string;
  elapsed_seconds : Z
}.

(** The objects the handlers send with [sendJson]. *)
Inductive data :=
| ClockInEntry (entry_id entry_start_time : Z) (entry_timezone : string)
| ClockOutEntry (entry_id entry_start_time entry_end_time : Z) (duration_hours : Q)
| StatusData (is_working : bool) (current_session : option session)
             (year_total_hours : option Q)
| HeatmapData (year : Z) (days : gmap string (option Q))
| Deleted (message : string).

Inductive reply :=
| sendError (status : Z) (message : string)
| sendJson (status : Z) (d : data).

(** The reply of every handler's [catch]. *)
Definition something_went_wrong : reply :=
  sendError 500 "Something went wrong. Please try again.".

(** _helpers.js: the user whose [session_token] is the request's cookie. *)
Definition getCurrentUser (db : DB) (request : request) : option U.user :=
  match cookie_session request with
  | None => None
  | Some sessionToken =>
      if String.eqb sessionToken "" then None
      else head (filter (λ u, U.session_token u = Some sessionToken) (users db))
  end.

Definition MAX_SHIFT_HOURS : Z := 15.

(** [parseFloat] of a numeric column; NULL gives NaN ([None]). *)
Definition parseFloat (x : option Q) : option Q := x.

(** [typeof v === 'string'], with the string. *)
Definition as_string (v : jsval) : option string :=
  match v with JString s => Some s | _ => None end.

(** ** POST /api/time/clock-in *)

Module ClockIn.

(** The handler with the weekend gate (STEP 2.5). *)
Definition handler `{Intl} (now : Z) (db : DB) (request : request) : DB * reply :=
  if negb (String.eqb (method request) "POST") then
    (db, sendError 405 "Method not allowed. Use POST.")
  else
    match getCurrentUser db request with
    | None => (db, sendError 401 "You must be logged in to clock in.")
    | Some user =>
        match getprop (body request) "timezone" with
        | None => (db, something_went_wrong)
        | Some timezone =>
            match (if truthy timezone then as_string timezone else None) with
            | None => (db, sendError 400 "Timezone is required.")
            | Some tz =>
                match checkWeekendRestriction tz now with
                | Some restrictionError => (db, sendError 400 restrictionError)
                | None =>
                    match select_open db (U.id user) with
                    | _ :: _ => (db, sendError 400 "You are already clocked in.")
                    | [] =>
                        match insert_entry db (U.id user) now tz with
                        | None => (db, something_went_wrong)
                        | Some (db', entry :: _) =>
                            (db', sendJson 201 (ClockInEntry (id entry) (start_time entry)
                                                             (start_timezone entry)))
                        | Some (db', []) => (db', something_went_wrong)
                        end
                    end
                end
            end
        end
    end.

(** The other handler of clock-in.js, which has no weekend gate. *)
Definition handler_ungated (now : Z) (db : DB) (request : request) : DB * reply :=
  if negb (String.eqb (method request) "POST") then
    (db, sendError 405 "Method not allowed. Use POST.")
  else
    match getCurrentUser db request with
    | None => (db, sendError 401 "You must be logged in to clock in.")
    | Some user =>
        match getprop (body request) "timezone" with
        | None => (db, something_went_wrong)
        | Some timezone =>
            match (if truthy timezone then as_string timezone else None) with
            | None => (db, sendError 400 "Timezone is required.")
            | Some tz =>
                match select_open db (U.id user) with
                | _ :: _ => (db, sendError 400 "You are already clocked in.")
                | [] =>
                    match insert_entry db (U.id user) now tz with
                    | None => (db, something_went_wrong)
                    | Some (db', entry :: _) =>
                        (db', sendJson 201 (ClockInEntry (id entry) (start_time entry)
                                                         (start_timezone entry)))
                    | Some (db', []) => (db', something_went_wrong)
                    end
                end
            end
        end
    end.

End ClockIn.

(** ** POST /api/time/clock-out *)

(** [x > y] and [x >= y] on numbers. *)
Definition Qgtb (x y : Q) : bool := negb (Qle_bool x y).
Definition Qgeb (x y : Q) : bool := Qle_bool y x.

(** [request.body && request.body.auto === true] *)
Definition isAuto (request : request) : bool :=
  truthy (body request) &&
  match getprop (body request) "auto" with
  | Some (JBool true) => true
  | _ => false
  end.

Module ClockOut.

(** STEP 3: the end time, capped at 15 hours after the start. *)
Definition endTime (startTime now : Z) : Z :=
  let hoursWorked := (inject_Z (now - startTime) / inject_Z (1000 * 60 * 60))%Q in
  if Qgtb hoursWorked (inject_Z MAX_SHIFT_HOURS)
  then startTime + MAX_SHIFT_HOURS * 60 * 60 * 1000
  else now.

(** STEP 4 and the response; [new Date(null)] is the epoch. *)
Definition close (db : DB) (entry : time_entry) (now : Z) : DB * reply :=
  let '(db', rows) := update_end_time db (id entry) (endTime (start_time entry) now) in
  match rows with
  | [] => (db', something_went_wrong)
  | updatedEntry :: _ =>
      let start := start_time updatedEntry in
      let end_ := default 0 (end_time updatedEntry) in
      let durationHours := (inject_Z (end_ - start) / inject_Z (1000 * 60 * 60))%Q in
      (db', sendJson 200 (ClockOutEntry (id updatedEntry) start end_ (round2 durationHours)))
  end.

(** The handler with the weekend gate (STEP 2.5). *)
Definition handler `{Intl} (now : Z) (db : DB) (request : request) : DB * reply :=
  if negb (String.eqb (method request) "POST") then
    (db, sendError 405 "Method not allowed. Use POST.")
  else
    match getCurrentUser db request with
    | None => (db, sendError 401 "You must be logged in to clock out.")
    | Some user =>
        match select_open db (U.id user) with
        | [] => (db, sendError 400 "You are not currently clocked in.")
        | entry :: _ =>
            match (if negb (isAuto request) && negb (String.eqb (start_timezone entry) "")
                   then checkWeekendRestriction (start_timezone entry) now
                   else None) with
            | Some restrictionError => (db, sendError 400 restrictionError)
            | None => close db entry now
            end
        end
    end.

(** The other clock-out handler, which has no weekend gate and reads
    nothing of the body. *)
Definition handler_ungated (now : Z) (db : DB) (request : request) : DB * reply :=
  if negb (String.eqb (method request) "POST") then
    (db, sendError 405 "Method not allowed. Use POST.")
  else
    match getCurrentUser db request with
    | None => (db, sendError 401 "You must be logged in to clock out.")
    | Some user =>
        match select_open db (U.id user) with
        | [] => (db, sendError 400 "You are not currently clocked in.")
        | entry :: _ => close db entry now
        end
    end.

End ClockOut.

(** ** GET /api/time/status *)

Module Status.

(** STEP 2: the open session, closed here when it has reached 15 hours. *)
Definition check_open (db : DB) (uid now : Z) : DB * bool * option session :=
  match select_open db uid with
  | [] => (db, false, None)
  | entry :: _ =>
      let startTime := start_time entry in
      let elapsedSeconds := (inject_Z (now - startTime) / 1000)%Q in
      let elapsedHours := (elapsedSeconds / 3600)%Q in
      if Qgeb elapsedHours (inject_Z MAX_SHIFT_HOURS) then
        let endTime := startTime + MAX_SHIFT_HOURS * 60 * 60 * 1000 in
        ((update_end_time db (id entry) endTime).1, false, None)
      else
        (db, true,
         Some {| session_id := id entry; session_start_time := start_time entry;
                 timezone := start_timezone entry;
                 elapsed_seconds := Math_floor elapsedSeconds |})
  end.

Definition handler (now : Z) (db : DB) (request : request) : DB * reply :=
  if negb (String.eqb (method request) "GET") then
    (db, sendError 405 "Method not allowed. Use GET.")
  else
    match getCurrentUser db request with
    | None => (db, sendError 401 "You must be logged in to view status.")
    | Some user =>
        let '(db', isWorking, currentSession) := check_open db (U.id user) now in
        let currentYear := YearFromTime now in
        let yearStart := TimeFromYear currentYear in
        let yearEnd := TimeFromYear (currentYear + 1) in
        let yearTotalHours := parseFloat (total_hours db' (U.id user) yearStart yearEnd) in
        (db', sendJson 200 (StatusData isWorking currentSession (round2 <$> yearTotalHours)))
    end.

End Status.

(** ** GET /api/time/heatmap *)

Module Heatmap.

(** [s.split('T')[0]] *)
Fixpoint split_T_0 (s : string) : string :=
  match s with
  | EmptyString => EmptyString
  | String c rest => if Ascii.eqb c "T" then EmptyString else String c (split_T_0 rest)
  end.

(** [new Date(row.work_date).toISOString().split('T')[0]]; the driver hands
    a DATE over as the [Date] of its midnight. *)
Definition dateString (work_date : Z) : string :=
  let date := work_date * msPerDay in
  split_T_0 (toISOString date).

(** STEP 4: [days[dateString] = Math.round(parseFloat(row.total_hours) * 100) / 100]
    for each row in turn. *)
Definition format_days (rows : list (Z * option Q)) : gmap string (option Q) :=
  foldl (λ days row, <[dateString row.1 := round2 <$> parseFloat row.2]> days) ∅ rows.

Definition handler (now : Z) (db : DB) (request : request) : DB * reply :=
  if negb (String.eqb (method request) "GET") then
    (db, sendError 405 "Method not allowed. Use GET.")
  else
    match getCurrentUser db request with
    | None => (db, sendError 401 "You must be logged in to view heatmap.")
    | Some user =>
        let currentYear := YearFromTime now in
        let yearStart := TimeFromYear currentYear in
        let yearEnd := TimeFromYear (currentYear + 1) in
        let result := daily_totals db (U.id user) yearStart yearEnd in
        (db, sendJson 200 (HeatmapData currentYear (format_days result)))
    end.

End Heatmap.

(** ** DELETE /api/account/delete *)

Module Account.

(** [DELETE FROM users WHERE id = uid]; the entries of the user go with it
    (ON DELETE CASCADE). *)
Definition delete_user (db : DB) (uid : Z) : DB :=
  {| users := filter (λ u, U.id u ≠ uid) (users db);
     time_entries := filter (λ r, user_id r ≠ uid) (time_entries db);
     time_entries_id_seq := time_entries_id_seq db |}.

Definition handler (db : DB) (request : request) : DB * reply :=
  if negb (String.eqb (method request) "DELETE") then
    (db, sendError 405 "Method not allowed. Use DELETE.")
  else
    match getCurrentUser db request with
    | None => (db, sendError 401 "You must be logged in to delete your account.")
    | Some user =>
        (delete_user db (U.id user),
         sendJson 200 (Deleted "Your account has been permanently deleted."))
    end.

End Account.

(** ** The system as a transition system *)

(** One request served at instant [now].  Registration, login and logout
    only rewrite the [users] table. *)
Inductive step `{Intl} (now : Z) (db : DB) : DB → Prop :=
| step_clock_in request : step now db (ClockIn.handler now db request).1
| step_clock_in_ungated request : step now db (ClockIn.handler_ungated now db request).1
| step_clock_out request : step now db (ClockOut.handler now db request).1
| step_clock_out_ungated request : step now db (ClockOut.handler_ungated now db request).1
| step_status request : step now db (Status.handler now db request).1
| step_heatmap request : step now db (Heatmap.handler now db request).1
| step_delete_account request : step now db (Account.handler db request).1
| step_auth users' :
    step now db {| users := users'; time_entries := time_entries db;
                   time_entries_id_seq := time_entries_id_seq db |}.

(** The tables as schema.sql creates them. *)
Definition empty_db : DB :=
  {| users := []; time_entries := []; time_entries_id_seq := 1 |}.

Inductive reachable `{Intl} : DB → Prop :=
| reachable_empty : reachable empty_db
| reachable_step now db db' : reachable db → step now db db' → reachable db'.

(** The states of the runs in which no clock reading is earlier than the
    one before; [t] is the latest reading. *)
Inductive reachable_by `{Intl} : Z → DB → Prop :=
| reachable_by_empty t : reachable_by t empty_db
| reachable_by_step t now db db' :
    reachable_by t db → t ≤ now → step now db db' → reachable_by now db'.

(** [id] is the primary key, drawn from the sequence. *)
Definition primary_key (db : DB) : Prop :=
  NoDup (id <$> time_entries db) ∧
  ∀ r, r ∈ time_entries db → id r < time_entries_id_seq db.

(** At most one open entry per user. *)
Definition one_open_entry (db : DB) : Prop :=
  ∀ uid, (length (select_open db uid) ≤ 1)%nat.

(** Clock-in stores no empty time-zone name. *)
Definition timezones_given (db : DB) : Prop :=
  ∀ r, r ∈ time_entries db → start_timezone r ≠ ""%string.

Definition max_shift_ms : Z := MAX_SHIFT_HOURS * 60 * 60 * 1000.

(** No closed entry is longer than the maximum shift. *)
Definition shifts_capped (db : DB) : Prop :=
  ∀ r e, r ∈ time_entries db → end_time r = Some e → e - start_time r ≤ max_shift_ms.

(** No entry starts after [t], and no closed entry is of negative length or
    longer than the maximum shift. *)
Definition durations_sound (t : Z) (db : DB) : Prop :=
  ∀ r, r ∈ time_entries db →
       start_time r ≤ t ∧
       ∀ e, end_time r = Some e → 0 ≤ e - start_time r ≤ max_shift_ms.

(** What every state the handlers produce satisfies. *)
Record consistent (db : DB) : Prop := {
  consistent_key : primary_key db;
  consistent_open : one_open_entry db;
  consistent_timezones : timezones_given db;
  consistent_capped : shifts_capped db
}.

(** The table without its open rows. *)
Definition closed_only (db : DB) : DB :=
  with_entries db (filter (λ r, end_time r ≠ None) (time_entries db)).

(** ** Reference notions the claims are stated with *)

(** [y] is [x] rounded to two decimals: a multiple of 1/100 at distance at
    most 1/200 from [x]. *)
Definition rounded_to_2_decimals (x y : Q) : Prop :=
  ∃ k : Z, (y == inject_Z k / 100)%Q ∧ (Qabs (y - x) <= 1 # 200)%Q.

(** The length of a closed entry in hours. *)
Definition duration_in_hours (start end_ : Z) : Q := ((end_ - start) # 3600000)%Q.

(** The time values a [Date] can hold, and the days they fall on. *)
Definition valid_time (t : Z) : Prop := -8640000000000000 ≤ t ≤ 8640000000000000.
Definition valid_day (d : Z) : Prop := -100000000 ≤ d ≤ 100000000.

(** The summed length, in hours, of the closed entries among [rows]. *)
Definition sum_hours (rows : list time_entry) : Q :=
  foldr (λ r acc,
           match end_time r with
           | Some e => (duration_in_hours (start_time r) e + acc)%Q
           | None => acc
           end) 0%Q rows.

(** The entries among [rows] that start on UTC day [d]. *)
Definition started_on (d : Z) (rows : list time_entry) : list time_entry :=
  filter (λ r, Day (start_time r) = d) rows.

(** The local weekday and hour the formatter reports for [now] in [tz]. *)
Definition local_time `{Intl} (tz : string) (now : Z) (weekday : string) (hour : Z) : Prop :=
  ∃ parts w h,
    formatToParts tz now = Some parts ∧
    find_part "weekday" parts = Some w ∧ value w = weekday ∧
    find_part "hour" parts = Some h ∧ parseInt (value h) = Some hour.

(** ** A formatter for zones at a fixed offset from UTC *)

Definition short_weekday (n : Z) : string :=
  match n with
  | 0 => "Sun" | 1 => "Mon" | 2 => "Tue" | 3 => "Wed"
  | 4 => "Thu" | 5 => "Fri" | _ => "Sat"
  end.

(** Hours east of UTC; the sign in an [Etc/GMT] name is the POSIX one. *)
Definition fixed_offset (tz : string) : option Z :=
  if String.eqb tz "UTC" then Some 0
  else if String.eqb tz "Etc/GMT+7" then Some (-7)
  else if String.eqb tz "Etc/GMT-9" then Some 9
  else None.

Definition fixed_zones : Intl :=
  λ tz t,
    match fixed_offset tz with
    | None => None
    | Some off =>
        let local := t + off * msPerHour in
        Some [ {| type := "weekday"; value := short_weekday (WeekDay local) |};
               {| type := "literal"; value := ", " |};
               {| type := "hour"; value := pad 2 (HourFromTime local) |} ]
    end.

(** A formatter for which every instant, in every zone and for every other
    string, is a Sunday noon. *)
Definition always_sunday : Intl :=
  λ _ _, Some [ {| type := "weekday"; value := "Sun" |};
                {| type := "literal"; value := ", " |};
                {| type := "hour"; value := "12" |} ].

(** ** The outcomes the specification names *)

Definition restricted `{Intl} (tz : string) (now : Z) : Prop :=
  is_Some (checkWeekendRestriction tz now).

(** ClockInBlocked and ClockOutBlocked: status 400 with one of the two
    messages of the weekend rule. *)
Definition Blocked (r : reply) : Prop :=
  r = sendError 400 "Clock in/out is not available on Sundays." ∨
  r = sendError 400 "Clock in/out is not available after 6pm on Saturdays.".


Definition NotClockedIn (r : reply) : Prop :=
  r = sendError 400 "You are not currently clocked in.".

(** ** Sample data *)

Module Sample.

Definition alice : U.user :=
  {| U.id := 1; U.email := "alice@example.org"; U.session_token := Some "a1b2c3"%string |}.

(** The tables once alice has registered. *)
Definition registered : DB :=
  {| users := [alice]; time_entries := []; time_entries_id_seq := 1 |}.

Definition post (b : jsval) : request :=
  {| method := "POST"; cookie_session := Some "a1b2c3"%string; body := b |}.

Definition get : request :=
  {| method := "GET"; cookie_session := Some "a1b2c3"%string; body := JUndefined |}.

Definition with_timezone (tz : string) : jsval := JObject [("timezone"%string, JString tz)].

(** Alice has an open entry that started at [start] in zone [tz]. *)
Definition working (start : Z) (tz : string) : DB :=
  {| users := [alice];
     time_entries := [ {| id := 1; user_id := 1; start_time := start;
                          end_time := None; start_timezone := tz |} ];
     time_entries_id_seq := 2 |}.


(** Saturday 2024-06-01 and Sunday 2024-06-02. *)
Definition sat_0800 : Z := UTC 2024 5 1 8 0 0.
Definition sat_0900 : Z := UTC 2024 5 1 9 0 0.
Definition sat_2300 : Z := UTC 2024 5 1 23 0 0.
Definition sat_2359 : Z := UTC 2024 5 1 23 59 0.
Definition sun_1000 : Z := UTC 2024 5 2 10 0 0.
Definition mon_0900 : Z := UTC 2024 5 3 9 0 0.
Definition mon_1730 : Z := UTC 2024 5 3 17 30 0.
Definition fri_1200 : Z := UTC 2024 5 7 12 0 0.

(** Alice's week: three hours on Monday morning, and an hour and a quarter
    from Monday 23:00 into Tuesday; bob is still at work. *)
Definition history : DB :=
  {| users := [alice;
               {| U.id := 2; U.email := "bob@example.org";
                  U.session_token := Some "d4e5f6"%string |}];
     time_entries :=
       [ {| id := 1; user_id := 1; start_time := UTC 2024 5 3 9 0 0;
            end_time := Some (UTC 2024 5 3 12 0 0); start_timezone := "Etc/GMT+7" |};
         {| id := 2; user_id := 2; start_time := UTC 2024 5 3 10 0 0;
            end_time := None; start_timezone := "UTC" |};
         {| id := 3; user_id := 1; start_time := UTC 2024 5 3 23 0 0;
            end_time := Some (UTC 2024 5 4 0 15 0); start_timezone := "Etc/GMT+7" |} ];
     time_entries_id_seq := 4 |}.

(** The same week, with alice at work again since Friday 08:00. *)
Definition history_at_work : DB :=
  {| users := users history;
     time_entries :=
       time_entries history
       ++ [ {| id := 4; user_id := 1; start_time := UTC 2024 5 7 8 0 0;
               end_time := None; start_timezone := "Etc/GMT+7" |} ];
     time_entries_id_seq := 5 |}.

End Sample.

(** ** The session endpoints: /api/auth/logout and /api/auth/me *)

(** What an endpoint whose payload is an [A] sends with [sendError] and with
    [sendJson]. *)
Inductive response (A : Type) :=
| Error (status : Z) (message : string)
| Json (status : Z) (payload : A).

Arguments Error {A} status message.
Arguments Json {A} status payload.

Module Logout.

(** [UPDATE users SET session_token = NULL WHERE id = uid] *)
Definition clear_session_token (db : DB) (uid : Z) : DB :=
  {| users := (λ u, if decide (U.id u = uid)
                    then {| U.id := U.id u; U.email := U.email u; U.session_token := None |}
                    else u) <$> users db;
     time_entries := time_entries db;
     time_entries_id_seq := time_entries_id_seq db |}.

(** The payload is [{ success: true }], with or without a session. *)
Definition handler (db : DB) (request : request) : DB * response unit :=
  if negb (String.eqb (method request) "POST") then
    (db, Error 405 "Method not allowed. Use POST.")
  else
    let db' := match getCurrentUser db request with
               | Some user => clear_session_token db (U.id user)
               | None => db
               end in
    (db', Json 200 ()).

End Logout.

Module Me.

(** [{ user: { id, email } }] or [{ user: null }]. *)
Definition handler (db : DB) (request : request) : response (option (Z * string)) :=
  if negb (String.eqb (method request) "GET") then
    Error 405 "Method not allowed. Use GET."
  else
    match getCurrentUser db request with
    | Some user => Json 200 (Some (U.id user, U.email user))
    | None => Json 200 None
    end.

End Me.

(** ** The endpoints that ask for a session *)

(** [answers now db request (db', reply)]: one of the handlers of the time
    entries or of the account, serving [request] at [now] on [db], leaves
    [db'] and sends [reply].  The export of the entries, which writes nothing
    and has a payload of its own, is [Entries.handler] below. *)
Inductive answers `{Intl} (now : Z) (db : DB) (request : request) : DB * reply → Prop :=
| answers_clock_in : answers now db request (ClockIn.handler now db request)
| answers_clock_in_ungated : answers now db request (ClockIn.handler_ungated now db request)
| answers_clock_out : answers now db request (ClockOut.handler now db request)
| answers_clock_out_ungated : answers now db request (ClockOut.handler_ungated now db request)
| answers_status : answers now db request (Status.handler now db request)
| answers_heatmap : answers now db request (Heatmap.handler now db request)
| answers_delete_account : answers now db request (Account.handler db request).

(** The tables a request can leave: those of [answers], and those of a
    logout. *)
Inductive serves `{Intl} (now : Z) (db : DB) (request : request) : DB → Prop :=
| serves_answer db' reply : answers now db request (db', reply) → serves now db request db'
| serves_logout : serves now db request (Logout.handler db request).1.

(** ** GET /api/time/entries *)

Module Entries.

Definition DAY_NAMES : list string :=
  ["Sunday"; "Monday"; "Tuesday"; "Wednesday"; "Thursday"; "Friday"; "Saturday"]%string.

(** [ORDER BY start_time DESC]; rows with the same start keep table order
    (SQL leaves their order open). *)
Fixpoint insert_desc (r : time_entry) (l : list time_entry) : list time_entry :=
  match l with
  | [] => [r]
  | x :: rest =>
      if start_time x <=? start_time r then r :: l else x :: insert_desc r rest
  end.

Definition order_by_start_time_desc (l : list time_entry) : list time_entry :=
  foldr insert_desc [] l.

(** STEP 2: [SELECT ... FROM time_entries WHERE user_id = uid
    AND end_time IS NOT NULL ORDER BY start_time DESC] *)
Definition select_completed (db : DB) (uid : Z) : list time_entry :=
  order_by_start_time_desc
    (filter (λ r, user_id r = uid ∧ end_time r ≠ None) (time_entries db)).

Definition startDate (entry : time_entry) : Z := start_time entry.
Definition endDate (entry : time_entry) : Z := default 0 (end_time entry).

(** [formatTime]: [getHours] and [getMinutes] of a process in UTC, each
    [toString().padStart(2, '0')]. *)
Definition formatTime (date : Z) : string :=
  pad 2 (HourFromTime date) +:+ ":" +:+ pad 2 (MinFromTime date).

(** One element of the [entries] array of the reply. *)
Record row := {
  date : string;
  day_of_week : option string;
  start_time : string;
  end_time : string;
  duration_hours : Q
}.

(** STEP 3, the function mapped over the rows; [DAY_NAMES[i]] is [None]
    ([undefined]) outside the array. *)
Definition format (entry : time_entry) : row :=
  let durationMs := endDate entry - startDate entry in
  let durationHours := (inject_Z durationMs / inject_Z (1000 * 60 * 60))%Q in
  {| date := Heatmap.split_T_0 (toISOString (startDate entry));
     day_of_week := DAY_NAMES !! Z.to_nat (WeekDay (startDate entry));
     start_time := formatTime (startDate entry);
     end_time := formatTime (endDate entry);
     duration_hours := round2 durationHours |}.

(** The handler writes nothing; the payload is [{ entries }]. *)
Definition handler (db : DB) (request : request) : response (list row) :=
  if negb (String.eqb (method request) "GET") then
    Error 405 "Method not allowed. Use GET."
  else
    match getCurrentUser db request with
    | None => Error 401 "You must be logged in to export entries."
    | Some user => Json 200 (format <$> select_completed db (U.id user))
    end.

End Entries.

(** ** _helpers.js: isValidEmail *)

(** The pattern [/^[^\s@]+@[^\s@]+\.[^\s@]+$/] has no flag, so it reads a
    string as its UTF-16 code units, kept in [N], and its two anchors make
    [test] a match of the whole string. *)
Module Regex.

(** [Class p] is a character class, given by the code units it accepts. *)
Inductive regex :=
| Void
| Eps
| Class (p : N → bool)
| Seq (r1 r2 : regex)
| Alt (r1 r2 : regex)
| Star (r : regex).

(** [c] and [r+]. *)
Definition Char (c : N) : regex := Class (N.eqb c).
Definition Plus (r : regex) : regex := Seq r (Star r).

(** The strings of a pattern. *)
Inductive Matches : regex → list N → Prop :=
| Matches_eps : Matches Eps []
| Matches_class p c : p c = true → Matches (Class p) [c]
| Matches_seq r1 r2 s1 s2 : Matches r1 s1 → Matches r2 s2 → Matches (Seq r1 r2) (s1 ++ s2)
| Matches_alt_l r1 r2 s : Matches r1 s → Matches (Alt r1 r2) s
| Matches_alt_r r1 r2 s : Matches r2 s → Matches (Alt r1 r2) s
| Matches_star_nil r : Matches (Star r) []
| Matches_star_cons r s1 s2 :
    Matches r s1 → Matches (Star r) s2 → Matches (Star r) (s1 ++ s2).

(** Matching by derivatives: [nullable r] is whether [r] has the empty
    string, [derivative c r] has the strings [s] for which [r] has [c :: s]. *)
Fixpoint nullable (r : regex) : bool :=
  match r with
  | Void => false
  | Eps => true
  | Class _ => false
  | Seq r1 r2 => nullable r1 && nullable r2
  | Alt r1 r2 => nullable r1 || nullable r2
  | Star _ => true
  end.

Fixpoint derivative (c : N) (r : regex) : regex :=
  match r with
  | Void => Void
  | Eps => Void
  | Class p => if p c then Eps else Void
  | Seq r1 r2 =>
      if nullable r1 then Alt (Seq (derivative c r1) r2) (derivative c r2)
      else Seq (derivative c r1) r2
  | Alt r1 r2 => Alt (derivative c r1) (derivative c r2)
  | Star r => Seq (derivative c r) (Star r)
  end.

(** [/^r$/.test(s)] *)
Definition test (r : regex) (s : list N) : bool :=
  nullable (foldl (λ r c, derivative c r) r s).

End Regex.

(** [\s]: the WhiteSpace and LineTerminator code points of ECMAScript. *)
Definition is_white_space (c : N) : bool :=
  ((c =? 0x09) || (c =? 0x0A) || (c =? 0x0B) || (c =? 0x0C) || (c =? 0x0D) || (c =? 0x20)
   || (c =? 0xA0) || (c =? 0x1680) || ((0x2000 <=? c) && (c <=? 0x200A))
   || (c =? 0x2028) || (c =? 0x2029) || (c =? 0x202F) || (c =? 0x205F) || (c =? 0x3000)
   || (c =? 0xFEFF))%N.

(** [[^\s@]] *)
Definition not_space_or_at (c : N) : bool := negb (is_white_space c || (c =? 0x40)%N).

Definition emailRegex : Regex.regex :=
  Regex.Seq (Regex.Plus (Regex.Class not_space_or_at))
    (Regex.Seq (Regex.Char 0x40)
       (Regex.Seq (Regex.Plus (Regex.Class not_space_or_at))
          (Regex.Seq (Regex.Char 0x2E)
             (Regex.Plus (Regex.Class not_space_or_at))))).

Definition isValidEmail (email : list N) : bool := Regex.test emailRegex email.

(** The code units of a [string], which holds a JavaScript string whose
    code units are below 256, one to a character. *)
Definition code_units (s : string) : list N := N_of_ascii <$> list_ascii_of_string s.

(** ** The users table in full: /api/auth/register and /api/auth/login *)

(** [String.prototype.toLowerCase] and [String.prototype.trim]: the
    platform's, and the handlers are modelled for any such pair. *)
Class Strings := { toLowerCase : string → string; trim : string → string }.

(** [bcrypt.compare(password, hash)] of bcryptjs, whatever it decides;
    [None] is a rejected promise. *)
Class Bcrypt := compare : jsval → string → option bool.

Module Users.

(** A row of [users] with the column the other endpoints do not read
    ([created_at] is read by none). *)
Record row := {
  id : Z;
  email : string;
  password_hash : string;
  session_token : option string
}.

Definition user (r : row) : U.user :=
  {| U.id := id r; U.email := email r; U.session_token := session_token r |}.

(** [UPDATE users SET session_token = token WHERE id = uid] *)
Definition set_session_token (table : list row) (uid : Z) (token : option string) : list row :=
  (λ r, if decide (id r = uid)
        then {| id := id r; email := email r; password_hash := password_hash r;
                session_token := token |}
        else r) <$> table.

(** [DELETE FROM users WHERE id = uid] *)
Definition delete (table : list row) (uid : Z) : list row :=
  filter (λ r, id r ≠ uid) table.

(** [SELECT ... FROM users WHERE email = cleanEmail] *)
Definition select_by_email (table : list row) (cleanEmail : string) : list row :=
  filter (λ r, email r = cleanEmail) table.

(** Whether a value fits a VARCHAR(255) column. *)
Definition fits (value : string) : bool := (String.length value <=? 255)%nat.

End Users.

(** The tables with [table] for users. *)
Definition with_users (db : DB) (table : list Users.row) : DB :=
  {| users := Users.user <$> table; time_entries := time_entries db;
     time_entries_id_seq := time_entries_id_seq db |}.

Module Register.

(** [id] is the value the sequence of [users.id] gives, [passwordHash] what
    [bcrypt.hash(password, 10)] returns and [sessionToken] what [uuidv4()]
    returns, when the handler comes to them.  An INSERT the table refuses (a
    value too long for its column, a key that exists) ends in the catch.
    The payload is [{ success: true, user: { id, email } }]. *)
Definition handler `{Strings} (id : Z) (passwordHash sessionToken : string)
    (table : list Users.row) (request : request) : list Users.row * response (Z * string) :=
  if negb (String.eqb (method request) "POST") then
    (table, Error 405 "Method not allowed. Use POST.")
  else
    match getprop (body request) "email", getprop (body request) "password" with
    | Some email, Some password =>
        match (if truthy email then as_string email else None) with
        | None => (table, Error 400 "Email is required.")
        | Some email =>
            match (if truthy password then as_string password else None) with
            | None => (table, Error 400 "Password is required.")
            | Some password =>
                let cleanEmail := trim (toLowerCase email) in
                if negb (isValidEmail (code_units cleanEmail)) then
                  (table, Error 400 "Please enter a valid email address.")
                else if (String.length password <? 8)%nat then
                  (table, Error 400 "Password must be at least 8 characters.")
                else
                  match Users.select_by_email table cleanEmail with
                  | _ :: _ => (table, Error 400 "An account with this email already exists.")
                  | [] =>
                      if Users.fits cleanEmail && Users.fits passwordHash
                         && Users.fits sessionToken
                         && bool_decide (id ∉ Users.id <$> table) then
                        (table ++ [{| Users.id := id; Users.email := cleanEmail;
                                      Users.password_hash := passwordHash;
                                      Users.session_token := Some sessionToken |}],
                         Json 201 (id, cleanEmail))
                      else (table, Error 500 "Something went wrong. Please try again.")
                  end
            end
        end
    | _, _ => (table, Error 500 "Something went wrong. Please try again.")
    end.

End Register.

Module Login.

(** [sessionToken] is what [uuidv4()] returns when the handler comes to call
    it.  The payload is [{ success: true, user: { id, email } }]. *)
Definition handler `{Strings, Bcrypt} (sessionToken : string)
    (table : list Users.row) (request : request) : list Users.row * response (Z * string) :=
  if negb (String.eqb (method request) "POST") then
    (table, Error 405 "Method not allowed. Use POST.")
  else
    match getprop (body request) "email", getprop (body request) "password" with
    | Some email, Some password =>
        if negb (truthy email) || negb (truthy password) then
          (table, Error 400 "Email and password are required.")
        else
          match as_string email with
          | None => (table, Error 500 "Something went wrong. Please try again.")
          | Some email =>
              let cleanEmail := trim (toLowerCase email) in
              match Users.select_by_email table cleanEmail with
              | [] => (table, Error 401 "Invalid email or password.")
              | user :: _ =>
                  match compare password (Users.password_hash user) with
                  | None => (table, Error 500 "Something went wrong. Please try again.")
                  | Some false => (table, Error 401 "Invalid email or password.")
                  | Some true =>
                      if Users.fits sessionToken then
                        (Users.set_session_token table (Users.id user) (Some sessionToken),
                         Json 200 (Users.id user, Users.email user))
                      else (table, Error 500 "Something went wrong. Please try again.")
                  end
              end
          end
    | _, _ => (table, Error 500 "Something went wrong. Please try again.")
    end.

End Login.

(** What the four endpoints that write to [users] can do to it; logout and
    account deletion are the statements of their handlers on the full rows. *)
Inductive auth_step `{Strings, Bcrypt} (table : list Users.row) : list Users.row → Prop :=
| auth_register id passwordHash sessionToken request :
    auth_step table (Register.handler id passwordHash sessionToken table request).1
| auth_login sessionToken request :
    auth_step table (Login.handler sessionToken table request).1
| auth_logout uid : auth_step table (Users.set_session_token table uid None)
| auth_delete uid : auth_step table (Users.delete table uid).

Inductive auth_reachable `{Strings, Bcrypt} : list Users.row → Prop :=
| auth_reachable_empty : auth_reachable []
| auth_reachable_step table table' :
    auth_reachable table → auth_step table table' → auth_reachable table'.

(** What the users table keeps: the primary key, the UNIQUE email, and
    emails of the shape [isValidEmail] accepts. *)
Definition users_consistent (table : list Users.row) : Prop :=
  NoDup (Users.id <$> table) ∧ NoDup (Users.email <$> table) ∧
  ∀ r, r ∈ table → isValidEmail (code_units (Users.email r)) = true.

(** The two string functions on ASCII strings, and a stand-in for bcryptjs
    in which the hash of a password is the password after a prefix; the
    examples run on them. *)
Definition ascii_lower (c : ascii) : ascii :=
  let n := nat_of_ascii c in
  if ((65 <=? n) && (n <=? 90))%nat then ascii_of_nat (n + 32) else c.

Fixpoint string_map (f : ascii → ascii) (s : string) : string :=
  match s with
  | EmptyString => EmptyString
  | String c rest => String (f c) (string_map f rest)
  end.

Definition string_rev (s : string) : string :=
  string_of_list_ascii (rev (list_ascii_of_string s)).

Definition ascii_strings : Strings :=
  {| toLowerCase := string_map ascii_lower;
     trim := λ s, string_rev (skip_spaces (string_rev (skip_spaces s))) |}.

Definition sample_bcrypt : Bcrypt :=
  λ password hash,
    match password with
    | JString s => Some (String.eqb ("$2a$10$" +:+ s) hash)
    | _ => None
    end.

(** Alice's row in full. *)
Definition alice_row : Users.row :=
  {| Users.id := 1; Users.email := "alice@example.org";
     Users.password_hash := "$2a$10$correct horse";
     Users.session_token := Some "a1b2c3"%string |}.

(** ** profile.js: convertToCSV *)

(** [String(value)] of a number, the platform's. *)
Class NumberToString := Number_toString : Q → string.

Module CSV.

Definition quote_char : ascii := "034"%char.
Definition comma : ascii := ","%char.
Definition newline : ascii := "010"%char.

(** The [replace] of line 130: every double quote is doubled. *)
Fixpoint escape (value : string) : string :=
  match value with
  | EmptyString => EmptyString
  | String c rest =>
      if Ascii.eqb c quote_char then String quote_char (String quote_char (escape rest))
      else String c (escape rest)
  end.

(** Line 131: the escaped value between two double quotes. *)
Definition quoted (value : string) : string :=
  String quote_char (escape value +:+ String quote_char EmptyString).

(** [Array.prototype.join] *)
Fixpoint join (separator : ascii) (l : list string) : string :=
  match l with
  | [] => EmptyString
  | [x] => x
  | x :: rest => x +:+ String separator (join separator rest)
  end.

(** Lines 127 to 133: the text of a table of cells. *)
Definition csvContent (allRows : list (list string)) : string :=
  join newline ((λ row, join comma (quoted <$> row)) <$> allRows).

Definition headers : list string :=
  ["Date"; "Day"; "Start Time"; "End Time"; "Duration (Hours)"]%string.

(** The cells of one entry, each under [String]. *)
Definition cells `{NumberToString} (entry : Entries.row) : list string :=
  [ Entries.date entry;
    default "undefined"%string (Entries.day_of_week entry);
    Entries.start_time entry;
    Entries.end_time entry;
    Number_toString (Entries.duration_hours entry) ].

Definition convertToCSV `{NumberToString} (entries : list Entries.row) : string :=
  let rows := cells <$> entries in
  let allRows := headers :: rows in
  csvContent allRows.

(** A reader of that format, to state what the text preserves: cells in
    quotes, a doubled quote for a quote within a cell, commas between the
    cells of a row and line feeds between the rows.  [cell] and [row] are
    the cell and the row being read, [rows] the rows read so far. *)
Inductive mode := Start | InCell | AfterQuote.

Fixpoint read (s : string) (m : mode) (cell : string) (row : list string)
    (rows : list (list string)) : option (list (list string)) :=
  match s with
  | EmptyString =>
      match m with
      | AfterQuote => Some (rows ++ [row ++ [cell]])
      | _ => None
      end
  | String c rest =>
      match m with
      | Start =>
          if Ascii.eqb c quote_char then read rest InCell EmptyString row rows else None
      | InCell =>
          if Ascii.eqb c quote_char then read rest AfterQuote cell row rows
          else read rest InCell (cell +:+ String c EmptyString) row rows
      | AfterQuote =>
          if Ascii.eqb c quote_char then
            read rest InCell (cell +:+ String quote_char EmptyString) row rows
          else if Ascii.eqb c comma then read rest Start EmptyString (row ++ [cell]) rows
          else if Ascii.eqb c newline then read rest Start EmptyString [] (rows ++ [row ++ [cell]])
          else None
      end
  end.

Definition parse (text : string) : option (list (list string)) :=
  read text Start EmptyString [] [].

End CSV.

(** A stand-in for the platform's rendering of numbers in the examples:
    the hundredths, as an integer. *)
Definition sample_numbers : NumberToString :=
  λ q, pad 4 (Qfloor (q * 100)).

(** ** public/js/app.js: the elapsed-time display *)

Module App.

(** [String(n)] of an integer. *)
Definition String_of_int (n : Z) : string := NilZero.string_of_int (Z.to_int n).

(** [s.padStart(targetLength, '0')] *)
Definition padStart (targetLength : nat) (s : string) : string :=
  string_of_list_ascii (replicate (targetLength - String.length s) "0"%char) +:+ s.

(** [updateElapsedTime], with the session start the page keeps ([None] for
    [null]) and the reading of the browser's clock: the text it puts in the
    display, [None] when it leaves the display alone.  [%] is the remainder
    with the sign of the dividend. *)
Definition updateElapsedTime (sessionStartTime : option Z) (now : Z) : option string :=
  match sessionStartTime with
  | None => None
  | Some sessionStartTime =>
      let diffMs := now - sessionStartTime in
      let diffSeconds := Math_floor (inject_Z diffMs / 1000) in
      let hours := Math_floor (inject_Z diffSeconds / 3600) in
      let minutes := Math_floor (inject_Z (Z.rem diffSeconds 3600) / 60) in
      let seconds := Z.rem diffSeconds 60 in
      Some (padStart 2 (String_of_int hours) +:+ ":" +:+
            padStart 2 (String_of_int minutes) +:+ ":" +:+
            padStart 2 (String_of_int seconds))
  end.

(** *** The heatmap grid *)

(** [LocalTZA(t, isUTC)] of the browser's time zone: the offset of local
    time from UTC, in milliseconds, at the UTC instant [t] when [isUTC] and
    at the local time [t] otherwise. *)
Class TimeZone := LocalTZA : Z → bool → Z.

Definition LocalTime `{TimeZone} (t : Z) : Z := t + LocalTZA t true.

(** The abstract operation UTC(t). *)
Definition UTC_of_local `{TimeZone} (t : Z) : Z := t - LocalTZA t false.

(** [None] is NaN, the time value of an invalid [Date]. *)
Definition TimeClip (t : Z) : option Z :=
  if Z.abs t <=? 8640000000000000 then Some t else None.

Definition MakeFullYear (year : Z) : Z :=
  if (0 <=? year) && (year <=? 99) then 1900 + year else year.

(** [new Date(year, month, date)] for a month in 0..11. *)
Definition new_Date `{TimeZone} (year month date : Z) : option Z :=
  TimeClip (UTC_of_local (MakeDate (MakeDay (MakeFullYear year) month date)
                                   (MakeTime 0 0 0 0))).

Definition getDay `{TimeZone} (t : Z) : Z := WeekDay (LocalTime t).
Definition getDate `{TimeZone} (t : Z) : Z := DateFromTime (LocalTime t).

(** [d.setDate(date)], the new time value of [d]. *)
Definition setDate `{TimeZone} (t : Z) (date : Z) : option Z :=
  let local := LocalTime t in
  TimeClip (UTC_of_local (MakeDate (MakeDay (YearFromTime local) (MonthFromTime local) date)
                                   (TimeWithinDay local))).

(** One day of [weeks]; [None] in a week is [null], an empty cell. *)
Record day := { date : string; hours : Q; isFuture : bool }.

(** The loop of lines 339 to 363, at most [fuel] rounds of it ([None] when
    they do not suffice): [currentDate] runs from the first day to
    [lastDay], a comparison with an invalid date being false. *)
Fixpoint fill_weeks `{TimeZone} (fuel : nat) (lastDay : option Z) (today : Z)
    (daysData : gmap string (option Q)) (currentDate : option Z)
    (currentWeek : list (option day)) (weeks : list (list (option day)))
    : option (list (option day) * list (list (option day))) :=
  match fuel with
  | O => None
  | S fuel =>
      match currentDate, lastDay with
      | Some t, Some last =>
          if t <=? last then
            let dateString := Heatmap.split_T_0 (toISOString t) in
            let hours := match daysData !! dateString with
                         | Some (Some h) => h
                         | _ => 0%Q
                         end in
            let isFuture := today <? t in
            let currentWeek :=
              currentWeek ++ [Some {| date := dateString; hours := hours;
                                      isFuture := isFuture |}] in
            if (length currentWeek =? 7)%nat then
              fill_weeks fuel lastDay today daysData (setDate t (getDate t + 1))
                [] (weeks ++ [currentWeek])
            else
              fill_weeks fuel lastDay today daysData (setDate t (getDate t + 1))
                currentWeek weeks
          else Some (currentWeek, weeks)
      | _, _ => Some (currentWeek, weeks)
      end
  end.

(** Lines 319 to 372 of [renderHeatmap]: the weeks of the grid, for the
    [year] and the [days] of the heatmap reply, [today] being the reading of
    the browser's clock. *)
Definition weeks_of `{TimeZone} (fuel : nat) (year : Z) (daysData : gmap string (option Q))
    (today : Z) : option (list (list (option day))) :=
  let firstDay := new_Date year 0 1 in
  let lastDay := new_Date year 11 31 in
  let startOffset := getDay <$> firstDay in
  let currentWeek :=
    replicate (match startOffset with Some n => Z.to_nat n | None => O end) None in
  match fill_weeks fuel lastDay today daysData firstDay currentWeek [] with
  | None => None
  | Some (currentWeek, weeks) =>
      Some (if (0 <? length currentWeek)%nat
            then weeks ++ [currentWeek ++ replicate (7 - length currentWeek) None]
            else weeks)
  end.

Definition Qltb (x y : Q) : bool := negb (Qle_bool y x).

Definition getHeatLevel (hours : Q) : Z :=
  if Qeq_bool hours 0 then 0
  else if Qltb hours 2 then 1
  else if Qltb hours 5 then 2
  else if Qltb hours 10 then 3
  else 4.

(** A cell of the grid, by its class: [empty], [future] or [level-n]; the
    date and the hours are what its title is made of. *)
Inductive cell :=
| empty
| future (date : string)
| level (n : Z) (date : string) (hours : Q).

(** Lines 376 to 399: the cells in the order they are appended, the row of
    the Sundays first; [None] is the TypeError of reading a property of
    [undefined]. *)
Definition render_cell (d : option (option day)) : option cell :=
  match d with
  | None => None
  | Some None => Some empty
  | Some (Some d) =>
      Some (if isFuture d then future (date d)
            else level (getHeatLevel (hours d)) (date d) (hours d))
  end.

Definition grid (weeks : list (list (option day))) : option (list cell) :=
  mapM (λ dayOfWeek, mapM (λ week, render_cell (week !! dayOfWeek)) weeks) (seq 0 7)
  ≫= λ rows, Some (mjoin rows).

End App.

(** The UTC instant of local midnight of day [D] in a zone [tza]
    milliseconds ahead of UTC, and the entry of [weeks] the loop makes for a
    day whose [Date] has time value [t]. *)
Definition local_midnight (tza D : Z) : Z := D * msPerDay - tza.

Definition day_cell (daysData : gmap string (option Q)) (today t : Z) : App.day :=
  {| App.date := isoDate t;
     App.hours := match daysData !! isoDate t with Some (Some h) => h | _ => 0%Q end;
     App.isFuture := today <? t |}.

(** Browsers in UTC, in Tokyo and in Phoenix, zones that keep one offset. *)
Definition browser_utc : App.TimeZone := λ _ _, 0.
Definition browser_tokyo : App.TimeZone := λ _ _, 9 * msPerHour.
Definition browser_phoenix : App.TimeZone := λ _ _, -7 * msPerHour.

(** * Properties *)

(** ** The calendar *)

Lemma DayFromYear_succ y : DayFromYear (y + 1) = DayFromYear y + DaysInYear y.
Proof.
  unfold DayFromYear, DaysInYear.
  repeat match goal with |- context [negb (?a =? ?b)] => destruct (Z.eqb_spec a b); simpl end;
  Z.to_euclidean_division_equations; lia.
Qed.

Lemma YearFromDay_spec d :
  DayFromYear (YearFromDay d) ≤ d < DayFromYear (YearFromDay d + 1).
Proof.
  unfold YearFromDay.
  set (y0 := 1970 + 400 * d / 146097).
  assert (DayFromYear (y0 - 1) ≤ d ∧ d < DayFromYear (y0 + 2)) as [H1 H2].
  { subst y0. unfold DayFromYear. Z.to_euclidean_division_equations. lia. }
  destruct (Z.leb_spec (DayFromYear (y0 + 1)) d).
  - replace (y0 + 1 + 1) with (y0 + 2) by lia. lia.
  - destruct (Z.leb_spec (DayFromYear y0) d).
    + lia.
    + replace (y0 - 1 + 1) with y0 by lia. lia.
Qed.

Lemma DaysInYear_cases y : DaysInYear y = 365 ∨ DaysInYear y = 366.
Proof.
  unfold DaysInYear.
  repeat match goal with |- context [negb (?a =? ?b)] => destruct (Z.eqb_spec a b); simpl end;
    auto.
Qed.

Lemma DayWithinYear_range t :
  0 ≤ DayWithinYear t < DaysInYear (YearFromTime t).
Proof.
  unfold DayWithinYear, YearFromTime.
  pose proof (YearFromDay_spec (Day t)) as H.
  rewrite DayFromYear_succ in H. lia.
Qed.

(** MakeDay inverts the year, month and date of a time value. *)
Lemma MakeDay_inverse t :
  MakeDay (YearFromTime t) (MonthFromTime t) (DateFromTime t) = Day t
  ∧ 0 ≤ MonthFromTime t ≤ 11 ∧ 1 ≤ DateFromTime t ≤ 31.
Proof.
  pose proof (DayWithinYear_range t) as Hr.
  unfold MakeDay, DateFromTime, MonthFromTime, DayFromMonth, InLeapYear.
  unfold DayWithinYear in *.
  destruct (DaysInYear_cases (YearFromTime t)) as [E | E]; rewrite E in *; simpl;
  repeat match goal with
         | |- context [?a <? ?b] => destruct (Z.ltb_spec a b); simpl
         end; lia.
Qed.

Lemma Day_of_midnight d : Day (d * msPerDay) = d.
Proof. unfold Day, msPerDay. by rewrite Z.div_mul. Qed.

Lemma YearFromDay_bound d :
  -100000000 ≤ d ≤ 100000000 → -999999 ≤ YearFromDay d ≤ 999999.
Proof.
  intros Hd. pose proof (YearFromDay_spec d) as H.
  unfold DayFromYear in H. Z.to_euclidean_division_equations. lia.
Qed.
Lemma chars_app s1 s2 : list_ascii_of_string (s1 +:+ s2) = list_ascii_of_string s1 ++ list_ascii_of_string s2.
Proof. induction s1 as [| c s1 IH]; simpl; [done | by rewrite IH]. Qed.

Lemma chars_inj s1 s2 : list_ascii_of_string s1 = list_ascii_of_string s2 → s1 = s2.
Proof.
  intros E. rewrite <- (string_of_list_ascii_of_string s1), E.
  apply string_of_list_ascii_of_string.
Qed.

Lemma chars_pad_length w n : length (list_ascii_of_string (pad w n)) = w.
Proof.
  revert n. induction w as [| w IH]; intros n; simpl; [done |].
  rewrite chars_app, length_app, IH. simpl. lia.
Qed.

Lemma digit_code n : nat_of_ascii (digit n) = (48 + Z.to_nat (n mod 10))%nat.
Proof.
  unfold digit. apply nat_ascii_embedding.
  pose proof (Z.mod_pos_bound n 10). lia.
Qed.

Lemma digit_inj a b : digit a = digit b → a mod 10 = b mod 10.
Proof.
  intros E. apply (f_equal nat_of_ascii) in E. rewrite !digit_code in E.
  pose proof (Z.mod_pos_bound a 10). pose proof (Z.mod_pos_bound b 10). lia.
Qed.

Lemma pad_inj w a b :
  0 ≤ a < 10 ^ Z.of_nat w → 0 ≤ b < 10 ^ Z.of_nat w → pad w a = pad w b → a = b.
Proof.
  revert a b. induction w as [| w IH]; intros a b Ha Hb E.
  - simpl in Ha, Hb. lia.
  - rewrite Nat2Z.inj_succ, Z.pow_succ_r in Ha, Hb by lia.
    simpl in E. apply (f_equal list_ascii_of_string) in E. rewrite !chars_app in E.
    apply app_inj_2 in E as [E1 E2]; [| done].
    apply chars_inj, IH in E1; [| Z.to_euclidean_division_equations; lia ..].
    injection E2 as E2. apply digit_inj in E2.
    Z.to_euclidean_division_equations; lia.
Qed.

Lemma String_inj c1 s1 c2 s2 : String c1 s1 = String c2 s2 → c1 = c2 ∧ s1 = s2.
Proof. by intros [= -> ->]. Qed.

Lemma isoYear_cases y :
  (0 ≤ y ≤ 9999 ∧ isoYear y = pad 4 y) ∨
  (y < 0 ∧ isoYear y = String "-" (pad 6 (- y))) ∨
  (9999 < y ∧ isoYear y = String "+" (pad 6 y)).
Proof.
  unfold isoYear.
  destruct (Z.leb_spec 0 y), (Z.leb_spec y 9999); simpl;
    destruct (Z.ltb_spec y 0); try lia; auto.
Qed.

Lemma isoYear_inj y1 y2 :
  -999999 ≤ y1 ≤ 999999 → -999999 ≤ y2 ≤ 999999 → isoYear y1 = isoYear y2 → y1 = y2.
Proof.
  intros H1 H2 E.
  assert (∀ w n, length (list_ascii_of_string (pad w n)) = w) as Hlen by apply chars_pad_length.
  destruct (isoYear_cases y1) as [[R1 E1] | [[R1 E1] | [R1 E1]]];
    destruct (isoYear_cases y2) as [[R2 E2] | [[R2 E2] | [R2 E2]]];
    rewrite E1, E2 in E.
  - apply pad_inj in E; [done | simpl; lia ..].
  - apply (f_equal (λ s, length (list_ascii_of_string s))) in E. cbn -[pad] in E. rewrite !Hlen in E. lia.
  - apply (f_equal (λ s, length (list_ascii_of_string s))) in E. cbn -[pad] in E. rewrite !Hlen in E. lia.
  - apply (f_equal (λ s, length (list_ascii_of_string s))) in E. cbn -[pad] in E. rewrite !Hlen in E. lia.
  - apply String_inj in E as [_ E]. apply pad_inj in E; [lia | simpl; lia ..].
  - discriminate E.
  - apply (f_equal (λ s, length (list_ascii_of_string s))) in E. cbn -[pad] in E. rewrite !Hlen in E. lia.
  - discriminate E.
  - apply String_inj in E as [_ E]. apply pad_inj in E; [lia | simpl; lia ..].
Qed.

Lemma isoDate_inj t1 t2 :
  -999999 ≤ YearFromTime t1 ≤ 999999 → -999999 ≤ YearFromTime t2 ≤ 999999 →
  isoDate t1 = isoDate t2 → Day t1 = Day t2.
Proof.
  intros H1 H2 E.
  destruct (MakeDay_inverse t1) as (<- & Hm1 & Hd1).
  destruct (MakeDay_inverse t2) as (<- & Hm2 & Hd2).
  unfold isoDate in E. apply (f_equal list_ascii_of_string) in E.
  rewrite !chars_app in E. cbn -[pad] in E.
  apply app_inj_2 in E as [Ey E];
    [| cbn -[pad]; by rewrite !length_app, !chars_pad_length].
  apply (f_equal tail) in E. cbn -[pad] in E.
  apply app_inj_1 in E as [Em E]; [| by rewrite !chars_pad_length].
  apply (f_equal tail) in E. cbn -[pad] in E.
  apply chars_inj, isoYear_inj in Ey; [| done..].
  apply chars_inj, pad_inj in Em; [| simpl; lia..].
  apply chars_inj, pad_inj in E; [| simpl; lia..].
  rewrite Ey, E. by replace (MonthFromTime t1) with (MonthFromTime t2) by lia.
Qed.

Lemma digit_not_T n : digit n ≠ "T"%char.
Proof.
  intros E. apply (f_equal nat_of_ascii) in E. rewrite digit_code in E.
  change (nat_of_ascii "T") with 84%nat in E.
  pose proof (Z.mod_pos_bound n 10). lia.
Qed.

Lemma pad_no_T w n c : c ∈ list_ascii_of_string (pad w n) → c ≠ "T"%char.
Proof.
  revert n. induction w as [| w IH]; intros n; simpl.
  - by intros ?%elem_of_nil.
  - rewrite chars_app. intros [H | ->%list_elem_of_singleton]%elem_of_app.
    + by eapply IH.
    + apply digit_not_T.
Qed.

Lemma isoDate_no_T t c : c ∈ list_ascii_of_string (isoDate t) → c ≠ "T"%char.
Proof.
  unfold isoDate, isoYear. rewrite !chars_app. cbn -[pad].
  intros [Hy | [-> | [Hm | [-> | Hd]%elem_of_cons]%elem_of_app]%elem_of_cons]%elem_of_app;
    try done; try by eapply pad_no_T.
  destruct ((0 <=? YearFromTime t) && (YearFromTime t <=? 9999)); [by eapply pad_no_T |].
  destruct (YearFromTime t <? 0); cbn -[pad] in Hy;
    apply elem_of_cons in Hy as [-> | Hy]; try done; by eapply pad_no_T.
Qed.

Lemma split_T_0_app s r :
  (∀ c, c ∈ list_ascii_of_string s → c ≠ "T"%char) → Heatmap.split_T_0 (s +:+ String "T" r) = s.
Proof.
  induction s as [| c s IH]; intros Hs; simpl; [done |].
  destruct (Ascii.eqb_spec c "T") as [-> | _].
  - destruct (Hs "T"%char); [simpl; left | done].
  - rewrite IH; [done |]. intros c' Hc'. apply Hs. simpl. by right.
Qed.

Lemma split_T_0_toISOString t : Heatmap.split_T_0 (toISOString t) = isoDate t.
Proof. unfold toISOString. apply split_T_0_app, isoDate_no_T. Qed.

Lemma dateString_eq d : Heatmap.dateString d = isoDate (d * msPerDay).
Proof. apply split_T_0_toISOString. Qed.

Example toISOString_saturday : toISOString (UTC 2024 5 1 8 0 0) = "2024-06-01T08:00:00.000Z"%string.
Proof. vm_compute. reflexivity. Qed.
Example UTC_saturday : UTC 2024 5 1 8 0 0 = 1717228800000.
Proof. vm_compute. reflexivity. Qed.
Example toISOString_before_epoch : toISOString (-1) = "1969-12-31T23:59:59.999Z"%string.
Proof. vm_compute. reflexivity. Qed.
Example toISOString_leap_day : toISOString (UTC 2000 1 29 23 59 59) = "2000-02-29T23:59:59.000Z"%string.
Proof. vm_compute. reflexivity. Qed.
Example WeekDay_saturday : WeekDay (UTC 2024 5 1 8 0 0) = 6.
Proof. vm_compute. reflexivity. Qed.

(** ** Numbers *)

Lemma Qgtb_hours (d : Z) :
  Qgtb (inject_Z d / inject_Z (1000 * 60 * 60)) (inject_Z MAX_SHIFT_HOURS)
  = (max_shift_ms <? d).
Proof.
  unfold Qgtb, max_shift_ms, MAX_SHIFT_HOURS.
  destruct (Z.ltb_spec (15 * 60 * 60 * 1000) d) as [Hd | Hd].
  - apply negb_true_iff, not_true_iff_false. rewrite Qle_bool_iff.
    unfold Qle, Qdiv, Qmult, Qinv, inject_Z; simpl. lia.
  - apply negb_false_iff. rewrite Qle_bool_iff.
    unfold Qle, Qdiv, Qmult, Qinv, inject_Z; simpl. lia.
Qed.

Lemma Qgeb_hours (d : Z) :
  Qgeb (inject_Z d / 1000 / 3600) (inject_Z MAX_SHIFT_HOURS) = (max_shift_ms <=? d).
Proof.
  unfold Qgeb, max_shift_ms, MAX_SHIFT_HOURS.
  destruct (Z.leb_spec (15 * 60 * 60 * 1000) d) as [Hd | Hd].
  - rewrite Qle_bool_iff.
    unfold Qle, Qdiv, Qmult, Qinv, inject_Z; simpl. lia.
  - apply not_true_iff_false. rewrite Qle_bool_iff.
    unfold Qle, Qdiv, Qmult, Qinv, inject_Z; simpl. lia.
Qed.

Lemma endTime_eq (startTime now : Z) :
  ClockOut.endTime startTime now
  = if max_shift_ms <? now - startTime then startTime + max_shift_ms else now.
Proof. unfold ClockOut.endTime. rewrite Qgtb_hours. reflexivity. Qed.

Lemma endTime_le (startTime now : Z) :
  ClockOut.endTime startTime now - startTime ≤ max_shift_ms.
Proof. rewrite endTime_eq. destruct (Z.ltb_spec max_shift_ms (now - startTime)); lia. Qed.

Lemma endTime_ge (startTime now : Z) :
  startTime ≤ now → 0 ≤ ClockOut.endTime startTime now - startTime.
Proof.
  intros Hn. rewrite endTime_eq.
  destruct (Z.ltb_spec max_shift_ms (now - startTime)); unfold max_shift_ms, MAX_SHIFT_HOURS; lia.
Qed.

Lemma Math_round_near (x : Q) : (Qabs (inject_Z (Math_round x) - x) <= 1 # 2)%Q.
Proof.
  unfold Math_round.
  pose proof (Qfloor_le (x + (1 # 2))) as Hlo.
  pose proof (Qlt_floor (x + (1 # 2))) as Hhi.
  rewrite inject_Z_plus in Hhi. change (inject_Z 1) with 1%Q in Hhi.
  apply Qabs_Qle_condition. split; lra.
Qed.

Lemma round2_rounds (x : Q) : rounded_to_2_decimals x (round2 x).
Proof.
  exists (Math_round (x * 100)). split; [reflexivity |].
  unfold round2.
  pose proof (Math_round_near (x * 100)) as H.
  apply Qabs_Qle_condition in H. destruct H as [H1 H2].
  apply Qabs_Qle_condition.
  assert (inject_Z (Math_round (x * 100)) / 100
          == inject_Z (Math_round (x * 100)) * (1 # 100))%Q as -> by reflexivity.
  split; lra.
Qed.

Lemma round2_comp (x y : Q) : (x == y)%Q → (round2 x == round2 y)%Q.
Proof.
  intros E. unfold round2, Math_round.
  assert (Qfloor (x * 100 + (1 # 2)) = Qfloor (y * 100 + (1 # 2))) as ->.
  { apply Qfloor_comp. rewrite E. reflexivity. }
  reflexivity.
Qed.

Lemma duration_hours_eq (start end_ : Z) :
  (inject_Z (end_ - start) / inject_Z (1000 * 60 * 60) == duration_in_hours start end_)%Q.
Proof.
  unfold duration_in_hours, Qeq, Qdiv, Qmult, Qinv, inject_Z; simpl. lia.
Qed.

(** ** The SQL statements *)

Lemma elem_of_select_open db uid r :
  r ∈ select_open db uid ↔ r ∈ time_entries db ∧ user_id r = uid ∧ end_time r = None.
Proof. unfold select_open. rewrite list_elem_of_filter. tauto. Qed.

Lemma select_open_head db uid entry rest :
  select_open db uid = entry :: rest →
  entry ∈ time_entries db ∧ user_id entry = uid ∧ end_time entry = None.
Proof.
  intros E. apply elem_of_select_open. rewrite E. apply elem_of_cons. by left.
Qed.

Lemma update_ids db i e :
  id <$> time_entries (update_end_time db i e).1 = id <$> time_entries db.
Proof.
  unfold update_end_time; simpl. rewrite <- list_fmap_compose.
  apply list_fmap_ext; intros ? x _; simpl. by destruct (decide (id x = i)).
Qed.

Lemma elem_of_update db i e r' :
  r' ∈ time_entries (update_end_time db i e).1 ↔
  ∃ r, r ∈ time_entries db ∧ r' = (if decide (id r = i) then set_end_time e r else r).
Proof.
  simpl. rewrite list_elem_of_fmap. split; intros (r & H1 & H2); exists r; done.
Qed.

Lemma update_returning db e entry :
  NoDup (id <$> time_entries db) → entry ∈ time_entries db →
  (update_end_time db (id entry) e).2 = [set_end_time e entry].
Proof.
  simpl. induction (time_entries db) as [| x l IH]; intros Hnd Hin.
  - by apply elem_of_nil in Hin.
  - rewrite fmap_cons in Hnd. apply NoDup_cons in Hnd as [Hx Hnd].
    rewrite fmap_cons, filter_cons.
    apply elem_of_cons in Hin as [-> | Hin].
    + destruct (decide (id x = id x)) as [_ | ?]; [| done]. simpl.
      destruct (decide (id x = id x)) as [_ | ?]; [| done]. f_equal.
      clear IH. induction l as [| y l IH]; [done |].
      rewrite fmap_cons in Hx, Hnd. apply not_elem_of_cons in Hx as [Hxy Hx].
      apply NoDup_cons in Hnd as [_ Hnd].
      rewrite fmap_cons, filter_cons.
      destruct (decide (id y = id x)) as [? | _]; [congruence |].
      destruct (decide (id y = id x)) as [? | _]; [congruence |]. by apply IH.
    + assert (id x ≠ id entry) as Hne.
      { intros E. apply Hx. rewrite E. apply list_elem_of_fmap. by exists entry. }
      destruct (decide (id x = id entry)) as [? | _]; [done |].
      destruct (decide (id x = id entry)) as [? | _]; [done |]. by apply IH.
Qed.

Lemma select_open_update db i e uid :
  select_open (update_end_time db i e).1 uid
  = filter (λ r, id r ≠ i) (select_open db uid).
Proof.
  unfold select_open. simpl. induction (time_entries db) as [| x l IH]; [done |].
  rewrite fmap_cons, !filter_cons, IH.
  destruct (decide (id x = i)) as [Hi | Hi].
  - destruct (decide (user_id (set_end_time e x) = uid ∧ end_time (set_end_time e x) = None))
      as [[_ ?] | _]; [done |].
    destruct (decide (user_id x = uid ∧ end_time x = None)); [| done].
    rewrite filter_cons. by destruct (decide (id x ≠ i)).
  - destruct (decide (user_id x = uid ∧ end_time x = None)); [| done].
    rewrite filter_cons. by destruct (decide (id x ≠ i)).
Qed.




Lemma length_substring_0 n s :
  (n ≤ String.length s)%nat → String.length (substring 0 n s) = n.
Proof.
  revert s. induction n as [| n IH]; intros [| a s]; simpl; try done; [lia |].
  intros Hn. rewrite IH; lia.
Qed.




Lemma VARCHAR_Some n value z :
  VARCHAR n value = Some z →
  (z = value ∨ z = substring 0 n value) ∧ (String.length z ≤ n)%nat.
Proof.
  unfold VARCHAR. destruct (Nat.leb_spec (String.length value) n) as [Hle | Hgt].
  - intros [= <-]. split; [by left | done].
  - destruct (only_spaces _); [| done]. intros [= <-].
    split; [by right |]. rewrite length_substring_0; lia.
Qed.

Lemma VARCHAR_nonempty n value z :
  (0 < n)%nat → value ≠ ""%string → VARCHAR n value = Some z → z ≠ ""%string.
Proof.
  intros Hn Hv Hz. apply VARCHAR_Some in Hz as [[-> | ->] _]; [done |].
  destruct n; [lia |]. by destruct value.
Qed.

Lemma insert_entry_Some db uid now tz z :
  VARCHAR 100 tz = Some z → insert_entry db uid now tz = Some (insert_row db uid now z).
Proof. unfold insert_entry. by intros ->. Qed.

Lemma insert_entry_None db uid now tz :
  VARCHAR 100 tz = None → insert_entry db uid now tz = None.
Proof. unfold insert_entry. by intros ->. Qed.

Lemma select_open_insert db uid now tz uid' :
  select_open (insert_row db uid now tz).1 uid'
  = select_open db uid' ++
    (if decide (uid = uid')
     then [{| id := time_entries_id_seq db; user_id := uid; start_time := now;
              end_time := None; start_timezone := tz |}]
     else []).
Proof.
  unfold select_open. simpl. rewrite filter_app. f_equal.
  rewrite filter_cons, filter_nil. simpl.
  destruct (decide (uid = uid')) as [-> | Hne].
  - by destruct (decide (uid' = uid' ∧ @None Z = None)) as [_ | []].
  - by destruct (decide (uid = uid' ∧ @None Z = None)) as [[? _] | _].
Qed.

Lemma same_id (l : list time_entry) r r' :
  NoDup (id <$> l) → r ∈ l → r' ∈ l → id r = id r' → r = r'.
Proof.
  intros Hnd [i Hi]%list_elem_of_lookup [j Hj]%list_elem_of_lookup Hid.
  assert (i = j) as ->; [| congruence].
  eapply NoDup_lookup; [exact Hnd | |]; rewrite list_lookup_fmap.
  - by rewrite Hi.
  - rewrite Hj. simpl. by rewrite Hid.
Qed.

(** Under the primary key, the one row an UPDATE adds to the table is the
    closed copy of the row it names. *)
Lemma newly_closed db entry e r :
  NoDup (id <$> time_entries db) → entry ∈ time_entries db →
  r ∈ time_entries (update_end_time db (id entry) e).1 → r ∉ time_entries db →
  r = set_end_time e entry.
Proof.
  intros Hnd Hin (r0 & Hr0 & ->)%elem_of_update Hnew.
  destruct (decide (id r0 = id entry)) as [Hid | _]; [| done].
  by rewrite (same_id _ _ _ Hnd Hr0 Hin Hid).
Qed.

(** ** What each handler does to the tables *)

Lemma truthy_string v tz :
  (if truthy v then as_string v else None) = Some tz → v = JString tz ∧ tz ≠ ""%string.
Proof.
  destruct v; simpl; try done; try (by destruct b).
  - destruct (negb (Qeq_bool q 0)); done.
  - destruct (String.eqb_spec s ""); simpl; [done |]. intros [= ->]. done.
Qed.

(** Past its checks, a clock-in stores the zone as the column takes it. *)
Lemma clock_in_cases `{Intl} now db request :
  (ClockIn.handler now db request).1 = db ∨
  ∃ user tz z,
    getCurrentUser db request = Some user ∧
    getprop (body request) "timezone" = Some (JString tz) ∧ tz ≠ ""%string ∧
    checkWeekendRestriction tz now = None ∧
    select_open db (U.id user) = [] ∧
    VARCHAR 100 tz = Some z ∧ z ≠ ""%string ∧
    (ClockIn.handler now db request).1 = (insert_row db (U.id user) now z).1.
Proof.
  unfold ClockIn.handler.
  destruct (negb (String.eqb (method request) "POST")); [by left |].
  destruct (getCurrentUser db request) as [user |] eqn:Hu; [| by left].
  destruct (getprop (body request) "timezone") as [v |] eqn:Hv; [| by left].
  destruct (if truthy v then as_string v else None) as [tz |] eqn:Htz; [| by left].
  apply truthy_string in Htz as [-> Htz].
  destruct (checkWeekendRestriction tz now) eqn:Hw; [by left |].
  destruct (select_open db (U.id user)) eqn:Ho; [| by left].
  destruct (VARCHAR 100 tz) as [z |] eqn:Hz.
  - right. exists user, tz, z. rewrite (insert_entry_Some _ _ _ _ _ Hz).
    split_and!; try done. eapply VARCHAR_nonempty; [| exact Htz | exact Hz]. lia.
  - left. by rewrite (insert_entry_None _ _ _ _ Hz).
Qed.

Lemma clock_in_ungated_cases now db request :
  (ClockIn.handler_ungated now db request).1 = db ∨
  ∃ user z,
    getCurrentUser db request = Some user ∧
    z ≠ ""%string ∧ select_open db (U.id user) = [] ∧
    (ClockIn.handler_ungated now db request).1 = (insert_row db (U.id user) now z).1.
Proof.
  unfold ClockIn.handler_ungated.
  destruct (negb (String.eqb (method request) "POST")); [by left |].
  destruct (getCurrentUser db request) as [user |] eqn:Hu; [| by left].
  destruct (getprop (body request) "timezone") as [v |] eqn:Hv; [| by left].
  destruct (if truthy v then as_string v else None) as [tz |] eqn:Htz; [| by left].
  apply truthy_string in Htz as [-> Htz].
  destruct (select_open db (U.id user)) eqn:Ho; [| by left].
  destruct (VARCHAR 100 tz) as [z |] eqn:Hz.
  - right. exists user, z. rewrite (insert_entry_Some _ _ _ _ _ Hz).
    split_and!; try done. eapply VARCHAR_nonempty; [| exact Htz | exact Hz]. lia.
  - left. by rewrite (insert_entry_None _ _ _ _ Hz).
Qed.

Lemma close_fst db entry now :
  (ClockOut.close db entry now).1
  = (update_end_time db (id entry) (ClockOut.endTime (start_time entry) now)).1.
Proof.
  unfold ClockOut.close.
  destruct (update_end_time db (id entry) (ClockOut.endTime (start_time entry) now))
    as [db' rows].
  by destruct rows.
Qed.

Lemma clock_out_cases `{Intl} now db request :
  (ClockOut.handler now db request).1 = db ∨
  ∃ user entry rest,
    select_open db (U.id user) = entry :: rest ∧
    (ClockOut.handler now db request).1
    = (update_end_time db (id entry) (ClockOut.endTime (start_time entry) now)).1.
Proof.
  unfold ClockOut.handler.
  destruct (negb (String.eqb (method request) "POST")); [by left |].
  destruct (getCurrentUser db request) as [user |]; [| by left].
  destruct (select_open db (U.id user)) as [| entry rest] eqn:Ho; [by left |].
  match goal with |- context [match ?g with Some _ => _ | None => _ end] => destruct g end;
    [by left |].
  right. exists user, entry, rest. by rewrite close_fst.
Qed.

Lemma clock_out_ungated_cases now db request :
  (ClockOut.handler_ungated now db request).1 = db ∨
  ∃ user entry rest,
    select_open db (U.id user) = entry :: rest ∧
    (ClockOut.handler_ungated now db request).1
    = (update_end_time db (id entry) (ClockOut.endTime (start_time entry) now)).1.
Proof.
  unfold ClockOut.handler_ungated.
  destruct (negb (String.eqb (method request) "POST")); [by left |].
  destruct (getCurrentUser db request) as [user |]; [| by left].
  destruct (select_open db (U.id user)) as [| entry rest] eqn:Ho; [by left |].
  right. exists user, entry, rest. by rewrite close_fst.
Qed.

Lemma check_open_cases db uid now :
  match select_open db uid with
  | [] => Status.check_open db uid now = (db, false, None)
  | entry :: _ =>
      if max_shift_ms <=? now - start_time entry then
        Status.check_open db uid now
        = ((update_end_time db (id entry) (start_time entry + max_shift_ms)).1, false, None)
      else
        ∃ s, Status.check_open db uid now = (db, true, Some s)
  end.
Proof.
  unfold Status.check_open.
  destruct (select_open db uid) as [| entry rest]; [done |].
  rewrite Qgeb_hours.
  destruct (max_shift_ms <=? now - start_time entry); [done |]. by eexists.
Qed.

Lemma status_fst now db request :
  (Status.handler now db request).1 = db ∨
  ∃ user entry rest,
    select_open db (U.id user) = entry :: rest ∧
    max_shift_ms ≤ now - start_time entry ∧
    (Status.handler now db request).1
    = (update_end_time db (id entry) (start_time entry + max_shift_ms)).1.
Proof.
  unfold Status.handler.
  destruct (negb (String.eqb (method request) "GET")); [by left |].
  destruct (getCurrentUser db request) as [user |]; [| by left].
  pose proof (check_open_cases db (U.id user) now) as Hc.
  destruct (select_open db (U.id user)) as [| entry rest] eqn:Ho.
  - rewrite Hc. by left.
  - destruct (Z.leb_spec max_shift_ms (now - start_time entry)) as [Hle | Hlt].
    + rewrite Hc. right. by exists user, entry, rest.
    + destruct Hc as [s ->]. by left.
Qed.

(** ** The invariants of the tables *)

Lemma consistent_empty : consistent empty_db.
Proof.
  split.
  - split; [constructor |]. intros r Hr. by apply elem_of_nil in Hr.
  - intros uid. simpl. lia.
  - intros r Hr. by apply elem_of_nil in Hr.
  - intros r e Hr. by apply elem_of_nil in Hr.
Qed.

Lemma consistent_update db entry e :
  consistent db → entry ∈ time_entries db → end_time entry = None →
  e - start_time entry ≤ max_shift_ms →
  consistent (update_end_time db (id entry) e).1.
Proof.
  intros [[Hnd Hseq] Hopen Htz Hcap] Hin Hnone He. split.
  - split; [by rewrite update_ids |].
    intros r' (r & Hr & ->)%elem_of_update.
    destruct (decide (id r = id entry)); simpl; by apply Hseq.
  - intros uid. rewrite select_open_update.
    etrans; [apply length_filter | apply Hopen].
  - intros r' (r & Hr & ->)%elem_of_update.
    destruct (decide (id r = id entry)); simpl; by apply Htz.
  - intros r' e' (r & Hr & ->)%elem_of_update.
    destruct (decide (id r = id entry)) as [Hid | Hid]; [| by apply Hcap].
    simpl. intros [= <-]. by rewrite (same_id _ _ _ Hnd Hr Hin Hid).
Qed.

Lemma consistent_insert db uid now tz :
  consistent db → select_open db uid = [] → tz ≠ ""%string →
  consistent (insert_row db uid now tz).1.
Proof.
  intros [[Hnd Hseq] Hopen Htz Hcap] Hnone Hne. split.
  - split; simpl.
    + rewrite fmap_app. apply NoDup_app. split_and!; [done | | apply NoDup_singleton].
      intros i (r & -> & Hr)%list_elem_of_fmap Hi. simpl in Hi.
      apply list_elem_of_singleton in Hi. apply Hseq in Hr. lia.
    + intros r [Hr | ->%list_elem_of_singleton]%elem_of_app; [apply Hseq in Hr |]; simpl; lia.
  - intros uid'. rewrite select_open_insert, length_app.
    destruct (decide (uid = uid')) as [<- | _]; simpl.
    + rewrite Hnone. simpl. lia.
    + specialize (Hopen uid'). lia.
  - intros r [Hr | ->%list_elem_of_singleton]%elem_of_app; [by apply Htz | done].
  - intros r e [Hr | ->%list_elem_of_singleton]%elem_of_app; [by apply Hcap | done].
Qed.

Lemma filter_filter_length {A} (P Q : A → Prop)
    `{!∀ x, Decision (P x), !∀ x, Decision (Q x)} (l : list A) :
  (length (filter P (filter Q l)) ≤ length (filter P l))%nat.
Proof.
  induction l as [| a l IH]; [done |].
  rewrite !filter_cons.
  destruct (decide (Q a)), (decide (P a)); rewrite ?filter_cons; simpl;
    repeat case_decide; simpl; try done; lia.
Qed.

Lemma consistent_delete db uid : consistent db → consistent (Account.delete_user db uid).
Proof.
  intros [[Hnd Hseq] Hopen Htz Hcap]. split.
  - split; simpl.
    + eapply sublist_NoDup; [exact Hnd |]. apply fmap_sublist, sublist_filter.
    + intros r (_ & Hr)%list_elem_of_filter. by apply Hseq.
  - intros uid'. unfold select_open. simpl.
    etrans; [apply filter_filter_length | apply (Hopen uid')].
  - intros r (_ & Hr)%list_elem_of_filter. by apply Htz.
  - intros r e (_ & Hr)%list_elem_of_filter. by apply Hcap.
Qed.

(** The four things a request can do to the entries. *)
Lemma step_cases `{Intl} now db db' :
  step now db db' →
  (time_entries db' = time_entries db ∧
   time_entries_id_seq db' = time_entries_id_seq db) ∨
  (∃ uid tz,
     tz ≠ ""%string ∧ select_open db uid = [] ∧ db' = (insert_row db uid now tz).1) ∨
  (∃ entry e,
     entry ∈ time_entries db ∧ end_time entry = None ∧
     e - start_time entry ≤ max_shift_ms ∧
     (start_time entry ≤ now → 0 ≤ e - start_time entry) ∧
     db' = (update_end_time db (id entry) e).1) ∨
  (∃ uid, db' = Account.delete_user db uid).
Proof.
  assert (∀ db1 uid entry rest,
            select_open db uid = entry :: rest →
            db1 = (update_end_time db (id entry) (ClockOut.endTime (start_time entry) now)).1 →
            ∃ entry e,
              entry ∈ time_entries db ∧ end_time entry = None ∧
              e - start_time entry ≤ max_shift_ms ∧
              (start_time entry ≤ now → 0 ≤ e - start_time entry) ∧
              db1 = (update_end_time db (id entry) e).1) as Hclose.
  { intros db1 uid entry rest (Hin & _ & Hnone)%select_open_head ->.
    exists entry, (ClockOut.endTime (start_time entry) now).
    split_and!; [done | done | apply endTime_le | apply endTime_ge | done]. }
  intros [request | request | request | request | request | request | request | users'].
  - destruct (clock_in_cases now db request)
      as [-> | (user & tz & z & _ & _ & _ & _ & Ho & _ & Hz & ->)]; [by left |].
    right; left. by exists (U.id user), z.
  - destruct (clock_in_ungated_cases now db request)
      as [-> | (user & tz & _ & Htz & Ho & ->)]; [by left |].
    right; left. by exists (U.id user), tz.
  - destruct (clock_out_cases now db request)
      as [-> | (user & entry & rest & Ho & E)]; [by left |].
    right; right; left. by eapply Hclose.
  - destruct (clock_out_ungated_cases now db request)
      as [-> | (user & entry & rest & Ho & E)]; [by left |].
    right; right; left. by eapply Hclose.
  - destruct (status_fst now db request)
      as [-> | (user & entry & rest & Ho & Hlate & ->)]; [by left |].
    apply select_open_head in Ho as (Hin & _ & Hnone).
    right; right; left. exists entry, (start_time entry + max_shift_ms).
    split_and!; [done | done | lia | unfold max_shift_ms, MAX_SHIFT_HOURS; lia | done].
  - left. unfold Heatmap.handler.
    destruct (negb (String.eqb (method request) "GET")); [done |].
    by destruct (getCurrentUser db request).
  - unfold Account.handler.
    destruct (negb (String.eqb (method request) "DELETE")); [by left |].
    destruct (getCurrentUser db request) as [user |]; [| by left].
    right; right; right. by exists (U.id user).
  - by left.
Qed.

Lemma consistent_same_entries db db' :
  time_entries db' = time_entries db →
  time_entries_id_seq db' = time_entries_id_seq db →
  consistent db → consistent db'.
Proof.
  intros Ee Es [[Hnd Hseq] Hopen Htz Hcap].
  split; [split |..]; unfold one_open_entry, select_open, timezones_given, shifts_capped;
    rewrite ?Ee, ?Es; done.
Qed.

Lemma consistent_step `{Intl} now db db' : consistent db → step now db db' → consistent db'.
Proof.
  intros Hc Hs.
  destruct (step_cases now db db' Hs)
    as [[Ee Es] | [(uid & tz & Htz & Ho & ->) | [(entry & e & Hin & Hnone & He & _ & ->)
       | (uid & ->)]]].
  - by eapply consistent_same_entries.
  - by apply consistent_insert.
  - by apply consistent_update.
  - by apply consistent_delete.
Qed.

Lemma reachable_consistent `{Intl} db : reachable db → consistent db.
Proof.
  induction 1 as [| now db db' _ IH Hs]; [apply consistent_empty |].
  by eapply consistent_step.
Qed.

Lemma reachable_by_reachable `{Intl} t db : reachable_by t db → reachable db.
Proof.
  induction 1 as [| t now db db' _ IH _ Hs]; [constructor |].
  by eapply reachable_step.
Qed.

(** With a clock that never runs backwards, every entry starts in the
    past and every closed entry is between 0 and 15 hours long. *)
Lemma monotone_clock_durations `{Intl} t db : reachable_by t db → durations_sound t db.
Proof.
  induction 1 as [| t now db db' Hr IH Ht Hs].
  { intros r Hr. by apply elem_of_nil in Hr. }
  apply reachable_by_reachable, reachable_consistent in Hr as [[Hnd _] _ _ _].
  destruct (step_cases now db db' Hs)
    as [[Ee Es] | [(uid & tz & Htz & Ho & ->) | [(entry & e & Hin & Hnone & He & Hpos & ->)
       | (uid & ->)]]];
    intros r Hin'.
  - rewrite Ee in Hin'. destruct (IH r Hin') as [Hstart Hend]. split; [lia | done].
  - simpl in Hin'. apply elem_of_app in Hin' as [Hold | ->%list_elem_of_singleton].
    + destruct (IH r Hold) as [Hstart Hend]. split; [lia | done].
    + simpl. split; [lia | done].
  - apply elem_of_update in Hin' as (r0 & Hr0 & ->).
    destruct (IH r0 Hr0) as [Hstart Hend].
    destruct (decide (id r0 = id entry)) as [Hid | _]; [| split; [lia | done]].
    rewrite (same_id _ _ _ Hnd Hr0 Hin Hid). simpl.
    destruct (IH entry Hin) as [Hstart' _].
    split; [lia |]. intros e' [= <-]. split; [apply Hpos; lia | done].
  - simpl in Hin'. apply list_elem_of_filter in Hin' as [_ Hold].
    destruct (IH r Hold) as [Hstart Hend]. split; [lia | done].
Qed.

(** ** The weekend rule *)

Lemma restriction_message `{Intl} tz now msg :
  checkWeekendRestriction tz now = Some msg → Blocked (sendError 400 msg).
Proof.
  unfold checkWeekendRestriction, Blocked.
  destruct (formatToParts tz now) as [parts |]; [| done].
  destruct (find_part "weekday" parts) as [w |]; [| done].
  destruct (find_part "hour" parts) as [h |]; [| done].
  destruct (String.eqb (value w) "Sun"); [intros [= <-]; by left |].
  destruct (String.eqb (value w) "Sat" && nan_ge (parseInt (value h)) 18);
    [intros [= <-]; by right | done].
Qed.

(** C3.  For every instant and every zone name the formatter recognises,
    the weekend rule restricts exactly when the local weekday is Sunday, or
    is Saturday with a local hour of 18 or more; for a name it does not
    recognise the rule does not restrict. *)
Theorem C3_weekend_blackout `{Intl} (tz : string) (now : Z) :
  (∀ weekday hour, local_time tz now weekday hour →
     (restricted tz now ↔
      weekday = "Sun"%string ∨ (weekday = "Sat"%string ∧ 18 ≤ hour)))
  ∧ (formatToParts tz now = None → ¬ restricted tz now).
Proof.
  unfold restricted, checkWeekendRestriction. split.
  - intros weekday hour (parts & w & h & -> & -> & Hw & -> & Hh).
    rewrite Hw, Hh. simpl.
    destruct (String.eqb_spec weekday "Sun") as [-> | HSun].
    { split; [by left | by eexists]. }
    destruct (String.eqb_spec weekday "Sat") as [-> | HSat]; simpl.
    + destruct (Z.leb_spec 18 hour).
      * split; [by right | by eexists].
      * split; [by intros [? [=]] | intros [[=] | [_ ?]]; lia].
    + split; [by intros [? [=]] | intros [? | [? _]]; done].
  - intros ->. by intros [? [=]].
Qed.

Lemma C3_weekend_blackout_witness :
  @restricted fixed_zones "UTC" Sample.sun_1000 ∧
  @restricted fixed_zones "UTC" Sample.sat_2359 ∧
  ¬ @restricted fixed_zones "Etc/GMT+7" Sample.sat_2359 ∧
  ¬ @restricted fixed_zones "Europe/Atlantis" Sample.sun_1000.
Proof.
  destruct (@C3_weekend_blackout fixed_zones "UTC" Sample.sun_1000) as [Hsunday _].
  destruct (@C3_weekend_blackout fixed_zones "UTC" Sample.sat_2359) as [Hevening _].
  destruct (@C3_weekend_blackout fixed_zones "Etc/GMT+7" Sample.sat_2359) as [Hafternoon _].
  destruct (@C3_weekend_blackout fixed_zones "Europe/Atlantis" Sample.sun_1000)
    as [_ Hopen].
  split_and!.
  - apply (Hsunday "Sun"%string 10); [| by left].
    eexists _, _, _. repeat split; reflexivity.
  - apply (Hevening "Sat"%string 23); [| right; split; [done | lia]].
    eexists _, _, _. repeat split; reflexivity.
  - intros Hr. apply (Hafternoon "Sat"%string 16) in Hr as [[=] | [_ Hlate]]; [lia |].
    eexists _, _, _. repeat split; reflexivity.
  - apply Hopen. reflexivity.
Defined.

Lemma parseInt_pad_2 h : 0 ≤ h < 24 → parseInt (pad 2 h) = Some h.
Proof.
  intros Hh.
  assert (h = 0 ∨ h = 1 ∨ h = 2 ∨ h = 3 ∨ h = 4 ∨ h = 5 ∨ h = 6 ∨ h = 7 ∨ h = 8 ∨ h = 9
          ∨ h = 10 ∨ h = 11 ∨ h = 12 ∨ h = 13 ∨ h = 14 ∨ h = 15 ∨ h = 16 ∨ h = 17
          ∨ h = 18 ∨ h = 19 ∨ h = 20 ∨ h = 21 ∨ h = 22 ∨ h = 23) as Hcases by lia.
  repeat (destruct Hcases as [-> | Hcases]; [reflexivity |]). by subst h.
Qed.

(** The formatter for fixed offsets reports the weekday and the hour of the
    shifted instant, so that for its zones the rule reads on time values. *)
Lemma fixed_zones_local_time tz off now :
  fixed_offset tz = Some off →
  @local_time fixed_zones tz now
    (short_weekday (WeekDay (now + off * msPerHour)))
    (HourFromTime (now + off * msPerHour)).
Proof.
  intros Hoff. unfold local_time, formatToParts, fixed_zones. rewrite Hoff.
  eexists _, _, _. split_and!; try reflexivity.
  simpl. apply parseInt_pad_2. unfold HourFromTime. apply Z.mod_pos_bound. lia.
Qed.

Lemma fixed_zones_rule tz off now :
  fixed_offset tz = Some off →
  @restricted fixed_zones tz now ↔
  WeekDay (now + off * msPerHour) = 0 ∨
  (WeekDay (now + off * msPerHour) = 6 ∧ 18 ≤ HourFromTime (now + off * msPerHour)).
Proof.
  intros Hoff. unfold restricted, checkWeekendRestriction, formatToParts, fixed_zones.
  rewrite Hoff. cbn [find_part List.find type value String.eqb Ascii.eqb Bool.eqb].
  set (local := now + off * msPerHour).
  rewrite parseInt_pad_2 by (unfold HourFromTime; apply Z.mod_pos_bound; lia).
  assert (0 ≤ WeekDay local < 7) as Hw by (unfold WeekDay; apply Z.mod_pos_bound; lia).
  assert (WeekDay local = 0 ∨ WeekDay local = 1 ∨ WeekDay local = 2 ∨ WeekDay local = 3
          ∨ WeekDay local = 4 ∨ WeekDay local = 5 ∨ WeekDay local = 6) as Hc by lia.
  simpl nan_ge.
  destruct Hc as [-> | [-> | [-> | [-> | [-> | [-> | ->]]]]]]; simpl;
    try (split; [by intros [? [=]] | intros [[=] | [[=] _]]]).
  - split; [by left | by eexists].
  - destruct (Z.leb_spec 18 (HourFromTime local)).
    + split; [by right | by eexists].
    + split; [by intros [? [=]] | intros [[=] | [_ ?]]; lia].
Qed.

(** ** Clock-in *)



(** ** Clock-out *)

Lemma update_returning_head db e entry :
  entry ∈ time_entries db →
  ∃ r rows, (update_end_time db (id entry) e).2 = r :: rows ∧ end_time r = Some e.
Proof.
  intros Hin.
  assert (set_end_time e entry ∈ (update_end_time db (id entry) e).2) as Hel.
  { simpl. apply list_elem_of_filter. split; [done |].
    apply list_elem_of_fmap. exists entry. split; [| done].
    by destruct (decide (id entry = id entry)). }
  destruct ((update_end_time db (id entry) e).2) as [| r rows] eqn:E.
  { by apply elem_of_nil in Hel. }
  exists r, rows. split; [done |].
  assert (r ∈ (update_end_time db (id entry) e).2) as Hr by (rewrite E; left).
  simpl in Hr. apply list_elem_of_filter in Hr as [Hid Hr].
  apply list_elem_of_fmap in Hr as (r0 & -> & _).
  destruct (decide (id r0 = id entry)); [done |]. simpl in Hid.
  by destruct (decide (id r0 = id entry)).
Qed.

Lemma close_eq db entry now :
  NoDup (id <$> time_entries db) → entry ∈ time_entries db →
  ClockOut.close db entry now
  = ((update_end_time db (id entry) (ClockOut.endTime (start_time entry) now)).1,
     sendJson 200
       (ClockOutEntry (id entry) (start_time entry)
          (ClockOut.endTime (start_time entry) now)
          (round2 (inject_Z (ClockOut.endTime (start_time entry) now - start_time entry)
                   / inject_Z (1000 * 60 * 60))))).
Proof.
  intros Hnd Hin. unfold ClockOut.close.
  pose proof (update_returning db (ClockOut.endTime (start_time entry) now) entry Hnd Hin) as E.
  destruct (update_end_time db (id entry) (ClockOut.endTime (start_time entry) now))
    as [db' rows].
  simpl in E. subst rows. reflexivity.
Qed.

Lemma rounded_to_2_decimals_comp (x x' y : Q) :
  (x == x')%Q → rounded_to_2_decimals x y → rounded_to_2_decimals x' y.
Proof.
  intros E (k & Hk & Hd). exists k. split; [done |].
  apply Qabs_Qle_condition in Hd. apply Qabs_Qle_condition. split; lra.
Qed.

(** A number with two decimals is its own rounding. *)
Lemma rounded_exact (n : Z) (v : Q) :
  rounded_to_2_decimals (n # 100) v → (v == n # 100)%Q.
Proof.
  intros (k & Hk & Hd). rewrite Hk in Hd |- *.
  apply Qabs_Qle_condition in Hd as [Hlo Hhi].
  unfold Qle, Qeq, Qdiv, Qmult, Qinv, Qminus, Qplus, Qopp, inject_Z in *.
  simpl in *. lia.
Qed.

Lemma gate_passes `{Intl} (request : request) (entry : time_entry) now :
  isAuto request = true ∨ ¬ restricted (start_timezone entry) now →
  (if negb (isAuto request) && negb (String.eqb (start_timezone entry) "")
   then checkWeekendRestriction (start_timezone entry) now
   else None) = None.
Proof.
  unfold restricted. intros [-> | Hr]; [done |].
  destruct (negb (isAuto request) && negb (String.eqb (start_timezone entry) "")); [| done].
  destruct (checkWeekendRestriction (start_timezone entry) now); [| done].
  destruct Hr. by eexists.
Qed.

(** C9.  A manual clock-out of an open entry whose stored time zone is the
    empty string never consults the weekend rule: the handler goes straight
    to closing the entry, answers 200 and stores the end time, whatever the
    rule would say at that instant. *)
Theorem C9_empty_timezone_skips_gate `{Intl} (now : Z) (db : DB) (request : request)
    (user : U.user) (entry : time_entry) (rest : list time_entry) :
  method request = "POST"%string →
  getCurrentUser db request = Some user →
  select_open db (U.id user) = entry :: rest →
  start_timezone entry = ""%string →
  ClockOut.handler now db request = ClockOut.close db entry now ∧
  (∃ i s e d, (ClockOut.handler now db request).2 = sendJson 200 (ClockOutEntry i s e d)) ∧
  set_end_time (ClockOut.endTime (start_time entry) now) entry
    ∈ time_entries (ClockOut.handler now db request).1.
Proof.
  intros Hm Hu Ho Htz.
  assert (ClockOut.handler now db request = ClockOut.close db entry now) as ->.
  { unfold ClockOut.handler. rewrite Hm, Hu, Ho, Htz. simpl.
    by rewrite andb_false_r. }
  split; [done |].
  apply select_open_head in Ho as (Hin & _ & _).
  split.
  - unfold ClockOut.close.
    destruct (update_returning_head db (ClockOut.endTime (start_time entry) now) entry Hin)
      as (r & rows & E & _).
    destruct (update_end_time db (id entry) (ClockOut.endTime (start_time entry) now))
      as [db' rows'].
    simpl in E. subst rows'. by eexists _, _, _, _.
  - rewrite close_fst. apply elem_of_update. exists entry. split; [done |].
    by destruct (decide (id entry = id entry)).
Qed.

Lemma C9_empty_timezone_skips_gate_witness :
  @restricted always_sunday "" Sample.sun_1000 ∧
  (@ClockOut.handler always_sunday Sample.sun_1000 (Sample.working Sample.sat_0800 "")
     (Sample.post JUndefined)).2
  = sendJson 200 (ClockOutEntry 1 Sample.sat_0800 Sample.sat_2300 (1500 # 100)).
Proof.
  split; [by eexists |].
  destruct (@C9_empty_timezone_skips_gate always_sunday Sample.sun_1000
              (Sample.working Sample.sat_0800 "") (Sample.post JUndefined)
              Sample.alice
              {| id := 1; user_id := 1; start_time := Sample.sat_0800;
                 end_time := None; start_timezone := "" |} [])
    as (-> & _ & _); reflexivity.
Defined.

(** Alice registers and clocks in on Saturday morning, Pacific time. *)
Lemma sample_working_reachable tz :
  fixed_offset tz = Some (-7) →
  @reachable fixed_zones (Sample.working Sample.sat_0800 tz).
Proof.
  intros Htz.
  apply (@reachable_step fixed_zones Sample.sat_0800 Sample.registered).
  - apply (@reachable_step fixed_zones 0 empty_db); [constructor |].
    exact (@step_auth fixed_zones 0 empty_db [Sample.alice]).
  - pose proof (@step_clock_in fixed_zones Sample.sat_0800 Sample.registered
                  (Sample.post (Sample.with_timezone tz))) as Hs.
    assert ((@ClockIn.handler fixed_zones Sample.sat_0800 Sample.registered
               (Sample.post (Sample.with_timezone tz))).1
            = Sample.working Sample.sat_0800 tz) as <-; [| exact Hs].
    assert (tz = "Etc/GMT+7"%string) as ->; [| reflexivity].
    unfold fixed_offset in Htz.
    destruct (String.eqb_spec tz "UTC"); [done |].
    destruct (String.eqb_spec tz "Etc/GMT+7"); [done |].
    by destruct (String.eqb_spec tz "Etc/GMT-9").
Qed.

(** C2.  A clock-out of an open entry that passes the weekend gate (and any
    clock-out through the handler without the gate) records
    [start_time + 15 h] when [now - start_time] exceeds 15 hours and [now]
    otherwise, answers with that end time, and reports as [duration_hours]
    the length of the entry in hours rounded to two decimals.  An entry begun
    at 2024-06-01T08:00:00Z and clocked out at 2024-06-01T23:59:00Z ends at
    2024-06-01T23:00:00Z with [duration_hours] 15. *)
Theorem C2_clock_out_end_time `{Intl} (now : Z) (db : DB) (request : request)
    (user : U.user) (entry : time_entry) (rest : list time_entry) :
  reachable db →
  method request = "POST"%string →
  getCurrentUser db request = Some user →
  select_open db (U.id user) = entry :: rest →
  let end_ := if max_shift_ms <? now - start_time entry
              then start_time entry + max_shift_ms else now in
  ∃ d,
    rounded_to_2_decimals (duration_in_hours (start_time entry) end_) d ∧
    set_end_time end_ entry ∈ time_entries (update_end_time db (id entry) end_).1 ∧
    (isAuto request = true ∨ ¬ restricted (start_timezone entry) now →
     ClockOut.handler now db request
     = ((update_end_time db (id entry) end_).1,
        sendJson 200 (ClockOutEntry (id entry) (start_time entry) end_ d))) ∧
    ClockOut.handler_ungated now db request
    = ((update_end_time db (id entry) end_).1,
       sendJson 200 (ClockOutEntry (id entry) (start_time entry) end_ d)) ∧
    (start_time entry = UTC 2024 5 1 8 0 0 → now = UTC 2024 5 1 23 59 0 →
     end_ = UTC 2024 5 1 23 0 0 ∧
     toISOString end_ = "2024-06-01T23:00:00.000Z"%string ∧ (d == 15)%Q).
Proof.
  intros Hr Hm Hu Ho end_.
  apply reachable_consistent in Hr as [[Hnd _] _ _ _].
  pose proof (select_open_head _ _ _ _ Ho) as (Hin & _ & _).
  assert (ClockOut.endTime (start_time entry) now = end_) as He by apply endTime_eq.
  pose proof (close_eq db entry now Hnd Hin) as Hclose. rewrite He in Hclose.
  eexists. split_and!.
  - eapply rounded_to_2_decimals_comp; [apply duration_hours_eq | apply round2_rounds].
  - apply elem_of_update. exists entry. split; [done |].
    by destruct (decide (id entry = id entry)).
  - intros Hgate. unfold ClockOut.handler. rewrite Hm, Hu, Ho. simpl.
    by rewrite (gate_passes _ _ _ Hgate).
  - unfold ClockOut.handler_ungated. rewrite Hm, Hu, Ho. simpl. exact Hclose.
  - intros Hs Hn. subst end_. rewrite Hs, Hn. split_and!; reflexivity.
Qed.

Lemma C2_clock_out_end_time_witness :
  ∃ d,
    (@ClockOut.handler fixed_zones Sample.sat_2359
       (Sample.working Sample.sat_0800 "Etc/GMT+7") (Sample.post JUndefined)).2
    = sendJson 200 (ClockOutEntry 1 Sample.sat_0800 Sample.sat_2300 d)
    ∧ (d == 15)%Q.
Proof.
  destruct (@C2_clock_out_end_time fixed_zones Sample.sat_2359
              (Sample.working Sample.sat_0800 "Etc/GMT+7") (Sample.post JUndefined)
              Sample.alice
              {| id := 1; user_id := 1; start_time := Sample.sat_0800;
                 end_time := None; start_timezone := "Etc/GMT+7" |} [])
    as (d & _ & _ & Hgate & _ & Hscenario).
  - apply sample_working_reachable. reflexivity.
  - reflexivity.
  - reflexivity.
  - reflexivity.
  - exists d. split.
    + rewrite Hgate; [reflexivity |]. right. intros [msg Hmsg]. discriminate Hmsg.
    + apply Hscenario; reflexivity.
Defined.

(** A day's work: in at 2024-06-03T09:00:00Z, out at 17:30:00Z, eight and a
    half hours. *)
Example clock_out_normal :
  ∃ d,
    @ClockOut.handler fixed_zones Sample.mon_1730
      (Sample.working Sample.mon_0900 "UTC") (Sample.post JUndefined)
    = ({| users := [Sample.alice];
          time_entries := [ {| id := 1; user_id := 1; start_time := Sample.mon_0900;
                               end_time := Some Sample.mon_1730;
                               start_timezone := "UTC" |} ];
          time_entries_id_seq := 2 |},
       sendJson 200 (ClockOutEntry 1 Sample.mon_0900 Sample.mon_1730 d))
    ∧ (d == 85 # 10)%Q.
Proof. eexists. split; reflexivity. Qed.

(** C6.  In a clock-out of an open entry the weekend rule is evaluated on
    the time zone stored in the entry: a manual request is refused as
    ClockOutBlocked, with the tables unchanged, exactly when the rule
    restricts that zone at [now]; a request with [auto: true] skips the rule;
    and nothing of the request but its method, its session cookie and
    whether [auto] is [true] is read, so a time zone sent in the body changes
    nothing. *)
Theorem C6_clock_out_gate `{Intl} (now : Z) (db : DB) (request : request)
    (user : U.user) (entry : time_entry) (rest : list time_entry) :
  reachable db →
  method request = "POST"%string →
  getCurrentUser db request = Some user →
  select_open db (U.id user) = entry :: rest →
  (isAuto request = false → restricted (start_timezone entry) now →
   ∃ reply, ClockOut.handler now db request = (db, reply) ∧ Blocked reply) ∧
  (isAuto request = false → ¬ restricted (start_timezone entry) now →
   ClockOut.handler now db request = ClockOut.close db entry now) ∧
  (isAuto request = true →
   ClockOut.handler now db request = ClockOut.close db entry now) ∧
  (∀ request',
     method request' = method request →
     cookie_session request' = cookie_session request →
     isAuto request' = isAuto request →
     ClockOut.handler now db request' = ClockOut.handler now db request) ∧
  (∀ fields v,
     body request = JObject fields →
     ClockOut.handler now db
       {| method := method request; cookie_session := cookie_session request;
          body := JObject (("timezone"%string, v) :: fields) |}
     = ClockOut.handler now db request).
Proof.
  intros Hr Hm Hu Ho.
  apply reachable_consistent in Hr as [_ _ Htz _].
  pose proof (select_open_head _ _ _ _ Ho) as (Hin & _ & _).
  apply Htz in Hin.
  assert (∀ request',
            method request' = method request →
            cookie_session request' = cookie_session request →
            isAuto request' = isAuto request →
            ClockOut.handler now db request' = ClockOut.handler now db request) as Hsame.
  { intros request' Em Ec Ea. unfold ClockOut.handler, getCurrentUser.
    by rewrite Em, Ec, Ea. }
  split_and!.
  - intros Ha [msg Hmsg]. unfold ClockOut.handler. rewrite Hm, Hu, Ho, Ha. simpl.
    destruct (String.eqb_spec (start_timezone entry) "") as [? | _]; [done |]. simpl.
    rewrite Hmsg. eexists. split; [done |]. by eapply restriction_message.
  - intros Ha Hn. unfold ClockOut.handler. rewrite Hm, Hu, Ho. simpl.
    rewrite gate_passes; [done | by right].
  - intros Ha. unfold ClockOut.handler. rewrite Hm, Hu, Ho. simpl.
    rewrite gate_passes; [done | by left].
  - exact Hsame.
  - intros fields v Hb. apply Hsame; [done.. |].
    unfold isAuto. rewrite Hb. reflexivity.
Qed.

Lemma C6_clock_out_gate_witness :
  (∃ reply,
     @ClockOut.handler fixed_zones Sample.sun_1000
       (Sample.working Sample.sat_0800 "Etc/GMT+7") (Sample.post JUndefined)
     = (Sample.working Sample.sat_0800 "Etc/GMT+7", reply) ∧ Blocked reply)
  ∧ (@ClockOut.handler fixed_zones Sample.sun_1000
       (Sample.working Sample.sat_0800 "Etc/GMT+7")
       (Sample.post (JObject [("auto"%string, JBool true)]))).2
    = sendJson 200 (ClockOutEntry 1 Sample.sat_0800 Sample.sat_2300 (1500 # 100)).
Proof.
  split.
  - destruct (@C6_clock_out_gate fixed_zones Sample.sun_1000
                (Sample.working Sample.sat_0800 "Etc/GMT+7") (Sample.post JUndefined)
                Sample.alice
                {| id := 1; user_id := 1; start_time := Sample.sat_0800;
                   end_time := None; start_timezone := "Etc/GMT+7" |} [])
      as (Hblocked & _).
    + apply sample_working_reachable. reflexivity.
    + reflexivity.
    + reflexivity.
    + reflexivity.
    + apply Hblocked; [reflexivity |]. eexists. reflexivity.
  - destruct (@C6_clock_out_gate fixed_zones Sample.sun_1000
                (Sample.working Sample.sat_0800 "Etc/GMT+7")
                (Sample.post (JObject [("auto"%string, JBool true)]))
                Sample.alice
                {| id := 1; user_id := 1; start_time := Sample.sat_0800;
                   end_time := None; start_timezone := "Etc/GMT+7" |} [])
      as (_ & _ & Hauto & _).
    + apply sample_working_reachable. reflexivity.
    + reflexivity.
    + reflexivity.
    + reflexivity.
    + rewrite Hauto; reflexivity.
Defined.

(** ** Status reads *)

Lemma status_eq now db request user :
  method request = "GET"%string → getCurrentUser db request = Some user →
  Status.handler now db request
  = let '(db', isWorking, currentSession) := Status.check_open db (U.id user) now in
    (db', sendJson 200
            (StatusData isWorking currentSession
               (round2 <$> total_hours db' (U.id user)
                             (TimeFromYear (YearFromTime now))
                             (TimeFromYear (YearFromTime now + 1))))).
Proof.
  intros Hm Hu. unfold Status.handler. rewrite Hm, Hu. simpl.
  by destruct (Status.check_open db (U.id user) now) as [[db' w] s].
Qed.

(** C4.  When a status read finds the user's open entry at 15 hours or
    more, it stores [start_time + 15 h] as the end time of that entry and
    reports the user as not working; the user then has no open entry, and
    a second status read, at whatever instant, writes nothing and again
    reports the user as not working. *)
Theorem C4_auto_timeout_idempotent `{Intl} (now now' : Z) (db : DB) (request : request)
    (user : U.user) (entry : time_entry) (rest : list time_entry) :
  reachable db →
  method request = "GET"%string →
  getCurrentUser db request = Some user →
  select_open db (U.id user) = entry :: rest →
  max_shift_ms ≤ now - start_time entry →
  let db' := (Status.handler now db request).1 in
  db' = (update_end_time db (id entry) (start_time entry + max_shift_ms)).1 ∧
  set_end_time (start_time entry + max_shift_ms) entry ∈ time_entries db' ∧
  (∀ r, r ∈ time_entries db → r ≠ entry → r ∈ time_entries db') ∧
  (∃ y, (Status.handler now db request).2 = sendJson 200 (StatusData false None y)) ∧
  select_open db' (U.id user) = [] ∧
  (Status.handler now' db' request).1 = db' ∧
  (∃ y, (Status.handler now' db' request).2 = sendJson 200 (StatusData false None y)).
Proof.
  intros Hr Hm Hu Ho Hlate db'.
  apply reachable_consistent in Hr as [[Hnd _] Hopen _ _].
  pose proof (select_open_head _ _ _ _ Ho) as (Hin & _ & _).
  pose proof (check_open_cases db (U.id user) now) as Hc. rewrite Ho in Hc.
  destruct (Z.leb_spec max_shift_ms (now - start_time entry)) as [_ | ?]; [| lia].
  assert (db' = (update_end_time db (id entry) (start_time entry + max_shift_ms)).1) as Hdb'.
  { subst db'. rewrite (status_eq now db request user Hm Hu), Hc. reflexivity. }
  assert (select_open db' (U.id user) = []) as Hnone.
  { rewrite Hdb', select_open_update, Ho.
    specialize (Hopen (U.id user)). rewrite Ho in Hopen.
    destruct rest; [| simpl in Hopen; lia].
    rewrite filter_cons, filter_nil. by destruct (decide (id entry ≠ id entry)). }
  assert (getCurrentUser db' request = Some user) as Hu'.
  { rewrite Hdb'. exact Hu. }
  pose proof (check_open_cases db' (U.id user) now') as Hc'. rewrite Hnone in Hc'.
  split_and!.
  - exact Hdb'.
  - rewrite Hdb'. apply elem_of_update. exists entry. split; [done |].
    by destruct (decide (id entry = id entry)).
  - intros r Hrin Hne. rewrite Hdb'. apply elem_of_update. exists r. split; [done |].
    destruct (decide (id r = id entry)) as [Hid | _]; [| done].
    destruct Hne. by apply (same_id _ _ _ Hnd Hrin Hin Hid).
  - rewrite (status_eq now db request user Hm Hu), Hc. by eexists.
  - exact Hnone.
  - rewrite (status_eq now' db' request user Hm Hu'), Hc'. reflexivity.
  - rewrite (status_eq now' db' request user Hm Hu'), Hc'. by eexists.
Qed.

Lemma C4_auto_timeout_idempotent_witness :
  let db' := (Status.handler Sample.sat_2300 (Sample.working Sample.sat_0800 "Etc/GMT+7")
                Sample.get).1 in
  time_entries db'
  = [ {| id := 1; user_id := 1; start_time := Sample.sat_0800;
         end_time := Some Sample.sat_2300; start_timezone := "Etc/GMT+7" |} ]
  ∧ (Status.handler Sample.sat_2359 db' Sample.get).1 = db'.
Proof.
  intros db'.
  destruct (@C4_auto_timeout_idempotent fixed_zones Sample.sat_2300 Sample.sat_2359
              (Sample.working Sample.sat_0800 "Etc/GMT+7") Sample.get Sample.alice
              {| id := 1; user_id := 1; start_time := Sample.sat_0800;
                 end_time := None; start_timezone := "Etc/GMT+7" |} [])
    as (Hdb' & _ & _ & _ & _ & Hsecond & _).
  - apply sample_working_reachable. reflexivity.
  - reflexivity.
  - reflexivity.
  - reflexivity.
  - vm_compute. discriminate.
  - split; [subst db'; rewrite Hdb'; reflexivity | exact Hsecond].
Defined.

(** ** The length of closed entries *)

(** C1, as the code has it.  An entry closed by a clock-out (with or without
    the weekend gate) is at most 15 hours long, and is not of negative length
    when the instant of the clock-out is not before its start; an entry
    closed by a status read is exactly 15 hours long; and no state the
    handlers reach holds a closed entry longer than 15 hours. *)
Theorem C1_closed_duration_bounds `{Intl} (now : Z) (db : DB) (request : request)
    (r : time_entry) (e : Z) :
  reachable db →
  end_time r = Some e →
  r ∉ time_entries db →
  (r ∈ time_entries (ClockOut.handler now db request).1 ∨
   r ∈ time_entries (ClockOut.handler_ungated now db request).1 →
   e - start_time r ≤ max_shift_ms ∧ (start_time r ≤ now → 0 ≤ e - start_time r)) ∧
  (r ∈ time_entries (Status.handler now db request).1 →
   e - start_time r = max_shift_ms) ∧
  shifts_capped db.
Proof.
  intros Hr He Hnew.
  apply reachable_consistent in Hr as [[Hnd _] _ _ Hcap].
  assert (∀ entry rest uid,
            select_open db uid = entry :: rest →
            r ∈ time_entries
                  (update_end_time db (id entry) (ClockOut.endTime (start_time entry) now)).1 →
            e - start_time r ≤ max_shift_ms ∧ (start_time r ≤ now → 0 ≤ e - start_time r))
    as Hclose.
  { intros entry rest uid Ho Hin.
    apply select_open_head in Ho as (Hentry & _ & _).
    rewrite (newly_closed _ _ _ _ Hnd Hentry Hin Hnew) in He |- *.
    simpl in *. injection He as <-.
    split; [apply endTime_le | apply endTime_ge]. }
  split_and!.
  - intros [Hin | Hin].
    + destruct (clock_out_cases now db request)
        as [E | (user & entry & rest & Ho & E)]; rewrite E in Hin; [done |].
      by eapply Hclose.
    + destruct (clock_out_ungated_cases now db request)
        as [E | (user & entry & rest & Ho & E)]; rewrite E in Hin; [done |].
      by eapply Hclose.
  - intros Hin.
    destruct (status_fst now db request)
      as [E | (user & entry & rest & Ho & _ & E)]; rewrite E in Hin; [done |].
    apply select_open_head in Ho as (Hentry & _ & _).
    rewrite (newly_closed _ _ _ _ Hnd Hentry Hin Hnew) in He |- *.
    simpl in *. injection He as <-. lia.
  - exact Hcap.
Qed.

Lemma C1_closed_duration_bounds_witness :
  0 ≤ Sample.sat_2300 - Sample.sat_0800 ≤ max_shift_ms.
Proof.
  destruct (@C1_closed_duration_bounds fixed_zones Sample.sat_2359
              (Sample.working Sample.sat_0800 "Etc/GMT+7") (Sample.post JUndefined)
              {| id := 1; user_id := 1; start_time := Sample.sat_0800;
                 end_time := Some Sample.sat_2300; start_timezone := "Etc/GMT+7" |}
              Sample.sat_2300)
    as (Hout & _ & _).
  - apply sample_working_reachable. reflexivity.
  - reflexivity.
  - intros [[=] | []%elem_of_nil]%elem_of_cons.
  - destruct Hout as [Hle Hge].
    + left. vm_compute. left.
    + simpl in Hle, Hge. split; [apply Hge; vm_compute; discriminate | exact Hle].
Defined.

(** The claim C1 fails when the clock read at clock-out is behind the stored
    start: alice clocks in on Saturday at 08:00:00Z and her clock-out is
    served with a clock one second earlier; the entry is closed with an end
    one second before its start. *)
Lemma C1_negative_duration :
  @reachable fixed_zones (Sample.working Sample.sat_0800 "Etc/GMT+7") ∧
  time_entries
    (@ClockOut.handler fixed_zones (Sample.sat_0800 - 1000)
       (Sample.working Sample.sat_0800 "Etc/GMT+7") (Sample.post JUndefined)).1
  = [ {| id := 1; user_id := 1; start_time := Sample.sat_0800;
         end_time := Some (Sample.sat_0800 - 1000); start_timezone := "Etc/GMT+7" |} ] ∧
  ¬ (0 ≤ (Sample.sat_0800 - 1000) - Sample.sat_0800 ≤ max_shift_ms).
Proof.
  split_and!.
  - apply sample_working_reachable. reflexivity.
  - reflexivity.
  - lia.
Qed.

(** ** The year total *)

Lemma completed_in_update db entry e uid ys ye r :
  NoDup (id <$> time_entries db) → entry ∈ time_entries db →
  r ∈ completed_in (update_end_time db (id entry) e).1 uid ys ye →
  r ∈ completed_in db uid ys ye ∨ r = set_end_time e entry.
Proof.
  intros Hnd Hin. unfold completed_in. rewrite !list_elem_of_filter.
  intros [HP (r0 & Hr0 & ->)%elem_of_update].
  destruct (decide (id r0 = id entry)) as [Hid | _]; [right | by left].
  by rewrite (same_id _ _ _ Hnd Hr0 Hin Hid).
Qed.

(** C10.  A status read answers a user who has no closed entry starting in
    the current UTC year with [year_total_hours] a number equal to 0: the
    sum over no row is coalesced to zero.  The entries are those the
    year-total query finds, in the table as the read's own auto-timeout step
    leaves it. *)
Theorem C10_empty_year_total (now : Z) (db : DB) (request : request) (user : U.user) :
  method request = "GET"%string →
  getCurrentUser db request = Some user →
  let yearStart := TimeFromYear (YearFromTime now) in
  let yearEnd := TimeFromYear (YearFromTime now + 1) in
  (∀ r, r ∈ time_entries (Status.handler now db request).1 →
        user_id r = U.id user → yearStart ≤ start_time r < yearEnd →
        end_time r = None) →
  ∃ w s y,
    (Status.handler now db request).2 = sendJson 200 (StatusData w s (Some y)) ∧
    (y == 0)%Q.
Proof.
  intros Hm Hu yearStart yearEnd Hnone.
  rewrite (status_eq now db request user Hm Hu) in Hnone |- *.
  destruct (Status.check_open db (U.id user) now) as [[db' w] s]. simpl in Hnone |- *.
  assert (completed_in db' (U.id user) yearStart yearEnd = []) as E.
  { apply elem_of_nil_inv. intros r [(Hr & Hc & Hlo & Hhi) Hin]%list_elem_of_filter.
    destruct Hc. apply Hnone; [done | done | lia]. }
  fold yearStart yearEnd. unfold total_hours. rewrite E. simpl.
  by eexists _, _, _.
Qed.

(** An entry begun on 2023-12-31 at 20:00 UTC and closed by the status read
    of 2024-01-01 at 12:00 is no entry of 2024: that read reports a year
    total of 0. *)
Lemma C10_empty_year_total_witness :
  let db := Sample.working (UTC 2023 11 31 20 0 0) "Etc/GMT+7" in
  let now := UTC 2024 0 1 12 0 0 in
  time_entries (Status.handler now db Sample.get).1
  = [ {| id := 1; user_id := 1; start_time := UTC 2023 11 31 20 0 0;
         end_time := Some (UTC 2024 0 1 11 0 0); start_timezone := "Etc/GMT+7" |} ] ∧
  ∃ w s y,
    (Status.handler now db Sample.get).2 = sendJson 200 (StatusData w s (Some y)) ∧
    (y == 0)%Q.
Proof.
  intros db now. split; [reflexivity |].
  apply (C10_empty_year_total now db Sample.get Sample.alice); [reflexivity | reflexivity |].
  intros r Hr _ [Hyear _].
  assert (time_entries (Status.handler now db Sample.get).1
          = [ {| id := 1; user_id := 1; start_time := UTC 2023 11 31 20 0 0;
                 end_time := Some (UTC 2024 0 1 11 0 0);
                 start_timezone := "Etc/GMT+7" |} ]) as E by reflexivity.
  rewrite E in Hr. apply list_elem_of_singleton in Hr as ->.
  exfalso. revert Hyear. vm_compute. intros Hyear. by apply Hyear.
Defined.

(** The same on the table as the read finds it: the answer is 0 for a user
    with no closed entry starting in the current year, when the read does not
    itself close an entry that starts in it. *)
Lemma year_total_before_read `{Intl} (now : Z) (db : DB) (request : request)
    (user : U.user) :
  reachable db →
  method request = "GET"%string →
  getCurrentUser db request = Some user →
  let yearStart := TimeFromYear (YearFromTime now) in
  let yearEnd := TimeFromYear (YearFromTime now + 1) in
  completed_in db (U.id user) yearStart yearEnd = [] →
  (∀ entry rest,
     select_open db (U.id user) = entry :: rest →
     max_shift_ms ≤ now - start_time entry →
     ¬ (yearStart ≤ start_time entry ∧ start_time entry < yearEnd)) →
  ∃ w s y,
    (Status.handler now db request).2 = sendJson 200 (StatusData w s (Some y)) ∧
    (y == 0)%Q.
Proof.
  intros Hr Hm Hu yearStart yearEnd Hnone Hkeep.
  apply reachable_consistent in Hr as [[Hnd _] _ _ _].
  rewrite (status_eq now db request user Hm Hu).
  pose proof (check_open_cases db (U.id user) now) as Hc.
  assert (∀ db', completed_in db' (U.id user) yearStart yearEnd = [] →
                 ∃ y, round2 <$> total_hours db' (U.id user) yearStart yearEnd = Some y
                      ∧ (y == 0)%Q) as Hzero.
  { intros db' E. unfold total_hours. rewrite E. simpl. by eexists. }
  destruct (select_open db (U.id user)) as [| entry rest] eqn:Ho.
  - rewrite Hc. destruct (Hzero db Hnone) as (y & Ey & Hy).
    fold yearStart yearEnd. rewrite Ey. by eexists _, _, _.
  - destruct (Z.leb_spec max_shift_ms (now - start_time entry)) as [Hlate | Hearly].
    + rewrite Hc.
      destruct (Hzero (update_end_time db (id entry) (start_time entry + max_shift_ms)).1)
        as (y & Ey & Hy).
      { apply elem_of_nil_inv. intros r Hin.
        pose proof (select_open_head _ _ _ _ Ho) as (Hentry & _ & _).
        destruct (completed_in_update _ _ _ _ _ _ _ Hnd Hentry Hin) as [Hold | ->].
        - rewrite Hnone in Hold. by apply elem_of_nil in Hold.
        - apply list_elem_of_filter in Hin as [(_ & _ & H1 & H2) _].
          simpl in H1, H2. by apply (Hkeep entry rest). }
      fold yearStart yearEnd. rewrite Ey. by eexists _, _, _.
    + destruct Hc as [s ->]. destruct (Hzero db Hnone) as (y & Ey & Hy).
      fold yearStart yearEnd. rewrite Ey. by eexists _, _, _.
Qed.

(** A read that closes an entry of the current year counts it: alice has no
    closed entry, her open entry reaches 15 hours, and the status read that
    closes it answers with a year total of 15. *)
Example status_read_counts_the_entry_it_closes :
  @reachable fixed_zones (Sample.working Sample.sat_0800 "Etc/GMT+7") ∧
  getCurrentUser (Sample.working Sample.sat_0800 "Etc/GMT+7") Sample.get
  = Some Sample.alice ∧
  (∀ r, r ∈ time_entries (Sample.working Sample.sat_0800 "Etc/GMT+7") →
        end_time r = None) ∧
  ∃ w s y,
    (Status.handler Sample.sat_2300 (Sample.working Sample.sat_0800 "Etc/GMT+7")
       Sample.get).2
    = sendJson 200 (StatusData w s (Some y)) ∧ (y == 15)%Q.
Proof.
  split_and!.
  - apply sample_working_reachable. reflexivity.
  - reflexivity.
  - by intros r [-> | []%elem_of_nil]%elem_of_cons.
  - eexists _, _, _. split; reflexivity.
Qed.

(** ** Open entries and the aggregates *)

Lemma completed_in_drop_open db before after uid ys ye i u s tz :
  completed_in
    (with_entries db
       (before ++ {| id := i; user_id := u; start_time := s; end_time := None;
                     start_timezone := tz |} :: after)) uid ys ye
  = completed_in (with_entries db (before ++ after)) uid ys ye.
Proof.
  unfold completed_in. simpl. rewrite !filter_app, filter_cons. simpl.
  by destruct (decide (u = uid ∧ @None Z ≠ None ∧ ys ≤ s ∧ s < ye)) as [(_ & ? & _) | _].
Qed.

Lemma completed_in_closed_only db uid ys ye :
  completed_in (closed_only db) uid ys ye = completed_in db uid ys ye.
Proof.
  unfold completed_in, closed_only. simpl.
  induction (time_entries db) as [| x l IH]; [done |].
  rewrite !filter_cons.
  destruct (decide (end_time x ≠ None)) as [Hx | Hx].
  - rewrite filter_cons, IH. done.
  - rewrite IH.
    by destruct (decide (user_id x = uid ∧ end_time x ≠ None
                         ∧ ys ≤ start_time x ∧ start_time x < ye)) as [(_ & ? & _) | _].
Qed.

Lemma heatmap_eq now db request user :
  method request = "GET"%string → getCurrentUser db request = Some user →
  Heatmap.handler now db request
  = (db, sendJson 200
           (HeatmapData (YearFromTime now)
              (Heatmap.format_days
                 (daily_totals db (U.id user) (TimeFromYear (YearFromTime now))
                    (TimeFromYear (YearFromTime now + 1)))))).
Proof. intros Hm Hu. unfold Heatmap.handler. by rewrite Hm, Hu. Qed.

(** ** The daily totals *)

Lemma elem_of_insert_date x d l : x ∈ insert_date d l ↔ x = d ∨ x ∈ l.
Proof.
  induction l as [| y l IH]; simpl.
  - rewrite list_elem_of_singleton, elem_of_nil. tauto.
  - destruct (Z.ltb_spec d y).
    + by rewrite elem_of_cons.
    + destruct (Z.eqb_spec d y) as [-> | ?].
      * rewrite elem_of_cons. tauto.
      * rewrite !elem_of_cons, IH. tauto.
Qed.

Lemma insert_date_sorted d l :
  StronglySorted Z.lt l → StronglySorted Z.lt (insert_date d l).
Proof.
  induction 1 as [| y l Hl IH Hy]; simpl.
  - repeat constructor.
  - destruct (Z.ltb_spec d y).
    + constructor; [by constructor |].
      constructor; [done |]. eapply Forall_impl; [exact Hy |]. simpl. lia.
    + destruct (Z.eqb_spec d y) as [-> | ?]; [by constructor |].
      constructor; [done |].
      apply Forall_forall. intros x [-> | Hx]%elem_of_insert_date; [lia |].
      by eapply Forall_forall in Hy.
Qed.

Lemma work_dates_sorted rows : StronglySorted Z.lt (work_dates rows).
Proof.
  unfold work_dates. induction rows as [| r rows IH]; simpl; [constructor |].
  by apply insert_date_sorted.
Qed.

Lemma sorted_NoDup (l : list Z) : StronglySorted Z.lt l → NoDup l.
Proof.
  induction 1 as [| y l Hl IH Hy]; constructor; [| done].
  intros Hin. eapply Forall_forall in Hy; [| exact Hin]. lia.
Qed.

Lemma elem_of_work_dates d rows :
  d ∈ work_dates rows ↔ ∃ r, r ∈ rows ∧ DATE (start_time r) = d.
Proof.
  unfold work_dates. induction rows as [| r rows IH]; simpl.
  - rewrite elem_of_nil. split; [done | intros (? & []%elem_of_nil & _)].
  - rewrite elem_of_insert_date, IH. split.
    + intros [-> | (r' & Hr' & E)]; [exists r | exists r']; rewrite elem_of_cons; auto.
    + intros (r' & [-> | Hr']%elem_of_cons & E); [by left | right; by exists r'].
Qed.

Lemma hours_closed r e :
  end_time r = Some e →
  ∃ h, hours r = Some h ∧ (h == duration_in_hours (start_time r) e)%Q.
Proof.
  intros E. unfold hours. rewrite E. eexists. split; [done |].
  unfold duration_in_hours, Qeq, Qdiv, Qmult, Qinv; simpl. lia.
Qed.

Lemma SUM_closed (l : list time_entry) :
  (∀ r, r ∈ l → end_time r ≠ None) → l ≠ [] →
  ∃ s, SUM (hours <$> l) = Some s ∧ (s == sum_hours l)%Q.
Proof.
  induction l as [| r l IH]; [done |]. intros Hc _.
  destruct (end_time r) as [e |] eqn:Ee; [| by destruct (Hc r); [left |]].
  destruct (hours_closed r e Ee) as (h & Eh & Hh).
  rewrite fmap_cons. simpl. rewrite Eh, Ee.
  destruct l as [| r' l].
  - simpl. eexists. split; [done |]. rewrite Hh. ring.
  - destruct IH as (s & Es & Hs); [| done |].
    { intros x Hx. apply Hc. by right. }
    rewrite Es. eexists. split; [done |]. by rewrite Hh, Hs.
Qed.

Lemma format_days_foldl rows (m : gmap string (option Q)) k :
  (∀ row, row ∈ rows → Heatmap.dateString row.1 ≠ k) →
  foldl (λ days row, <[Heatmap.dateString row.1 := round2 <$> parseFloat row.2]> days) m rows !! k
  = m !! k.
Proof.
  revert m. induction rows as [| row rows IH]; intros m Hk; simpl; [done |].
  rewrite IH.
  - apply lookup_insert_ne. apply Hk. by left.
  - intros row' Hrow'. apply Hk. by right.
Qed.

Lemma format_days_absent rows k :
  (∀ row, row ∈ rows → Heatmap.dateString row.1 ≠ k) → Heatmap.format_days rows !! k = None.
Proof. intros Hk. unfold Heatmap.format_days. by rewrite (format_days_foldl rows ∅ k Hk). Qed.

Lemma format_days_present rows row :
  NoDup ((λ row, Heatmap.dateString row.1) <$> rows) → row ∈ rows →
  Heatmap.format_days rows !! Heatmap.dateString row.1 = Some (round2 <$> row.2).
Proof.
  unfold Heatmap.format_days. generalize (∅ : gmap string (option Q)).
  induction rows as [| row' rows IH]; intros m Hnd Hin; [by apply elem_of_nil in Hin |].
  rewrite fmap_cons in Hnd. apply NoDup_cons in Hnd as [Hfresh Hnd]. simpl.
  apply elem_of_cons in Hin as [-> | Hin].
  - rewrite (format_days_foldl rows _ (Heatmap.dateString row'.1)).
    + apply lookup_insert_eq.
    + intros r Hr E. apply Hfresh. rewrite <- E. apply list_elem_of_fmap. by exists r.
  - by apply IH.
Qed.

Lemma DayFromYear_mono y1 y2 : y1 ≤ y2 → DayFromYear y1 ≤ DayFromYear y2.
Proof. intros H. unfold DayFromYear. Z.to_euclidean_division_equations. lia. Qed.

Lemma YearFromDay_unique y d :
  DayFromYear y ≤ d < DayFromYear (y + 1) → YearFromDay d = y.
Proof.
  intros Hy. pose proof (YearFromDay_spec d) as Hs.
  destruct (Z.lt_trichotomy (YearFromDay d) y) as [Hlt | [-> | Hgt]]; [| done |].
  - pose proof (DayFromYear_mono (YearFromDay d + 1) y). lia.
  - pose proof (DayFromYear_mono (y + 1) (YearFromDay d)). lia.
Qed.

Lemma YearFromTime_in_year y t :
  TimeFromYear y ≤ t < TimeFromYear (y + 1) → YearFromTime t = y.
Proof.
  unfold TimeFromYear, YearFromTime, Day, msPerDay. intros H.
  apply YearFromDay_unique. Z.to_euclidean_division_equations. lia.
Qed.

Lemma valid_time_year t : valid_time t → -999999 ≤ YearFromTime t ≤ 999999.
Proof.
  unfold valid_time, YearFromTime. intros H. apply YearFromDay_bound.
  unfold Day, msPerDay. Z.to_euclidean_division_equations. lia.
Qed.

Lemma valid_day_year d : valid_day d → -999999 ≤ YearFromTime (d * msPerDay) ≤ 999999.
Proof.
  unfold valid_day, YearFromTime. intros H. rewrite Day_of_midnight.
  by apply YearFromDay_bound.
Qed.

Lemma dateString_inj d1 d2 :
  -999999 ≤ YearFromDay d1 ≤ 999999 → -999999 ≤ YearFromDay d2 ≤ 999999 →
  isoDate (d1 * msPerDay) = isoDate (d2 * msPerDay) → d1 = d2.
Proof.
  intros H1 H2 E. apply isoDate_inj in E.
  - by rewrite !Day_of_midnight in E.
  - unfold YearFromTime. by rewrite Day_of_midnight.
  - unfold YearFromTime. by rewrite Day_of_midnight.
Qed.

Lemma completed_in_closed db uid ys ye r :
  r ∈ completed_in db uid ys ye → end_time r ≠ None.
Proof. by intros [(_ & ? & _) _]%list_elem_of_filter. Qed.

Lemma daily_total_number db uid ys ye d :
  d ∈ work_dates (completed_in db uid ys ye) →
  ∃ s, SUM (hours <$> filter (λ r, DATE (start_time r) = d) (completed_in db uid ys ye))
       = Some s ∧
       (s == sum_hours (started_on d (completed_in db uid ys ye)))%Q.
Proof.
  intros (r & Hr & Hd)%elem_of_work_dates. apply SUM_closed.
  - intros r' [_ Hr']%list_elem_of_filter. by eapply completed_in_closed.
  - intros E. assert (r ∈ started_on d (completed_in db uid ys ye)) as Hin
      by by apply list_elem_of_filter.
    rewrite E in Hin. by apply elem_of_nil in Hin.
Qed.

(** What the heatmap holds for a day: nothing when no selected entry starts
    on it, and otherwise their summed length, rounded. *)
Lemma heatmap_days_by_start now db uid d :
  valid_time now → valid_day d →
  let completed :=
    completed_in db uid (TimeFromYear (YearFromTime now))
      (TimeFromYear (YearFromTime now + 1)) in
  let days :=
    Heatmap.format_days
      (daily_totals db uid (TimeFromYear (YearFromTime now))
         (TimeFromYear (YearFromTime now + 1))) in
  match started_on d completed with
  | [] => days !! isoDate (d * msPerDay) = None
  | _ :: _ =>
      ∃ v, days !! isoDate (d * msPerDay) = Some (Some v) ∧
           rounded_to_2_decimals (sum_hours (started_on d completed)) v
  end.
Proof.
  intros Hnow Hd completed days. subst days.
  unfold daily_totals. fold completed.
  set (rows := (λ d, (d, SUM (hours <$> filter (λ r, DATE (start_time r) = d) completed)))
                 <$> work_dates completed).
  assert (∀ r, r ∈ completed →
               end_time r ≠ None ∧ YearFromDay (Day (start_time r)) = YearFromTime now)
    as Hcompleted.
  { intros r (( _ & Hc & Hys & Hye) & _)%list_elem_of_filter. split; [done |].
    apply (YearFromTime_in_year _ (start_time r)). lia. }
  assert (∀ d, d ∈ work_dates completed → -999999 ≤ YearFromDay d ≤ 999999) as Hyears.
  { intros d' (r & Hr & <-)%elem_of_work_dates. unfold DATE.
    destruct (Hcompleted r Hr) as [_ ->]. by apply valid_time_year. }
  assert (-999999 ≤ YearFromDay d ≤ 999999) as Hyd.
  { apply valid_day_year in Hd. unfold YearFromTime in Hd. by rewrite Day_of_midnight in Hd. }
  destruct (started_on d completed) as [| r0 group] eqn:Eg.
  - apply format_days_absent.
    intros row (d' & -> & Hd')%list_elem_of_fmap. simpl.
    rewrite dateString_eq. intros E. apply dateString_inj in E; [| by apply Hyears | done].
    subst d'. apply elem_of_work_dates in Hd' as (r & Hr & Hrd).
    assert (r ∈ started_on d completed) as Hin by (by apply list_elem_of_filter).
    rewrite Eg in Hin. by apply elem_of_nil in Hin.
  - assert (d ∈ work_dates completed) as Hdw.
    { apply elem_of_work_dates. exists r0.
      assert (r0 ∈ started_on d completed) as Hin by (rewrite Eg; left).
      apply list_elem_of_filter in Hin as [? ?]. done. }
    destruct (SUM_closed (started_on d completed)) as (s & Es & Hs).
    { intros r (_ & Hr)%list_elem_of_filter. by apply Hcompleted. }
    { by rewrite Eg. }
    exists (round2 s). rewrite <- Eg. split.
    + rewrite <- dateString_eq.
      change (Heatmap.dateString d)
        with (Heatmap.dateString (d, SUM (hours <$> started_on d completed)).1).
      rewrite format_days_present.
      * simpl. by rewrite Es.
      * subst rows. rewrite <- list_fmap_compose.
        apply NoDup_fmap_2_strong; [| apply sorted_NoDup, work_dates_sorted].
        intros d1 d2 H1 H2 E. simpl in E.
        rewrite !dateString_eq in E. apply dateString_inj in E; auto.
      * apply list_elem_of_fmap. by exists d.
    + eapply rounded_to_2_decimals_comp; [exact Hs | apply round2_rounds].
Qed.

(** C8.  The heatmap maps the YYYY-MM-DD rendering of a UTC day to the
    summed length, in hours and rounded to two decimals, of the user's closed
    entries of the current year that start on that day, each entry counted
    whole whatever day it ends on; a day on which no such entry starts has
    no key in the mapping. *)
Theorem C8_heatmap_by_start_date (now : Z) (db : DB) (request : request) (user : U.user) :
  method request = "GET"%string →
  getCurrentUser db request = Some user →
  valid_time now →
  let completed :=
    completed_in db (U.id user) (TimeFromYear (YearFromTime now))
      (TimeFromYear (YearFromTime now + 1)) in
  ∃ days,
    Heatmap.handler now db request
    = (db, sendJson 200 (HeatmapData (YearFromTime now) days)) ∧
    ∀ d, valid_day d →
      match started_on d completed with
      | [] => days !! isoDate (d * msPerDay) = None
      | _ :: _ =>
          ∃ v, days !! isoDate (d * msPerDay) = Some (Some v) ∧
               rounded_to_2_decimals (sum_hours (started_on d completed)) v
      end.
Proof.
  intros Hm Hu Hnow completed.
  eexists. split; [by apply heatmap_eq |].
  intros d Hd. by apply heatmap_days_by_start.
Qed.

Lemma C8_heatmap_by_start_date_witness :
  ∃ days,
    (Heatmap.handler Sample.fri_1200 Sample.history Sample.get).2
    = sendJson 200 (HeatmapData 2024 days) ∧
    (∃ v, days !! "2024-06-03"%string = Some (Some v) ∧ (v == 425 # 100)%Q) ∧
    days !! "2024-06-04"%string = None.
Proof.
  destruct (C8_heatmap_by_start_date Sample.fri_1200 Sample.history Sample.get Sample.alice)
    as (days & Hh & Hdays).
  - reflexivity.
  - reflexivity.
  - split; vm_compute; discriminate.
  - exists days. split_and!.
    + rewrite Hh. reflexivity.
    + assert (valid_day 19877) as Hd by (split; vm_compute; discriminate).
      apply Hdays in Hd.
      assert (started_on 19877
                (completed_in Sample.history (U.id Sample.alice)
                   (TimeFromYear (YearFromTime Sample.fri_1200))
                   (TimeFromYear (YearFromTime Sample.fri_1200 + 1)))
              = [ {| id := 1; user_id := 1; start_time := UTC 2024 5 3 9 0 0;
                     end_time := Some (UTC 2024 5 3 12 0 0);
                     start_timezone := "Etc/GMT+7" |};
                  {| id := 3; user_id := 1; start_time := UTC 2024 5 3 23 0 0;
                     end_time := Some (UTC 2024 5 4 0 15 0);
                     start_timezone := "Etc/GMT+7" |} ]) as Eg
        by (vm_compute; reflexivity).
      rewrite Eg in Hd. destruct Hd as (v & Hv & Hr).
      exists v. split; [exact Hv |].
      apply (rounded_exact 425). eapply rounded_to_2_decimals_comp; [| exact Hr].
      reflexivity.
    + assert (valid_day 19878) as Hd by (split; vm_compute; discriminate).
      apply Hdays in Hd. exact Hd.
Defined.

(** ** What the aggregates sum *)

Lemma elem_of_completed_in db uid ys ye r :
  r ∈ completed_in db uid ys ye ↔
  r ∈ time_entries db ∧ user_id r = uid ∧ is_Some (end_time r) ∧
  ys ≤ start_time r ∧ start_time r < ye.
Proof.
  unfold completed_in. rewrite list_elem_of_filter, not_eq_None_Some. tauto.
Qed.

(** The year-total query returns a number: the summed length of the rows it
    selects. *)
Lemma total_hours_sum db uid ys ye :
  ∃ total, total_hours db uid ys ye = Some total ∧
           (total == sum_hours (completed_in db uid ys ye))%Q.
Proof.
  unfold total_hours.
  destruct (completed_in db uid ys ye) as [| r l] eqn:E; [by exists 0%Q |]. rewrite <- E.
  destruct (SUM_closed (completed_in db uid ys ye)) as (s & -> & Hs).
  - intros r'. apply completed_in_closed.
  - by rewrite E.
  - by exists s.
Qed.

Lemma started_on_work_dates d rows : started_on d rows ≠ [] ↔ d ∈ work_dates rows.
Proof.
  rewrite elem_of_work_dates. split.
  - intros Hne. destruct (started_on d rows) as [| r l] eqn:E; [done |].
    assert (r ∈ started_on d rows) as Hr by (rewrite E; left).
    apply list_elem_of_filter in Hr as [Hd Hr]. by exists r.
  - intros (r & Hr & Hd) E.
    assert (r ∈ started_on d rows) as Hin by by apply list_elem_of_filter.
    rewrite E in Hin. by apply elem_of_nil in Hin.
Qed.

(** C5.  Both aggregates sum over closed entries only.  The rows the two
    queries select are the closed entries of the user that start in the
    range, and no open one.  The year-total query returns a number, the
    summed length in hours of those rows; the daily-totals query returns one
    row for each day on which one of them starts, with the summed length of
    the rows starting that day.  A status read reports, rounded to two
    decimals, the summed length of the user's closed entries of the current
    year in the table as the read leaves it, and the heatmap maps each day to
    the rounded summed length of the closed entries starting on it.  An open
    entry therefore counts for nothing, whatever its start: with the open row
    or without it both queries return the same, on any table they return what
    they return on its closed rows alone, and the heatmap handler gives the
    same reply. *)
Theorem C5_open_entries_excluded (db : DB) (before after : list time_entry)
    (i u s : Z) (tz : string) (uid yearStart yearEnd : Z) :
  let open_entry := {| id := i; user_id := u; start_time := s; end_time := None;
                       start_timezone := tz |} in
  let with_open := with_entries db (before ++ open_entry :: after) in
  let without := with_entries db (before ++ after) in
  let counted := completed_in db uid yearStart yearEnd in
  let year_of now := (TimeFromYear (YearFromTime now), TimeFromYear (YearFromTime now + 1)) in
  (∀ r, r ∈ counted ↔
        r ∈ time_entries db ∧ user_id r = uid ∧ is_Some (end_time r) ∧
        yearStart ≤ start_time r ∧ start_time r < yearEnd) ∧
  (∃ total, total_hours db uid yearStart yearEnd = Some total ∧
            (total == sum_hours counted)%Q) ∧
  (∀ d t, (d, t) ∈ daily_totals db uid yearStart yearEnd →
          started_on d counted ≠ [] ∧
          ∃ v, t = Some v ∧ (v == sum_hours (started_on d counted))%Q) ∧
  (∀ d, started_on d counted ≠ [] → ∃ t, (d, t) ∈ daily_totals db uid yearStart yearEnd) ∧
  (∀ now request w c y,
     (Status.handler now db request).2 = sendJson 200 (StatusData w c y) →
     ∃ user v,
       getCurrentUser db request = Some user ∧ y = Some v ∧
       rounded_to_2_decimals
         (sum_hours (completed_in (Status.handler now db request).1 (U.id user)
                       (year_of now).1 (year_of now).2)) v) ∧
  (∀ now request year days,
     valid_time now →
     (Heatmap.handler now db request).2 = sendJson 200 (HeatmapData year days) →
     ∃ user,
       getCurrentUser db request = Some user ∧
       ∀ d, valid_day d →
         let started :=
           started_on d (completed_in db (U.id user) (year_of now).1 (year_of now).2) in
         match started with
         | [] => days !! isoDate (d * msPerDay) = None
         | _ :: _ =>
             ∃ v, days !! isoDate (d * msPerDay) = Some (Some v) ∧
                  rounded_to_2_decimals (sum_hours started) v
         end) ∧
  total_hours with_open uid yearStart yearEnd = total_hours without uid yearStart yearEnd ∧
  daily_totals with_open uid yearStart yearEnd = daily_totals without uid yearStart yearEnd ∧
  (∀ now request,
     (Heatmap.handler now with_open request).2 = (Heatmap.handler now without request).2) ∧
  total_hours db uid yearStart yearEnd = total_hours (closed_only db) uid yearStart yearEnd ∧
  daily_totals db uid yearStart yearEnd = daily_totals (closed_only db) uid yearStart yearEnd ∧
  (∀ now request,
     (Heatmap.handler now db request).2 = (Heatmap.handler now (closed_only db) request).2).
Proof.
  intros open_entry with_open without counted year_of.
  assert (∀ now d1 d2 request,
            users d1 = users d2 →
            (∀ uid ys ye, daily_totals d1 uid ys ye = daily_totals d2 uid ys ye) →
            (Heatmap.handler now d1 request).2 = (Heatmap.handler now d2 request).2) as Hh.
  { intros now d1 d2 request Eu Ed. unfold Heatmap.handler, getCurrentUser.
    rewrite Eu. destruct (negb (String.eqb (method request) "GET")); [done |].
    destruct (cookie_session request) as [tok |]; [| done].
    destruct (String.eqb tok ""); [done |].
    destruct (head _); [| done]. simpl. by rewrite Ed. }
  refine (conj _ (conj _ (conj _ (conj _ (conj _ (conj _ (conj _ (conj _ (conj _
            (conj _ (conj _ _))))))))))).
  - intros r. apply elem_of_completed_in.
  - apply total_hours_sum.
  - intros d t (d' & [= -> ->] & Hd)%list_elem_of_fmap. fold counted in Hd |- *.
    split; [by apply started_on_work_dates |].
    destruct (daily_total_number db uid yearStart yearEnd d' Hd) as (v & Ev & Hv).
    fold counted in Ev, Hv. by exists v.
  - intros d Hd%started_on_work_dates. eexists.
    apply list_elem_of_fmap. exists d. split; [reflexivity | exact Hd].
  - intros now request w c y. unfold Status.handler.
    destruct (negb (String.eqb (method request) "GET")); [done |].
    destruct (getCurrentUser db request) as [user |]; [| done].
    destruct (Status.check_open db (U.id user) now) as [[db' w'] c']. simpl.
    intros [= <- <- <-].
    destruct (total_hours_sum db' (U.id user) (TimeFromYear (YearFromTime now))
                (TimeFromYear (YearFromTime now + 1))) as (total & Et & Ht).
    exists user, (round2 total). unfold parseFloat. rewrite Et.
    split_and!; [done | done |].
    eapply rounded_to_2_decimals_comp; [exact Ht | apply round2_rounds].
  - intros now request year days Hnow. unfold Heatmap.handler.
    destruct (negb (String.eqb (method request) "GET")); [done |].
    destruct (getCurrentUser db request) as [user |]; [| done]. simpl.
    intros [= <- <-]. exists user. split; [done |].
    intros d Hd. by apply heatmap_days_by_start.
  - unfold total_hours. subst with_open without open_entry.
    by rewrite completed_in_drop_open.
  - unfold daily_totals. subst with_open without open_entry.
    by rewrite completed_in_drop_open.
  - intros now request. apply Hh; [done |]. intros uid' ys ye.
    unfold daily_totals. subst with_open without open_entry.
    by rewrite completed_in_drop_open.
  - unfold total_hours. by rewrite completed_in_closed_only.
  - unfold daily_totals. by rewrite completed_in_closed_only.
  - intros now request. apply Hh; [done |]. intros uid' ys ye.
    unfold daily_totals. by rewrite completed_in_closed_only.
Qed.

(** Alice's week with alice at work since Friday 08:00: the status read of
    Friday noon reports her as working for four hours and a year total of
    4.25 hours, those of her two closed entries. *)
Lemma C5_open_entries_excluded_witness :
  (∃ y,
     (Status.handler Sample.fri_1200 Sample.history_at_work Sample.get).2
     = sendJson 200
         (StatusData true
            (Some {| session_id := 4; session_start_time := UTC 2024 5 7 8 0 0;
                     timezone := "Etc/GMT+7"; elapsed_seconds := 14400 |})
            (Some y))
     ∧ (y == 425 # 100)%Q)
  ∧ (∃ days,
       (Heatmap.handler Sample.fri_1200 Sample.history_at_work Sample.get).2
       = sendJson 200 (HeatmapData 2024 days) ∧
       (∃ v, days !! "2024-06-03"%string = Some (Some v) ∧ (v == 425 # 100)%Q) ∧
       days !! "2024-06-07"%string = None).
Proof.
  destruct (C5_open_entries_excluded Sample.history_at_work
              (time_entries Sample.history) [] 4 1 (UTC 2024 5 7 8 0 0) "Etc/GMT+7" 1
              (TimeFromYear 2024) (TimeFromYear 2025))
    as (_ & _ & _ & _ & Hstatus & Hheatmap & _).
  split.
  - destruct (Hstatus Sample.fri_1200 Sample.get _ _ _ eq_refl)
      as (user & v & Hu & Hy & Hr).
    injection Hu as <-. exists v. split; [by rewrite <- Hy |].
    apply (rounded_exact 425). eapply rounded_to_2_decimals_comp; [| exact Hr].
    reflexivity.
  - assert (valid_time Sample.fri_1200) as Hnow by (split; vm_compute; discriminate).
    destruct (Hheatmap Sample.fri_1200 Sample.get _ _ Hnow eq_refl) as (user & Hu & Hdays).
    injection Hu as <-. eexists. split; [reflexivity |]. split.
    + assert (valid_day 19877) as Hd by (split; vm_compute; discriminate).
      apply Hdays in Hd.
      assert (started_on 19877
                (completed_in Sample.history_at_work (U.id Sample.alice)
                   (TimeFromYear (YearFromTime Sample.fri_1200))
                   (TimeFromYear (YearFromTime Sample.fri_1200 + 1)))
              = [ {| id := 1; user_id := 1; start_time := UTC 2024 5 3 9 0 0;
                     end_time := Some (UTC 2024 5 3 12 0 0);
                     start_timezone := "Etc/GMT+7" |};
                  {| id := 3; user_id := 1; start_time := UTC 2024 5 3 23 0 0;
                     end_time := Some (UTC 2024 5 4 0 15 0);
                     start_timezone := "Etc/GMT+7" |} ]) as Eg
        by (vm_compute; reflexivity).
      cbv zeta in Hd. simpl fst in Hd. simpl snd in Hd.
      rewrite Eg in Hd. destruct Hd as (v & Hv & Hr).
      exists v. split; [exact Hv |].
      apply (rounded_exact 425). eapply rounded_to_2_decimals_comp; [| exact Hr].
      reflexivity.
    + assert (valid_day 19881) as Hd by (split; vm_compute; discriminate).
      apply Hdays in Hd. exact Hd.
Defined.

(** * Further properties of the handlers *)

(** ** The session state machine *)

(** X1.  In every state the handlers reach, a user has at most one open
    entry: clock-in refuses a user who has one, and nothing reopens a closed
    entry. *)
Theorem X1_one_open_entry `{Intl} (db : DB) (uid : Z) :
  reachable db → (length (select_open db uid) ≤ 1)%nat.
Proof.
  intros Hr. apply reachable_consistent in Hr as [_ Hopen _ _]. apply Hopen.
Qed.

Lemma X1_one_open_entry_witness :
  (length (select_open (Sample.working Sample.sat_0800 "Etc/GMT+7") 1) ≤ 1)%nat.
Proof.
  apply (@X1_one_open_entry fixed_zones). apply sample_working_reachable. reflexivity.
Defined.

(** A row that keeps its id keeps its owner, its start and its zone. *)
Lemma step_keeps_columns `{Intl} now db db' r r' :
  consistent db → step now db db' →
  r ∈ time_entries db → r' ∈ time_entries db' → id r' = id r →
  user_id r' = user_id r ∧ start_time r' = start_time r ∧
  start_timezone r' = start_timezone r ∧
  (∀ e, end_time r = Some e → end_time r' = Some e).
Proof.
  intros [[Hnd Hseq] _ _ _] Hs Hr Hr' Hid.
  destruct (step_cases now db db' Hs)
    as [[Ee Es] | [(uid & tz & Htz & Ho & ->) | [(entry & e & Hin & Hnone & He & _ & ->)
       | (uid & ->)]]].
  - rewrite Ee in Hr'. by rewrite (same_id _ _ _ Hnd Hr' Hr Hid).
  - simpl in Hr'. apply elem_of_app in Hr' as [Hold | ->%list_elem_of_singleton].
    + by rewrite (same_id _ _ _ Hnd Hold Hr Hid).
    + simpl in Hid. apply Hseq in Hr. lia.
  - apply elem_of_update in Hr' as (r0 & Hr0 & ->).
    destruct (decide (id r0 = id entry)) as [E | _].
    + simpl in Hid. rewrite (same_id _ _ _ Hnd Hr0 Hr Hid). simpl.
      split_and!; try done. intros e' He'.
      rewrite <- (same_id _ _ _ Hnd Hr0 Hr Hid), (same_id _ _ _ Hnd Hr0 Hin E) in He'.
      congruence.
    + by rewrite (same_id _ _ _ Hnd Hr0 Hr Hid).
  - simpl in Hr'. apply list_elem_of_filter in Hr' as [_ Hold].
    by rewrite (same_id _ _ _ Hnd Hold Hr Hid).
Qed.

(** X2.  No request rewrites history.  Whatever a request does, a row that
    is still in the table under the same id has the owner, the start and the
    time zone it had, and the end it had if it was closed; and a closed row is
    still in the table unless the account of its owner was deleted, in which
    case no row of that owner is left. *)
Theorem X2_entries_immutable `{Intl} (now : Z) (db db' : DB) (r : time_entry) :
  reachable db → step now db db' → r ∈ time_entries db →
  (∀ r', r' ∈ time_entries db' → id r' = id r →
     user_id r' = user_id r ∧ start_time r' = start_time r ∧
     start_timezone r' = start_timezone r ∧
     (∀ e, end_time r = Some e → r' = r)) ∧
  (∀ e, end_time r = Some e →
     r ∈ time_entries db' ∨ ∀ r', r' ∈ time_entries db' → user_id r' ≠ user_id r).
Proof.
  intros Hreach Hs Hr. apply reachable_consistent in Hreach as Hc.
  split.
  - intros r' Hr' Hid.
    destruct (step_keeps_columns now db db' r r' Hc Hs Hr Hr' Hid) as (Hu & Hst & Htz & He).
    split_and!; try done. intros e Hend. specialize (He e Hend).
    destruct r, r'. simpl in *. congruence.
  - intros e Hend. destruct Hc as [[Hnd Hseq] _ _ _].
    destruct (step_cases now db db' Hs)
      as [[Ee Es] | [(uid & tz & Htz & Ho & ->) | [(entry & e' & Hin & Hnone & He & _ & ->)
         | (uid & ->)]]].
    + left. by rewrite Ee.
    + left. simpl. apply elem_of_app. by left.
    + left. apply elem_of_update. exists r. split; [done |].
      destruct (decide (id r = id entry)) as [E | _]; [| done].
      rewrite (same_id _ _ _ Hnd Hr Hin E) in Hend. congruence.
    + destruct (decide (user_id r = uid)) as [E | E].
      * right. intros r' Hr'. simpl in Hr'.
        apply list_elem_of_filter in Hr' as [Hne _]. congruence.
      * left. simpl. by apply list_elem_of_filter.
Qed.

Lemma X2_entries_immutable_witness :
  let db := Sample.working Sample.sat_0800 "Etc/GMT+7" in
  let db' := (@ClockOut.handler fixed_zones Sample.sat_2359 db (Sample.post JUndefined)).1 in
  let r := {| id := 1; user_id := 1; start_time := Sample.sat_0800;
              end_time := None; start_timezone := "Etc/GMT+7" |} in
  r ∈ time_entries db ∧
  Forall (λ r', id r' = id r → start_time r' = Sample.sat_0800) (time_entries db').
Proof.
  intros db db' r. split; [left |].
  destruct (@X2_entries_immutable fixed_zones Sample.sat_2359 db db' r) as [Hsame _].
  - apply sample_working_reachable. reflexivity.
  - apply step_clock_out.
  - left.
  - apply Forall_forall. intros r' Hr' Hid.
    by destruct (Hsame r' Hr' Hid) as (_ & -> & _).
Defined.

(** What a request can do to the tables, with the user it does it for. *)
Lemma serves_cases `{Intl} now db request db' :
  serves now db request db' →
  db' = db ∨
  ∃ user,
    getCurrentUser db request = Some user ∧
    ((∃ tz, tz ≠ ""%string ∧ select_open db (U.id user) = [] ∧
            db' = (insert_row db (U.id user) now tz).1) ∨
     (∃ entry rest e,
        select_open db (U.id user) = entry :: rest ∧
        (e = ClockOut.endTime (start_time entry) now ∨
         (e = start_time entry + max_shift_ms ∧ max_shift_ms ≤ now - start_time entry)) ∧
        db' = (update_end_time db (id entry) e).1) ∨
     db' = Account.delete_user db (U.id user) ∨
     db' = Logout.clear_session_token db (U.id user)).
Proof.
  intros [db1 reply Ha |].
  - inversion Ha as [E | E | E | E | E | E | E]; clear Ha.
    + pose proof (clock_in_cases now db request) as Hc. rewrite E in Hc. simpl in Hc.
      destruct Hc as [-> | (user & tz & z & Hu & _ & _ & _ & Ho & _ & Hz & ->)]; [by left |].
      right. exists user. split; [done |]. left. by exists z.
    + pose proof (clock_in_ungated_cases now db request) as Hc. rewrite E in Hc. simpl in Hc.
      destruct Hc as [-> | (user & z & Hu & Hz & Ho & ->)]; [by left |].
      right. exists user. split; [done |]. left. by exists z.
    + revert E. unfold ClockOut.handler.
      destruct (negb (String.eqb (method request) "POST")); [intros [= <- _]; by left |].
      destruct (getCurrentUser db request) as [user |] eqn:Hu; [| intros [= <- _]; by left].
      destruct (select_open db (U.id user)) as [| entry rest] eqn:Ho;
        [intros [= <- _]; by left |].
      match goal with |- context [match ?g with Some _ => _ | None => _ end] => destruct g end;
        [intros [= <- _]; by left |].
      intros E. right. exists user. split; [done |]. right; left.
      exists entry, rest, (ClockOut.endTime (start_time entry) now).
      split_and!; [done | by left |].
      by rewrite <- close_fst, E.
    + revert E. unfold ClockOut.handler_ungated.
      destruct (negb (String.eqb (method request) "POST")); [intros [= <- _]; by left |].
      destruct (getCurrentUser db request) as [user |] eqn:Hu; [| intros [= <- _]; by left].
      destruct (select_open db (U.id user)) as [| entry rest] eqn:Ho;
        [intros [= <- _]; by left |].
      intros E. right. exists user. split; [done |]. right; left.
      exists entry, rest, (ClockOut.endTime (start_time entry) now).
      split_and!; [done | by left |].
      by rewrite <- close_fst, E.
    + revert E. unfold Status.handler.
      destruct (negb (String.eqb (method request) "GET")); [intros [= <- _]; by left |].
      destruct (getCurrentUser db request) as [user |] eqn:Hu; [| intros [= <- _]; by left].
      pose proof (check_open_cases db (U.id user) now) as Hc.
      destruct (select_open db (U.id user)) as [| entry rest] eqn:Ho.
      { rewrite Hc. intros [= <- _]. by left. }
      destruct (Z.leb_spec max_shift_ms (now - start_time entry)) as [Hle | Hlt].
      * rewrite Hc. intros [= <- _]. right. exists user. split; [done |]. right; left.
        exists entry, rest, (start_time entry + max_shift_ms).
        split_and!; [done | by right | done].
      * destruct Hc as [s ->]. intros [= <- _]. by left.
    + revert E. unfold Heatmap.handler.
      destruct (negb (String.eqb (method request) "GET")); [intros [= <- _]; by left |].
      destruct (getCurrentUser db request); intros [= <- _]; by left.
    + revert E. unfold Account.handler.
      destruct (negb (String.eqb (method request) "DELETE")); [intros [= <- _]; by left |].
      destruct (getCurrentUser db request) as [user |] eqn:Hu; [| intros [= <- _]; by left].
      intros [= <- _]. right. exists user. split; [done |]. by right; right; left.
  - unfold Logout.handler.
    destruct (negb (String.eqb (method request) "POST")); [by left |].
    destruct (getCurrentUser db request) as [user |] eqn:Hu; [| by left].
    right. exists user. split; [done |]. by right; right; right.
Qed.

Lemma serves_step `{Intl} now db request db' : serves now db request db' → step now db db'.
Proof.
  intros [db1 reply Ha |].
  - inversion Ha as [E | E | E | E | E | E | E]; clear Ha;
      [pose proof (step_clock_in now db request) as Hs
      |pose proof (step_clock_in_ungated now db request) as Hs
      |pose proof (step_clock_out now db request) as Hs
      |pose proof (step_clock_out_ungated now db request) as Hs
      |pose proof (step_status now db request) as Hs
      |pose proof (step_heatmap now db request) as Hs
      |pose proof (step_delete_account now db request) as Hs];
      by rewrite E in Hs.
  - unfold Logout.handler.
    destruct (negb (String.eqb (method request) "POST")); simpl;
      [| destruct (getCurrentUser db request)]; simpl;
      destruct db; exact (step_auth now _ _).
Qed.

Lemma endTime_past (startTime now : Z) : ClockOut.endTime startTime now ≤ now.
Proof. rewrite endTime_eq. destruct (Z.ltb_spec max_shift_ms (now - startTime)); lia. Qed.

(** An end time is never later than the clock reading of the request that
    stores it. *)
Lemma step_end_past `{Intl} now db db' r e :
  step now db db' → r ∈ time_entries db' → end_time r = Some e →
  r ∈ time_entries db ∨ e ≤ now.
Proof.
  assert (∀ entry e0,
            r ∈ time_entries (update_end_time db (id entry) e0).1 → end_time r = Some e →
            e0 ≤ now → r ∈ time_entries db ∨ e ≤ now) as Hupd.
  { intros entry e0 (r0 & Hr0 & ->)%elem_of_update He Hle.
    destruct (decide (id r0 = id entry)); [| by left].
    simpl in He. injection He as <-. by right. }
  assert (∀ uid tz,
            r ∈ time_entries (insert_row db uid now tz).1 → end_time r = Some e →
            r ∈ time_entries db ∨ e ≤ now) as Hins.
  { intros uid tz Hr He. simpl in Hr.
    apply elem_of_app in Hr as [Hold | ->%list_elem_of_singleton]; [by left | done]. }
  intros [request | request | request | request | request | request | request | users'].
  - destruct (clock_in_cases now db request)
      as [-> | (user & tz & z & _ & _ & _ & _ & _ & _ & _ & ->)]; [by left | apply Hins].
  - destruct (clock_in_ungated_cases now db request)
      as [-> | (user & tz & _ & _ & _ & ->)]; [by left | apply Hins].
  - destruct (clock_out_cases now db request)
      as [-> | (user & entry & rest & _ & ->)]; [by left |].
    intros Hr He. eapply Hupd; [done | done | apply endTime_past].
  - destruct (clock_out_ungated_cases now db request)
      as [-> | (user & entry & rest & _ & ->)]; [by left |].
    intros Hr He. eapply Hupd; [done | done | apply endTime_past].
  - destruct (status_fst now db request)
      as [-> | (user & entry & rest & _ & Hlate & ->)]; [by left |].
    intros Hr He. eapply Hupd; [done | done | lia].
  - unfold Heatmap.handler.
    destruct (negb (String.eqb (method request) "GET")); [by left |].
    destruct (getCurrentUser db request); by left.
  - unfold Account.handler.
    destruct (negb (String.eqb (method request) "DELETE")); [by left |].
    destruct (getCurrentUser db request) as [user |]; [| by left].
    simpl. intros (_ & Hr)%list_elem_of_filter _. by left.
  - by left.
Qed.

Lemma end_times_past `{Intl} t db r e :
  reachable_by t db → r ∈ time_entries db → end_time r = Some e → e ≤ t.
Proof.
  intros Hr. revert r e.
  induction Hr as [| t now db db' Hr IH Ht Hs]; intros r e Hin He.
  { by apply elem_of_nil in Hin. }
  destruct (step_end_past now db db' r e Hs Hin He) as [Hold | Hle]; [| done].
  specialize (IH r e Hold He). lia.
Qed.

(** Alice registers, clocks in on Saturday at 08:00 UTC and out at 09:00. *)
Lemma sample_shift_reachable_by :
  @reachable_by fixed_zones Sample.sat_0900
    (@ClockOut.handler fixed_zones Sample.sat_0900
       (Sample.working Sample.sat_0800 "Etc/GMT+7") (Sample.post JUndefined)).1.
Proof.
  apply (@reachable_by_step fixed_zones Sample.sat_0800 Sample.sat_0900
           (Sample.working Sample.sat_0800 "Etc/GMT+7")); [| done | apply step_clock_out].
  apply (@reachable_by_step fixed_zones 0 Sample.sat_0800 Sample.registered); [| done |].
  - apply (@reachable_by_step fixed_zones 0 0 empty_db); [constructor | done |].
    exact (@step_auth fixed_zones 0 empty_db [Sample.alice]).
  - exact (@step_clock_in fixed_zones Sample.sat_0800 Sample.registered
             (Sample.post (Sample.with_timezone "Etc/GMT+7"))).
Qed.

(** X3.  When the clock readings of successive requests never decrease, the
    table holds no entry from the future and no impossible shift: every
    entry starts at or before the latest reading, and every closed entry
    ends at or after its start, at most 15 hours after it, and at or before
    the latest reading. *)
Theorem X3_monotone_clock `{Intl} (t : Z) (db : DB) (r : time_entry) :
  reachable_by t db → r ∈ time_entries db →
  start_time r ≤ t ∧
  ∀ e, end_time r = Some e → start_time r ≤ e ∧ e ≤ start_time r + max_shift_ms ∧ e ≤ t.
Proof.
  intros Hr Hin.
  destruct (monotone_clock_durations t db Hr r Hin) as [Hstart Hend].
  split; [done |]. intros e He.
  specialize (Hend e He). pose proof (end_times_past t db r e Hr Hin He). lia.
Qed.

Lemma X3_monotone_clock_witness :
  let r := {| id := 1; user_id := 1; start_time := Sample.sat_0800;
              end_time := Some Sample.sat_0900; start_timezone := "Etc/GMT+7" |} in
  start_time r ≤ Sample.sat_0900 ∧
  ∀ e, end_time r = Some e →
       start_time r ≤ e ∧ e ≤ start_time r + max_shift_ms ∧ e ≤ Sample.sat_0900.
Proof.
  intros r.
  apply (@X3_monotone_clock fixed_zones Sample.sat_0900 _ r sample_shift_reachable_by).
  vm_compute. left.
Defined.

(** ** Whose rows a request touches *)

Lemma filter_fmap_fixed {A} (P : A → Prop) `{!∀ x, Decision (P x)} (f : A → A) (l : list A) :
  (∀ x, x ∈ l → (P (f x) ↔ P x) ∧ (P x → f x = x)) →
  filter P (f <$> l) = filter P l.
Proof.
  induction l as [| a l IH]; [done |]. intros Hf.
  destruct (Hf a) as [Hiff Hfix]; [left |].
  rewrite fmap_cons, !filter_cons, IH by (intros x Hx; apply Hf; by right).
  destruct (decide (P (f a))) as [Hp | Hn], (decide (P a)) as [Hp' | Hn']; try tauto.
  by rewrite Hfix.
Qed.

Lemma filter_idemp {A} (P : A → Prop) `{!∀ x, Decision (P x)} (l : list A) :
  filter P (filter P l) = filter P l.
Proof.
  induction l as [| a l IH]; [done |].
  rewrite filter_cons. destruct (decide (P a)); [| done].
  rewrite filter_cons, IH. by destruct (decide (P a)).
Qed.

Lemma serves_fst `{Intl} now db request p :
  answers now db request p → serves now db request p.1.
Proof. destruct p as [db' reply]. apply serves_answer. Qed.

(** X4.  A request changes nothing but what belongs to the user of its
    session.  Served on tables the handlers have produced, a request without
    a valid session leaves the tables as they are; a request with the session
    of a user leaves every time entry and every account of the other users
    as it is, whichever endpoint serves it (clock-in, clock-out, status,
    heatmap, account deletion, logout). *)
Theorem X4_own_rows_only `{Intl} (now : Z) (db db' : DB) (request : request) :
  reachable db → serves now db request db' →
  match getCurrentUser db request with
  | None => db' = db
  | Some user =>
      filter (λ r, user_id r ≠ U.id user) (time_entries db')
      = filter (λ r, user_id r ≠ U.id user) (time_entries db) ∧
      filter (λ u, U.id u ≠ U.id user) (users db')
      = filter (λ u, U.id u ≠ U.id user) (users db)
  end.
Proof.
  intros Hreach Hs. apply reachable_consistent in Hreach as [[Hnd _] _ _ _].
  destruct (serves_cases now db request db' Hs) as [-> | (user & Hu & Hcase)].
  { by destruct (getCurrentUser db request). }
  rewrite Hu.
  destruct Hcase as [(tz & _ & _ & ->) | [(entry & rest & e & Ho & _ & ->) | [-> | ->]]]; simpl.
  - split; [| done].
    rewrite filter_app, filter_cons, filter_nil. simpl.
    destruct (decide (U.id user ≠ U.id user)); [done | by rewrite app_nil_r].
  - split; [| done].
    apply select_open_head in Ho as (Hin & Huid & _).
    apply filter_fmap_fixed. intros r Hr.
    destruct (decide (id r = id entry)) as [Hid | _]; [| done].
    rewrite (same_id _ _ _ Hnd Hr Hin Hid). simpl. split; [done |]. by rewrite Huid.
  - split; apply filter_idemp.
  - split; [done |].
    apply filter_fmap_fixed. intros u Hin.
    destruct (decide (U.id u = U.id user)) as [Hid | _]; [| done].
    simpl. split; [done |]. by rewrite Hid.
Qed.

Lemma X4_own_rows_only_witness :
  let request := {| method := "POST"; cookie_session := Some "d4e5f6"%string;
                    body := JUndefined |} in
  let db' := (@ClockOut.handler fixed_zones Sample.mon_1730
                (Sample.working Sample.sat_0800 "Etc/GMT+7") request).1 in
  db' = Sample.working Sample.sat_0800 "Etc/GMT+7".
Proof.
  intros request db'.
  apply (@X4_own_rows_only fixed_zones Sample.mon_1730
           (Sample.working Sample.sat_0800 "Etc/GMT+7") db' request).
  - apply sample_working_reachable. reflexivity.
  - apply serves_fst, answers_clock_out.
Defined.





(** ** A session from clock-in to clock-out *)

Lemma Math_floor_seconds (d : Z) : Math_floor (inject_Z d / 1000) = d / 1000.
Proof. unfold Math_floor, Qfloor, Qdiv, Qmult, Qinv, inject_Z. simpl. f_equal. lia. Qed.

Lemma clock_in_success `{Intl} now db request db' i s z :
  ClockIn.handler now db request = (db', sendJson 201 (ClockInEntry i s z)) ∨
  ClockIn.handler_ungated now db request = (db', sendJson 201 (ClockInEntry i s z)) →
  ∃ user,
    getCurrentUser db request = Some user ∧ select_open db (U.id user) = [] ∧
    db' = (insert_row db (U.id user) now z).1 ∧
    i = time_entries_id_seq db ∧ s = now ∧ z ≠ ""%string.
Proof.
  unfold ClockIn.handler, ClockIn.handler_ungated.
  destruct (negb (String.eqb (method request) "POST")); [by intros [|] |].
  destruct (getCurrentUser db request) as [user |]; [| by intros [|]].
  destruct (getprop (body request) "timezone") as [v |]; [| by intros [|]].
  destruct (if truthy v then as_string v else None) as [tz |] eqn:Htz; [| by intros [|]].
  apply truthy_string in Htz as [-> Htz].
  destruct (select_open db (U.id user)) eqn:Ho.
  - destruct (VARCHAR 100 tz) as [z0 |] eqn:Hz.
    + rewrite (insert_entry_Some _ _ _ _ _ Hz).
      assert (z0 ≠ ""%string) as Hz0
        by (eapply VARCHAR_nonempty; [| exact Htz | exact Hz]; lia).
      intros [E | E].
      * destruct (checkWeekendRestriction tz now); [done |].
        simpl in E. injection E as <- <- <- <-. by exists user.
      * simpl in E. injection E as <- <- <- <-. by exists user.
    + rewrite (insert_entry_None _ _ _ _ Hz).
      intros [E | E]; [destruct (checkWeekendRestriction tz now) |]; done.
  - intros [E | E]; [destruct (checkWeekendRestriction tz now) |]; done.
Qed.

Lemma getCurrentUser_ext db db' request request' :
  users db' = users db → cookie_session request' = cookie_session request →
  getCurrentUser db' request' = getCurrentUser db request.
Proof. unfold getCurrentUser. by intros -> ->. Qed.

(** X6.  After a clock-in the status shows the session.  When a clock-in
    has been answered 201, the row it reports is in the table, open, under
    the user of the session, starting at the instant of the request; and a
    status read with the same session less than 15 hours later writes
    nothing and reports the user as working, with the id, start and time zone
    the clock-in reported and with the whole seconds elapsed since. *)
Theorem X6_clock_in_then_status `{Intl} (now now' : Z) (db db' : DB)
    (request request' : request) (i s : Z) (z : string) :
  ClockIn.handler now db request = (db', sendJson 201 (ClockInEntry i s z)) ∨
  ClockIn.handler_ungated now db request = (db', sendJson 201 (ClockInEntry i s z)) →
  method request' = "GET"%string →
  cookie_session request' = cookie_session request →
  now' - now < max_shift_ms →
  s = now ∧
  (∃ user,
     getCurrentUser db request = Some user ∧
     select_open db' (U.id user)
     = [{| id := i; user_id := U.id user; start_time := now; end_time := None;
           start_timezone := z |}]) ∧
  ∃ y,
    Status.handler now' db' request'
    = (db', sendJson 200
              (StatusData true
                 (Some {| session_id := i; session_start_time := now; timezone := z;
                          elapsed_seconds := (now' - now) / 1000 |})
                 (Some y))).
Proof.
  intros Hin Hm Hc Hlt.
  apply clock_in_success in Hin as (user & Hu & Ho & -> & -> & -> & Hz).
  assert (select_open (insert_row db (U.id user) now z).1 (U.id user)
          = [{| id := time_entries_id_seq db; user_id := U.id user; start_time := now;
                end_time := None; start_timezone := z |}]) as Ho'.
  { rewrite select_open_insert, Ho. by destruct (decide (U.id user = U.id user)). }
  split; [done |]. split; [by exists user |].
  rewrite (status_eq now' _ request' user Hm)
    by (rewrite <- Hu; by apply getCurrentUser_ext).
  unfold Status.check_open. rewrite Ho'. simpl start_time. rewrite Qgeb_hours.
  destruct (Z.leb_spec max_shift_ms (now' - now)) as [| _]; [lia |].
  rewrite Math_floor_seconds. unfold total_hours, COALESCE.
  destruct (SUM _) as [v |]; by eexists.
Qed.

Lemma X6_clock_in_then_status_witness :
  ∃ y,
    Status.handler Sample.sat_0900 (Sample.working Sample.sat_0800 "Etc/GMT+7") Sample.get
    = (Sample.working Sample.sat_0800 "Etc/GMT+7",
       sendJson 200
         (StatusData true
            (Some {| session_id := 1; session_start_time := Sample.sat_0800;
                     timezone := "Etc/GMT+7"; elapsed_seconds := 3600 |})
            (Some y))).
Proof.
  refine (proj2 (proj2 (@X6_clock_in_then_status fixed_zones Sample.sat_0800 Sample.sat_0900
            Sample.registered (Sample.working Sample.sat_0800 "Etc/GMT+7")
            (Sample.post (Sample.with_timezone "Etc/GMT+7")) Sample.get
            1 Sample.sat_0800 "Etc/GMT+7" _ _ _ _))).
  - left. reflexivity.
  - reflexivity.
  - reflexivity.
  - vm_compute. reflexivity.
Defined.

Lemma clock_out_success `{Intl} now db request db' i s e d :
  ClockOut.handler now db request = (db', sendJson 200 (ClockOutEntry i s e d)) ∨
  ClockOut.handler_ungated now db request = (db', sendJson 200 (ClockOutEntry i s e d)) →
  ∃ user entry rest,
    getCurrentUser db request = Some user ∧
    select_open db (U.id user) = entry :: rest ∧
    ClockOut.close db entry now = (db', sendJson 200 (ClockOutEntry i s e d)).
Proof.
  unfold ClockOut.handler, ClockOut.handler_ungated.
  destruct (negb (String.eqb (method request) "POST")); [by intros [|] |].
  destruct (getCurrentUser db request) as [user |]; [| by intros [|]].
  destruct (select_open db (U.id user)) as [| entry rest] eqn:Ho; [by intros [|] |].
  intros [E | E]; [| by exists user, entry, rest].
  match type of E with context [match ?g with Some _ => _ | None => _ end] => destruct g end;
    [done |].
  by exists user, entry, rest.
Qed.

(** X7.  A clock-out ends the session.  When a clock-out has been answered
    200 on tables the handlers have produced, the row it reports is in the
    table, closed, with the end time it reports; the user has no open entry
    left; a further clock-out with the same session is answered "not
    currently clocked in" and a status read reports the user as not working,
    and neither writes. *)
Theorem X7_clock_out_ends_session `{Intl} (now : Z) (db db' : DB) (request : request)
    (i s e : Z) (d : Q) :
  reachable db →
  ClockOut.handler now db request = (db', sendJson 200 (ClockOutEntry i s e d)) ∨
  ClockOut.handler_ungated now db request = (db', sendJson 200 (ClockOutEntry i s e d)) →
  ∃ user,
    getCurrentUser db request = Some user ∧
    (∃ tz, {| id := i; user_id := U.id user; start_time := s; end_time := Some e;
              start_timezone := tz |} ∈ time_entries db') ∧
    select_open db' (U.id user) = [] ∧
    ∀ now' request',
      cookie_session request' = cookie_session request →
      (method request' = "POST"%string →
       ClockOut.handler now' db' request' = (db', sendError 400 "You are not currently clocked in.") ∧
       ClockOut.handler_ungated now' db' request'
       = (db', sendError 400 "You are not currently clocked in.")) ∧
      (method request' = "GET"%string →
       ∃ y, Status.handler now' db' request' = (db', sendJson 200 (StatusData false None (Some y)))).
Proof.
  intros Hreach Hout.
  pose proof (reachable_consistent db Hreach) as [[Hnd Hseq] Hopen _ _].
  apply clock_out_success in Hout as (user & entry & rest & Hu & Ho & Hclose).
  pose proof (select_open_head _ _ _ _ Ho) as (Hin & Huid & Hnone).
  rewrite (close_eq db entry now Hnd Hin) in Hclose.
  remember (update_end_time db (id entry) (ClockOut.endTime (start_time entry) now)).1
    as db1 eqn:Edb1.
  injection Hclose as <- <- <- <- _.
  assert (select_open db1 (U.id user) = []) as Ho'.
  { rewrite Edb1, select_open_update, Ho.
    specialize (Hopen (U.id user)). rewrite Ho in Hopen.
    destruct rest; [| simpl in Hopen; lia].
    rewrite filter_cons, filter_nil. by destruct (decide (id entry ≠ id entry)). }
  exists user. split_and!; [done | | done |].
  - exists (start_timezone entry). rewrite Edb1. apply elem_of_update.
    exists entry. split; [done |].
    destruct (decide (id entry = id entry)); [| done].
    unfold set_end_time. by rewrite Huid.
  - intros now' request' Hc.
    assert (getCurrentUser db1 request' = Some user) as Hu'
      by (rewrite <- Hu; apply getCurrentUser_ext; [by rewrite Edb1 | done]).
    split.
    + intros Hm. unfold ClockOut.handler, ClockOut.handler_ungated.
      by rewrite Hm, Hu', Ho'.
    + intros Hm. rewrite (status_eq now' _ request' user Hm Hu').
      unfold Status.check_open. rewrite Ho'.
      unfold total_hours, COALESCE. destruct (SUM _); by eexists.
Qed.

Lemma X7_clock_out_ends_session_witness :
  let db := Sample.working Sample.sat_0800 "Etc/GMT+7" in
  let db' := (@ClockOut.handler fixed_zones Sample.sat_0900 db (Sample.post JUndefined)).1 in
  ∃ user,
    getCurrentUser db (Sample.post JUndefined) = Some user ∧
    select_open db' (U.id user) = [].
Proof.
  intros db db'.
  destruct (@X7_clock_out_ends_session fixed_zones Sample.sat_0900 db db'
              (Sample.post JUndefined) 1 Sample.sat_0800 Sample.sat_0900 (100 # 100))
    as (user & Hu & _ & Ho & _).
  - apply sample_working_reachable. reflexivity.
  - left. vm_compute. reflexivity.
  - by exists user.
Defined.

(** X8.  What a status read reports agrees with the table it leaves.  On
    tables the handlers have produced, a status answer always carries a year
    total that is a number; when it carries a session, the user is reported
    as working, nothing has been written, the session is the user's one open
    entry, and the elapsed seconds are the whole seconds since its start,
    fewer than 54000 (15 hours); when it carries none, the user is reported as
    not working and has no open entry in the table the read leaves. *)
Theorem X8_status_report `{Intl} (now : Z) (db db' : DB) (request : request)
    (w : bool) (c : option session) (y : option Q) :
  reachable db →
  Status.handler now db request = (db', sendJson 200 (StatusData w c y)) →
  ∃ user,
    getCurrentUser db request = Some user ∧
    is_Some y ∧
    match c with
    | Some current =>
        w = true ∧ db' = db ∧
        select_open db (U.id user)
        = [{| id := session_id current; user_id := U.id user;
              start_time := session_start_time current; end_time := None;
              start_timezone := timezone current |}] ∧
        elapsed_seconds current = (now - session_start_time current) / 1000 ∧
        elapsed_seconds current < 54000
    | None => w = false ∧ select_open db' (U.id user) = []
    end.
Proof.
  intros Hreach. apply reachable_consistent in Hreach as [_ Hopen _ _].
  unfold Status.handler.
  destruct (negb (String.eqb (method request) "GET")); [done |].
  destruct (getCurrentUser db request) as [user |]; [| done].
  specialize (Hopen (U.id user)).
  pose proof (check_open_cases db (U.id user) now) as Hc.
  assert (∀ db1, is_Some (round2 <$> parseFloat (total_hours db1 (U.id user)
                   (TimeFromYear (YearFromTime now)) (TimeFromYear (YearFromTime now + 1)))))
    as Hy.
  { intros db1. unfold parseFloat, total_hours, COALESCE. destruct (SUM _); by eexists. }
  destruct (select_open db (U.id user)) as [| entry rest] eqn:Ho.
  { rewrite Hc. intros [= <- <- <- <-]. exists user. by rewrite Ho. }
  destruct rest; [| simpl in Hopen; lia].
  destruct (Z.leb_spec max_shift_ms (now - start_time entry)) as [Hle | Hlt].
  - rewrite Hc.
    remember (update_end_time db (id entry) (start_time entry + max_shift_ms)).1
      as db1 eqn:Edb1.
    intros [= <- <- <- <-]. exists user. split_and!; [done | done | done |].
    rewrite Edb1, select_open_update, Ho, filter_cons, filter_nil.
    by destruct (decide (id entry ≠ id entry)).
  - clear Hc. unfold Status.check_open. rewrite Ho, Qgeb_hours.
    destruct (Z.leb_spec max_shift_ms (now - start_time entry)) as [| _]; [lia |].
    rewrite Math_floor_seconds.
    intros [= <- <- <- <-]. exists user. simpl.
    pose proof (select_open_head _ _ _ _ Ho) as (_ & Huid & Hnone).
    split_and!; try done.
    + rewrite Ho. destruct entry; simpl in *. by subst.
    + unfold max_shift_ms, MAX_SHIFT_HOURS in Hlt.
      apply Z.div_lt_upper_bound; lia.
Qed.

Lemma X8_status_report_witness :
  let db := Sample.working Sample.sat_0800 "Etc/GMT+7" in
  ∃ user,
    getCurrentUser db Sample.get = Some user ∧
    select_open db (U.id user)
    = [{| id := 1; user_id := U.id user; start_time := Sample.sat_0800; end_time := None;
          start_timezone := "Etc/GMT+7" |}].
Proof.
  intros db.
  destruct (@X8_status_report fixed_zones Sample.sat_0900 db db Sample.get true
              (Some {| session_id := 1; session_start_time := Sample.sat_0800;
                       timezone := "Etc/GMT+7"; elapsed_seconds := 3600 |})
              (Some (0 # 100)%Q))
    as (user & Hu & _ & _ & _ & Ho & _).
  - apply sample_working_reachable. reflexivity.
  - vm_compute. reflexivity.
  - by exists user.
Defined.

(** ** Sessions: login, logout and account deletion *)

Lemma login_cases `{Strings, Bcrypt} token table request :
  (∃ status message,
     Login.handler token table request = (table, Error status message)) ∨
  ∃ email password user rest,
    method request = "POST"%string ∧
    getprop (body request) "email" = Some (JString email) ∧
    getprop (body request) "password" = Some password ∧
    Users.select_by_email table (trim (toLowerCase email)) = user :: rest ∧
    compare password (Users.password_hash user) = Some true ∧
    Users.fits token = true ∧
    Login.handler token table request
    = (Users.set_session_token table (Users.id user) (Some token),
       Json 200 (Users.id user, Users.email user)).
Proof.
  unfold Login.handler.
  destruct (String.eqb_spec (method request) "POST") as [Hm | _]; simpl;
    [| left; by eexists _, _].
  destruct (getprop (body request) "email") as [email |]; [| left; by eexists _, _].
  destruct (getprop (body request) "password") as [password |]; [| left; by eexists _, _].
  destruct (negb (truthy email) || negb (truthy password)); [left; by eexists _, _ |].
  destruct email as [| | | | email |]; simpl; try (left; by eexists _, _).
  destruct (Users.select_by_email table (trim (toLowerCase email))) as [| user rest] eqn:Hsel;
    [left; by eexists _, _ |].
  destruct (compare password (Users.password_hash user)) as [[|] |] eqn:Hcmp;
    try (left; by eexists _, _).
  destruct (Users.fits token) eqn:Hfit; [| left; by eexists _, _].
  right. by exists email, password, user, rest.
Qed.


Lemma filter_key_absent {A} (g : A → Z) (l : list A) (k : Z) :
  k ∉ g <$> l → filter (λ y, g y = k) l = [].
Proof.
  induction l as [| b l IH]; [done |].
  rewrite fmap_cons. intros [Hb Hl]%not_elem_of_cons.
  rewrite filter_cons. destruct (decide (g b = k)); [congruence | by apply IH].
Qed.

Lemma filter_key_singleton {A} (g : A → Z) (l : list A) (x : A) :
  NoDup (g <$> l) → x ∈ l → filter (λ y, g y = g x) l = [x].
Proof.
  induction l as [| a l IH]; intros Hnd Hin; [by apply elem_of_nil in Hin |].
  rewrite fmap_cons in Hnd. apply NoDup_cons in Hnd as [Ha Hnd].
  rewrite filter_cons.
  apply elem_of_cons in Hin as [-> | Hin].
  - destruct (decide (g a = g a)); [| done]. f_equal. by apply filter_key_absent.
  - destruct (decide (g a = g x)) as [E | _]; [| by apply IH].
    destruct Ha. rewrite E. apply list_elem_of_fmap. by exists x.
Qed.

(** The sessions that are left when the rows of user [uid] lose theirs. *)
Lemma other_sessions (f : U.user → U.user) (uid : Z) (t : string) (l : list U.user) :
  (∀ u, U.id u ≠ uid → f u = u) →
  (∀ u, U.id u = uid → U.session_token (f u) ≠ Some t) →
  filter (λ u, U.session_token u = Some t) (f <$> l)
  = filter (λ u, U.id u ≠ uid) (filter (λ u, U.session_token u = Some t) l).
Proof.
  intros Hother Hown. induction l as [| u l IH]; [done |].
  rewrite fmap_cons, !filter_cons, IH.
  destruct (decide (U.id u = uid)) as [Hid | Hid].
  - destruct (decide (U.session_token (f u) = Some t)) as [Ht | _];
      [by destruct (Hown u Hid) |].
    destruct (decide (U.session_token u = Some t)); [| done].
    rewrite filter_cons. by destruct (decide (U.id u ≠ uid)).
  - rewrite (Hother u Hid).
    destruct (decide (U.session_token u = Some t)); [| done].
    rewrite filter_cons. by destruct (decide (U.id u ≠ uid)).
Qed.

Lemma getCurrentUser_others db db' request uid :
  (∀ t, cookie_session request = Some t →
        filter (λ u, U.session_token u = Some t) (users db')
        = filter (λ u, U.id u ≠ uid) (filter (λ u, U.session_token u = Some t) (users db))) →
  (∀ u, getCurrentUser db' request = Some u → U.id u ≠ uid) ∧
  (∀ u, getCurrentUser db request = Some u → U.id u ≠ uid →
        getCurrentUser db' request = Some u).
Proof.
  intros Hf. unfold getCurrentUser.
  destruct (cookie_session request) as [t |]; [| done].
  destruct (String.eqb t ""); [done |].
  rewrite (Hf t eq_refl). split.
  - intros u Hu. apply head_Some_elem_of in Hu. by apply list_elem_of_filter in Hu as [? _].
  - intros u Hu Hid.
    destruct (filter (λ u, U.session_token u = Some t) (users db)) as [| u0 l] eqn:E;
      [done |].
    injection Hu as ->. rewrite filter_cons. by destruct (decide (U.id u ≠ uid)).
Qed.

(** The table the other endpoints see after an UPDATE of the session token. *)
Lemma user_set_session_token table uid token :
  Users.user <$> Users.set_session_token table uid token
  = (λ u, if decide (U.id u = uid)
          then {| U.id := U.id u; U.email := U.email u; U.session_token := token |}
          else u) <$> (Users.user <$> table).
Proof.
  unfold Users.set_session_token. rewrite <- !list_fmap_compose. apply list_fmap_ext.
  intros _ r _. simpl. by destruct (decide (Users.id r = uid)).
Qed.

Lemma select_token_new (l : list U.user) uid token :
  (∀ u, u ∈ l → U.session_token u ≠ Some token) →
  filter (λ u, U.session_token u = Some token)
    ((λ u, if decide (U.id u = uid)
           then {| U.id := U.id u; U.email := U.email u; U.session_token := Some token |}
           else u) <$> l)
  = (λ u, {| U.id := U.id u; U.email := U.email u; U.session_token := Some token |})
      <$> filter (λ u, U.id u = uid) l.
Proof.
  induction l as [| u l IH]; [done |]. intros Hfresh.
  rewrite fmap_cons, !filter_cons, IH by (intros u' Hu'; apply Hfresh; by right).
  destruct (decide (U.id u = uid)) as [Hid | Hid]; simpl.
  - by destruct (decide (Some token = Some token)).
  - destruct (decide (U.session_token u = Some token)) as [Ht | _]; [| done].
    destruct (Hfresh u); [left | done].
Qed.

Lemma getCurrentUser_new_token db table uid token (r : Users.row) request :
  NoDup (Users.id <$> table) → r ∈ table → Users.id r = uid →
  token ≠ ""%string →
  (∀ r', r' ∈ table → Users.session_token r' ≠ Some token) →
  cookie_session request = Some token →
  getCurrentUser (with_users db (Users.set_session_token table uid (Some token))) request
  = Some {| U.id := uid; U.email := Users.email r; U.session_token := Some token |}.
Proof.
  intros Hnd Hin <- Hne Hfresh Hc. unfold getCurrentUser. rewrite Hc.
  destruct (String.eqb_spec token "") as [| _]; [done |].
  simpl. rewrite user_set_session_token, select_token_new.
  - rewrite (filter_key_singleton U.id (Users.user <$> table) (Users.user r)).
    + done.
    + by rewrite <- list_fmap_compose.
    + apply list_elem_of_fmap. by exists r.
  - intros u (r' & -> & Hr')%list_elem_of_fmap. by apply Hfresh.
Qed.

(** X10.  A login opens one session and closes the one before.  When the
    login handler answers 200 with an id and an email (the users table having
    no two rows with one id, and the new token being non-empty and held by no
    row), a request carrying the new token is the request of the user with
    that id and email, and /api/auth/me answers it with them; no request
    carrying another cookie is a request of that user any more, so a session
    opened by an earlier login is over; and the sessions of the other users
    go on. *)
Theorem X10_login_session `{Strings, Bcrypt} (token : string) (db : DB)
    (table table' : list Users.row) (request : request) (uid : Z) (email : string) :
  NoDup (Users.id <$> table) →
  token ≠ ""%string →
  (∀ r, r ∈ table → Users.session_token r ≠ Some token) →
  Login.handler token table request = (table', Json 200 (uid, email)) →
  (∃ r, r ∈ table ∧ Users.id r = uid ∧ Users.email r = email) ∧
  (∀ request',
     cookie_session request' = Some token →
     getCurrentUser (with_users db table') request'
     = Some {| U.id := uid; U.email := email; U.session_token := Some token |} ∧
     (method request' = "GET"%string →
      Me.handler (with_users db table') request' = Json 200 (Some (uid, email)))) ∧
  (∀ request',
     cookie_session request' ≠ Some token →
     (∀ u, getCurrentUser (with_users db table') request' = Some u → U.id u ≠ uid) ∧
     (∀ u, getCurrentUser (with_users db table) request' = Some u → U.id u ≠ uid →
           getCurrentUser (with_users db table') request' = Some u)).
Proof.
  intros Hnd Hne Hfresh E.
  destruct (login_cases token table request)
    as [(st & msg & E') | (e & p & user & rest & _ & _ & _ & Hsel & _ & _ & E')];
    rewrite E' in E; [done |].
  injection E as <- <- <-.
  assert (user ∈ table) as Hin.
  { assert (user ∈ Users.select_by_email table (trim (toLowerCase e))) as Hin
      by (rewrite Hsel; left).
    by apply list_elem_of_filter in Hin as [_ ?]. }
  pose proof (getCurrentUser_new_token db table (Users.id user) token user) as Hnew.
  split_and!; [by exists user | |].
  - intros request' Hc. split; [by apply Hnew |].
    intros Hm. unfold Me.handler. by rewrite Hm, (Hnew request').
  - intros request' Hc. apply getCurrentUser_others.
    intros t Ht. simpl. rewrite user_set_session_token. apply other_sessions.
    + intros u Hid. by destruct (decide (U.id u = Users.id user)).
    + intros u Hid. destruct (decide (U.id u = Users.id user)); [| done]. simpl. congruence.
Qed.

Lemma X10_login_session_witness :
  let request :=
    {| method := "POST"; cookie_session := None;
       body := JObject [("email"%string, JString " Alice@Example.org");
                        ("password"%string, JString "correct horse")] |} in
  let browser := {| method := "GET"; cookie_session := Some "f00d"%string;
                    body := JUndefined |} in
  let table' := Users.set_session_token [alice_row] 1 (Some "f00d"%string) in
  @Login.handler ascii_strings sample_bcrypt "f00d" [alice_row] request
  = (table', Json 200 (1, "alice@example.org"%string)) ∧
  getCurrentUser (with_users empty_db table') browser
  = Some {| U.id := 1; U.email := "alice@example.org"; U.session_token := Some "f00d"%string |}.
Proof.
  intros request browser table'.
  assert (@Login.handler ascii_strings sample_bcrypt "f00d" [alice_row] request
          = (table', Json 200 (1, "alice@example.org"%string))) as E
    by (vm_compute; reflexivity).
  split; [exact E |].
  destruct (@X10_login_session ascii_strings sample_bcrypt "f00d" empty_db [alice_row] table'
              request 1 "alice@example.org") as (_ & Hnew & _).
  - apply NoDup_singleton.
  - discriminate.
  - intros u Hu. apply list_elem_of_singleton in Hu as ->. discriminate.
  - exact E.
  - exact (proj1 (Hnew browser eq_refl)).
Defined.



(** X12.  Deleting an account removes the user and every entry of the user,
    and nothing of anyone else.  When the account endpoint answers 200, the
    users left are those with another id and the entries left are those of
    other users, in the order they had; afterwards no request, whatever its
    cookie, is a request of the deleted user, and the requests of the other
    users are theirs as before. *)
Theorem X12_account_deleted (db db' : DB) (request : request) (message : string) :
  Account.handler db request = (db', sendJson 200 (Deleted message)) →
  ∃ user,
    getCurrentUser db request = Some user ∧
    users db' = filter (λ u, U.id u ≠ U.id user) (users db) ∧
    time_entries db' = filter (λ r, user_id r ≠ U.id user) (time_entries db) ∧
    (∀ uid, select_open db' uid
            = if decide (uid = U.id user) then [] else select_open db uid) ∧
    ∀ request',
      (∀ u, getCurrentUser db' request' = Some u → U.id u ≠ U.id user) ∧
      (∀ u, getCurrentUser db request' = Some u → U.id u ≠ U.id user →
            getCurrentUser db' request' = Some u).
Proof.
  unfold Account.handler.
  destruct (negb (String.eqb (method request) "DELETE")); [done |].
  destruct (getCurrentUser db request) as [user |]; [| done].
  intros [= <- _]. exists user. split_and!; try done.
  - intros uid. unfold select_open. simpl. rewrite list_filter_filter.
    destruct (decide (uid = U.id user)) as [-> | Hne].
    + induction (time_entries db) as [| r l IH]; [done |].
      rewrite filter_cons, IH.
      by destruct (decide ((user_id r = U.id user ∧ end_time r = None)
                           ∧ user_id r ≠ U.id user)) as [[[? _] ?] | _].
    + apply list_filter_iff. intros r. split; [tauto |].
      intros [Hu Hn]. split; [done | congruence].
  - intros request'. apply getCurrentUser_others.
    intros t _. simpl. rewrite !list_filter_filter. apply list_filter_iff. tauto.
Qed.

Lemma X12_account_deleted_witness :
  let request := {| method := "DELETE"; cookie_session := Some "a1b2c3"%string;
                    body := JUndefined |} in
  ∃ user,
    getCurrentUser Sample.history request = Some user ∧
    time_entries (Account.handler Sample.history request).1
    = filter (λ r, user_id r ≠ U.id user) (time_entries Sample.history).
Proof.
  intros request.
  destruct (X12_account_deleted Sample.history (Account.handler Sample.history request).1
              request "Your account has been permanently deleted." eq_refl)
    as (user & Hu & _ & He & _).
  by exists user.
Defined.

(** ** The export of completed entries *)

Lemma isoDate_Day t1 t2 : Day t1 = Day t2 → isoDate t1 = isoDate t2.
Proof.
  intros E.
  unfold isoDate, DateFromTime, MonthFromTime, DayWithinYear, InLeapYear, YearFromTime.
  by rewrite E.
Qed.

Lemma insert_desc_perm r l : Entries.insert_desc r l ≡ₚ r :: l.
Proof.
  induction l as [| x l IH]; [done |]. simpl.
  destruct (start_time x <=? start_time r); [done |].
  rewrite IH. apply Permutation_swap.
Qed.

Lemma order_by_perm l : Entries.order_by_start_time_desc l ≡ₚ l.
Proof.
  induction l as [| r l IH]; [done |]. simpl.
  by rewrite insert_desc_perm, IH.
Qed.

Lemma insert_desc_sorted r l :
  StronglySorted (λ a b, start_time b ≤ start_time a) l →
  StronglySorted (λ a b, start_time b ≤ start_time a) (Entries.insert_desc r l).
Proof.
  induction 1 as [| x l Hs IH Hx]; simpl; [repeat constructor |].
  destruct (Z.leb_spec (start_time x) (start_time r)) as [Hle | Hgt].
  - constructor; [by constructor |].
    constructor; [done |]. eapply Forall_impl; [exact Hx |]. simpl. intros; lia.
  - constructor; [done |].
    rewrite insert_desc_perm. constructor; [lia | done].
Qed.

Lemma order_by_sorted l :
  StronglySorted (λ a b, start_time b ≤ start_time a) (Entries.order_by_start_time_desc l).
Proof.
  induction l as [| r l IH]; simpl; [constructor | by apply insert_desc_sorted].
Qed.

(** X13.  The export lists the completed entries of the user, all of them
    and nothing else, latest start first, and writes nothing.  Each line
    carries the UTC date of the start, which is the key under which the
    heatmap counts the entry, the weekday of that date (always one of the
    seven names), the hour and minute of start and end, and the length of the
    entry in hours rounded to two decimals. *)
Theorem X13_export_completed (db : DB) (request : request) (user : U.user) :
  method request = "GET"%string →
  getCurrentUser db request = Some user →
  ∃ rows,
    Entries.handler db request = Json 200 (Entries.format <$> rows) ∧
    rows ≡ₚ filter (λ r, user_id r = U.id user ∧ end_time r ≠ None) (time_entries db) ∧
    StronglySorted (λ a b, start_time b ≤ start_time a) rows ∧
    ∀ r, r ∈ rows →
      ∃ e,
        end_time r = Some e ∧
        Entries.date (Entries.format r) = isoDate (start_time r) ∧
        Entries.date (Entries.format r) = Heatmap.dateString (DATE (start_time r)) ∧
        (∃ name, Entries.day_of_week (Entries.format r) = Some name ∧
                 Entries.DAY_NAMES !! Z.to_nat (WeekDay (start_time r)) = Some name) ∧
        Entries.start_time (Entries.format r)
        = pad 2 (HourFromTime (start_time r)) +:+ ":" +:+ pad 2 (MinFromTime (start_time r)) ∧
        Entries.end_time (Entries.format r)
        = pad 2 (HourFromTime e) +:+ ":" +:+ pad 2 (MinFromTime e) ∧
        rounded_to_2_decimals (duration_in_hours (start_time r) e)
          (Entries.duration_hours (Entries.format r)).
Proof.
  intros Hm Hu. exists (Entries.select_completed db (U.id user)).
  split_and!.
  - unfold Entries.handler. by rewrite Hm, Hu.
  - apply order_by_perm.
  - apply order_by_sorted.
  - intros r Hr. unfold Entries.select_completed in Hr.
    rewrite order_by_perm in Hr. apply list_elem_of_filter in Hr as [[_ Hclosed] _].
    destruct (end_time r) as [e |] eqn:He; [| done].
    exists e. unfold Entries.format, Entries.startDate, Entries.endDate. rewrite He. simpl.
    split_and!; try done.
    + apply split_T_0_toISOString.
    + rewrite split_T_0_toISOString, dateString_eq. apply isoDate_Day.
      unfold DATE. by rewrite Day_of_midnight.
    + pose proof (Z.mod_pos_bound (Day (start_time r) + 4) 7 eq_refl) as Hw.
      unfold WeekDay.
      destruct (Entries.DAY_NAMES !! Z.to_nat ((Day (start_time r) + 4) mod 7))
        as [name |] eqn:E; [by exists name |].
      apply lookup_ge_None in E. simpl in E. lia.
    + eapply rounded_to_2_decimals_comp; [apply duration_hours_eq | apply round2_rounds].
Qed.

Lemma X13_export_completed_witness :
  ∃ rows,
    Entries.handler Sample.history Sample.get = Json 200 (Entries.format <$> rows) ∧
    rows ≡ₚ filter (λ r, user_id r = 1 ∧ end_time r ≠ None) (time_entries Sample.history) ∧
    StronglySorted (λ a b, start_time b ≤ start_time a) rows.
Proof.
  destruct (X13_export_completed Sample.history Sample.get Sample.alice eq_refl eq_refl)
    as (rows & E & Hp & Hs & _).
  exists rows. by split_and!.
Defined.

Example export_history :
  Entries.handler Sample.history Sample.get
  = Json 200
      [ {| Entries.date := "2024-06-03"; Entries.day_of_week := Some "Monday"%string;
           Entries.start_time := "23:00"; Entries.end_time := "00:15";
           Entries.duration_hours := 125 # 100 |};
        {| Entries.date := "2024-06-03"; Entries.day_of_week := Some "Monday"%string;
           Entries.start_time := "09:00"; Entries.end_time := "12:00";
           Entries.duration_hours := 300 # 100 |} ].
Proof. vm_compute. reflexivity. Qed.

(** ** The heatmap and the year total *)

Lemma sum_insert_date (f : Z → Q) (x : Z) (ds : list Z) :
  StronglySorted Z.lt ds →
  (foldr (λ d acc, f d + acc) 0 (insert_date x ds)
   == (if decide (x ∈ ds) then 0 else f x) + foldr (λ d acc, f d + acc) 0 ds)%Q.
Proof.
  induction 1 as [| y l Hl IH Hy]; simpl.
  { destruct (decide (x ∈ [])) as [[]%elem_of_nil | _]. reflexivity. }
  destruct (Z.ltb_spec x y) as [Hlt | Hge].
  - destruct (decide (x ∈ y :: l)) as [Hin | _]; [| reflexivity].
    apply elem_of_cons in Hin as [-> | Hin]; [lia |].
    eapply Forall_forall in Hy; [| exact Hin]. lia.
  - destruct (Z.eqb_spec x y) as [-> | Hne].
    + destruct (decide (y ∈ y :: l)) as [_ | []]; [| left]. simpl. ring.
    + simpl. rewrite IH.
      destruct (decide (x ∈ l)), (decide (x ∈ y :: l)) as [Hin | Hnin]; try ring.
      * destruct Hnin. by right.
      * apply elem_of_cons in Hin as [-> | Hin]; done.
Qed.

Lemma sum_hours_cons r l : (sum_hours (r :: l) == sum_hours [r] + sum_hours l)%Q.
Proof. unfold sum_hours. simpl. destruct (end_time r); ring. Qed.

Lemma sum_started_on_cons r l (ds : list Z) :
  NoDup ds →
  (foldr (λ d acc, sum_hours (started_on d (r :: l)) + acc) 0 ds
   == (if decide (Day (start_time r) ∈ ds) then sum_hours [r] else 0)
      + foldr (λ d acc, sum_hours (started_on d l) + acc) 0 ds)%Q.
Proof.
  induction 1 as [| d ds Hd Hnd IH]; cbn [foldr].
  { destruct (decide (Day (start_time r) ∈ [])) as [[]%elem_of_nil | _]. ring. }
  rewrite IH. unfold started_on at 1. rewrite filter_cons. fold (started_on d l).
  destruct (decide (Day (start_time r) = d)) as [E | E].
  - destruct (decide (Day (start_time r) ∈ d :: ds)) as [_ | []]; [| rewrite E; left].
    destruct (decide (Day (start_time r) ∈ ds)) as [Hin | _]; [by rewrite E in Hin |].
    rewrite (sum_hours_cons r (started_on d l)). ring.
  - destruct (decide (Day (start_time r) ∈ ds)) as [Hin | Hnin],
      (decide (Day (start_time r) ∈ d :: ds)) as [Hin' | Hnin']; try ring.
    + destruct Hnin'. by right.
    + apply elem_of_cons in Hin' as [? | ?]; done.
Qed.

(** The hours of a list of entries are the hours of its days, added up. *)
Lemma sum_hours_by_day (rows : list time_entry) :
  (sum_hours rows
   == foldr (λ d acc, sum_hours (started_on d rows) + acc) 0 (work_dates rows))%Q.
Proof.
  induction rows as [| r l IH]; [reflexivity |].
  change (work_dates (r :: l)) with (insert_date (DATE (start_time r)) (work_dates l)).
  rewrite sum_insert_date by apply work_dates_sorted.
  rewrite sum_started_on_cons by apply sorted_NoDup, work_dates_sorted.
  rewrite <- IH. unfold DATE.
  destruct (decide (Day (start_time r) ∈ work_dates l)) as [Hin | Hnin].
  - rewrite (sum_hours_cons r l). ring.
  - assert (started_on (Day (start_time r)) l = []) as E.
    { destruct (started_on (Day (start_time r)) l) as [| r' l'] eqn:E; [done |].
      destruct Hnin. apply elem_of_work_dates. exists r'.
      assert (r' ∈ started_on (Day (start_time r)) l) as Hr' by (rewrite E; left).
      by apply list_elem_of_filter in Hr' as [? ?]. }
    unfold started_on at 1. rewrite filter_cons.
    destruct (decide (Day (start_time r) = Day (start_time r))); [| done].
    fold (started_on (Day (start_time r)) l). rewrite E.
    rewrite (sum_hours_cons r l). ring.
Qed.

Lemma sum_ext (f g : Z → Q) (ds : list Z) :
  (∀ d, d ∈ ds → (f d == g d)%Q) →
  (foldr (λ d acc, f d + acc) 0 ds == foldr (λ d acc, g d + acc) 0 ds)%Q.
Proof.
  induction ds as [| d ds IH]; intros Hfg; simpl; [reflexivity |].
  rewrite (Hfg d) by left. rewrite IH; [reflexivity |]. intros; apply Hfg; by right.
Qed.

(** X14.  The days of the heatmap add up to the year total.  For one user
    and one range of start times, every row of the daily-totals query carries
    a number (never NULL), and the year-total query returns a number equal to
    the sum of those daily numbers: both queries count the same entries, each
    once. *)
Theorem X14_daily_totals_add_up (db : DB) (uid yearStart yearEnd : Z) :
  (∀ row, row ∈ daily_totals db uid yearStart yearEnd → is_Some row.2) ∧
  ∃ total,
    total_hours db uid yearStart yearEnd = Some total ∧
    (total == foldr (λ row acc, default 0 row.2 + acc) 0
                (daily_totals db uid yearStart yearEnd))%Q.
Proof.
  unfold daily_totals, total_hours.
  set (rows := completed_in db uid yearStart yearEnd).
  pose proof (daily_total_number db uid yearStart yearEnd) as Hday. fold rows in Hday.
  split.
  - intros row (d & -> & Hd)%list_elem_of_fmap. destruct (Hday d Hd) as (s & -> & _).
    by eexists.
  - assert (∃ total, COALESCE (SUM (hours <$> rows)) 0 = Some total ∧
                     (total == sum_hours rows)%Q) as (total & -> & Ht).
    { destruct rows as [| r l] eqn:E; [by exists 0%Q |]. rewrite <- E.
      destruct (SUM_closed rows) as (s & -> & Hs).
      - intros r'. apply completed_in_closed.
      - by rewrite E.
      - by exists s. }
    exists total. split; [done |].
    rewrite Ht, sum_hours_by_day, foldr_fmap. apply sum_ext.
    intros d Hd. destruct (Hday d Hd) as (s & -> & Hs). simpl. by rewrite Hs.
Qed.

Lemma format_days_keys rows (m : gmap string (option Q)) k :
  is_Some (foldl (λ days row, <[Heatmap.dateString row.1 := round2 <$> parseFloat row.2]> days)
             m rows !! k)
  ↔ is_Some (m !! k) ∨ ∃ row, row ∈ rows ∧ Heatmap.dateString row.1 = k.
Proof.
  revert m. induction rows as [| row rows IH]; intros m; simpl.
  { split; [by left | intros [? | (? & []%elem_of_nil & _)]; done]. }
  rewrite IH. destruct (decide (Heatmap.dateString row.1 = k)) as [E | E].
  - rewrite E, lookup_insert_eq. split.
    + intros _. right. exists row. split; [left | done].
    + intros _. left. by eexists.
  - rewrite lookup_insert_ne by done. split.
    + intros [? | (row' & Hin & E')]; [by left |]. right. exists row'. split; [by right | done].
    + intros [? | (row' & [-> | Hin]%elem_of_cons & E')]; [by left | done |].
      right. by exists row'.
Qed.

Lemma format_days_values rows (m : gmap string (option Q)) k v :
  foldl (λ days row, <[Heatmap.dateString row.1 := round2 <$> parseFloat row.2]> days)
    m rows !! k = Some v →
  m !! k = Some v ∨ ∃ row, row ∈ rows ∧ v = round2 <$> row.2.
Proof.
  revert m. induction rows as [| row rows IH]; intros m; simpl; [by left |].
  intros [Hm | (row' & Hin & ->)]%IH.
  - destruct (decide (Heatmap.dateString row.1 = k)) as [E | E].
    + rewrite E, lookup_insert_eq in Hm. injection Hm as <-.
      right. exists row. split; [left | done].
    + rewrite lookup_insert_ne in Hm by done. by left.
  - right. exists row'. split; [by right | done].
Qed.

Lemma YearFromTime_range t :
  TimeFromYear (YearFromTime t) ≤ t < TimeFromYear (YearFromTime t + 1).
Proof.
  pose proof (YearFromDay_spec (Day t)) as Hs.
  unfold TimeFromYear, YearFromTime, Day, msPerDay in *.
  Z.to_euclidean_division_equations. lia.
Qed.

(** X15.  The keys of the heatmap are the start dates of the completed
    entries of the year, and nothing else.  When the heatmap is answered 200,
    nothing has been written, the year it names is the UTC year of the
    request, and a string is a key of the mapping exactly when it is the
    YYYY-MM-DD date of the start of a closed entry of the user that starts in
    that year; the value under every key is a number. *)
Theorem X15_heatmap_keys (now : Z) (db db' : DB) (request : request) (year : Z)
    (days : gmap string (option Q)) :
  Heatmap.handler now db request = (db', sendJson 200 (HeatmapData year days)) →
  db' = db ∧ year = YearFromTime now ∧
  ∃ user,
    getCurrentUser db request = Some user ∧
    (∀ k, is_Some (days !! k) ↔
          ∃ r, r ∈ time_entries db ∧ user_id r = U.id user ∧ end_time r ≠ None ∧
               YearFromTime (start_time r) = year ∧ k = isoDate (start_time r)) ∧
    (∀ k v, days !! k = Some v → is_Some v).
Proof.
  unfold Heatmap.handler.
  destruct (negb (String.eqb (method request) "GET")); [done |].
  destruct (getCurrentUser db request) as [user |]; [| done].
  intros [= <- <- <-]. split_and!; [done | done |].
  exists user. split; [done |].
  set (ys := TimeFromYear (YearFromTime now)).
  set (ye := TimeFromYear (YearFromTime now + 1)).
  assert (∀ d, Heatmap.dateString (DATE d) = isoDate d) as Hkey.
  { intros d. rewrite dateString_eq. apply isoDate_Day. unfold DATE. apply Day_of_midnight. }
  split.
  - intros k. unfold Heatmap.format_days. rewrite format_days_keys, lookup_empty.
    unfold daily_totals. split.
    + intros [[? [=]] | (row & (d & -> & Hd)%list_elem_of_fmap & <-)].
      apply elem_of_work_dates in Hd as (r & Hr & <-).
      apply list_elem_of_filter in Hr as [(Hu & Hc & Hlo & Hhi) Hin].
      exists r. split_and!; try done.
      * by apply YearFromTime_in_year.
      * simpl. by rewrite Hkey.
    + intros (r & Hin & Hu & Hc & Hy & ->). right.
      exists (DATE (start_time r),
              SUM (hours <$> filter (λ r', DATE (start_time r') = DATE (start_time r))
                                    (completed_in db (U.id user) ys ye))).
      split; [| simpl; by rewrite Hkey].
      apply list_elem_of_fmap. exists (DATE (start_time r)). split; [done |].
      apply elem_of_work_dates. exists r. split; [| done].
      apply list_elem_of_filter. split; [| done].
      pose proof (YearFromTime_range (start_time r)) as Hr. rewrite Hy in Hr.
      subst ys ye. split_and!; [done | done | lia | lia].
  - intros k v Hv. apply format_days_values in Hv as [Hv | (row & Hrow & ->)].
    { by rewrite lookup_empty in Hv. }
    apply list_elem_of_fmap in Hrow as (d & -> & Hd).
    destruct (daily_total_number db (U.id user) ys ye d Hd) as (s & -> & _). by eexists.
Qed.

Lemma X15_heatmap_keys_witness :
  let days :=
    Heatmap.format_days
      (daily_totals Sample.history 1 (TimeFromYear (YearFromTime Sample.fri_1200))
         (TimeFromYear (YearFromTime Sample.fri_1200 + 1))) in
  is_Some (days !! "2024-06-03"%string).
Proof.
  intros days.
  destruct (X15_heatmap_keys Sample.fri_1200 Sample.history Sample.history Sample.get
              (YearFromTime Sample.fri_1200) days
              (heatmap_eq Sample.fri_1200 Sample.history Sample.get Sample.alice
                 eq_refl eq_refl))
    as (_ & _ & user & Hu & Hkeys & _).
  injection Hu as <-.
  apply Hkeys.
  exists {| id := 1; user_id := 1; start_time := UTC 2024 5 3 9 0 0;
            end_time := Some (UTC 2024 5 3 12 0 0); start_timezone := "Etc/GMT+7" |}.
  split_and!; [left | done | done | by vm_compute | by vm_compute].
Defined.

(** ** The email pattern *)

Lemma Matches_seq_inv r1 r2 s :
  Regex.Matches (Regex.Seq r1 r2) s ↔
  ∃ s1 s2, s = s1 ++ s2 ∧ Regex.Matches r1 s1 ∧ Regex.Matches r2 s2.
Proof.
  split.
  - inversion 1; subst. by eexists _, _.
  - intros (s1 & s2 & -> & H1 & H2). by constructor.
Qed.

Lemma Matches_alt_inv r1 r2 s :
  Regex.Matches (Regex.Alt r1 r2) s ↔ Regex.Matches r1 s ∨ Regex.Matches r2 s.
Proof.
  split.
  - inversion 1; subst; [by left | by right].
  - intros [? | ?]; [by apply Regex.Matches_alt_l | by apply Regex.Matches_alt_r].
Qed.

Lemma Matches_class_inv p s :
  Regex.Matches (Regex.Class p) s ↔ ∃ c, s = [c] ∧ p c = true.
Proof.
  split.
  - inversion 1; subst. by eexists.
  - intros (c & -> & Hc). by constructor.
Qed.

Lemma nullable_spec r : Regex.nullable r = true ↔ Regex.Matches r [].
Proof.
  induction r as [| | p | r1 IH1 r2 IH2 | r1 IH1 r2 IH2 | r IH]; simpl.
  - split; [done | inversion 1].
  - split; [constructor | done].
  - rewrite Matches_class_inv. split; [done | by intros (c & [=] & _)].
  - rewrite andb_true_iff, IH1, IH2, Matches_seq_inv. split.
    + intros [H1 H2]. by exists [], [].
    + intros (s1 & s2 & E & H1 & H2). symmetry in E. by apply app_eq_nil in E as [-> ->].
  - by rewrite orb_true_iff, IH1, IH2, Matches_alt_inv.
  - split; [constructor | done].
Qed.

Lemma Matches_star_cons_inv r c s :
  Regex.Matches (Regex.Star r) (c :: s) →
  ∃ s1 s2, s = s1 ++ s2 ∧ Regex.Matches r (c :: s1) ∧ Regex.Matches (Regex.Star r) s2.
Proof.
  intros H. remember (Regex.Star r) as r' eqn:Er. remember (c :: s) as s' eqn:Es.
  induction H as [| | | | | | r0 s1 s2 H1 _ H2 IH2]; try done.
  injection Er as ->.
  destruct s1 as [| c1 s1]; simpl in Es.
  - by apply IH2.
  - injection Es as -> <-. by exists s1, s2.
Qed.

Lemma derivative_spec c r s :
  Regex.Matches (Regex.derivative c r) s ↔ Regex.Matches r (c :: s).
Proof.
  revert s. induction r as [| | p | r1 IH1 r2 IH2 | r1 IH1 r2 IH2 | r IH]; intros s; simpl.
  - split; inversion 1.
  - split; inversion 1.
  - rewrite Matches_class_inv. destruct (p c) eqn:Hp; split.
    + inversion 1; subst. by exists c.
    + intros (c' & [= <- ->] & _). constructor.
    + inversion 1.
    + intros (c' & [= <- ->] & Hc). congruence.
  - assert (Regex.Matches (Regex.Seq (Regex.derivative c r1) r2) s
            ↔ ∃ s1 s2, s = s1 ++ s2 ∧ Regex.Matches r1 (c :: s1) ∧ Regex.Matches r2 s2)
      as Hseq.
    { rewrite Matches_seq_inv. by setoid_rewrite IH1. }
    assert (Regex.Matches (Regex.Seq r1 r2) (c :: s)
            ↔ (Regex.Matches r1 [] ∧ Regex.Matches r2 (c :: s)) ∨
              ∃ s1 s2, s = s1 ++ s2 ∧ Regex.Matches r1 (c :: s1) ∧ Regex.Matches r2 s2)
      as Hcons.
    { rewrite Matches_seq_inv. split.
      - intros (s1 & s2 & E & H1 & H2).
        destruct s1 as [| c1 s1]; simpl in E.
        + left. by subst s2.
        + injection E as <- ->. right. by exists s1, s2.
      - intros [[H1 H2] | (s1 & s2 & -> & H1 & H2)].
        + by exists [], (c :: s).
        + by exists (c :: s1), s2. }
    rewrite Hcons. destruct (Regex.nullable r1) eqn:Hn.
    + apply nullable_spec in Hn. rewrite Matches_alt_inv, Hseq, IH2. tauto.
    + rewrite Hseq. split; [by right |].
      intros [[H1 _] | H]; [| done].
      apply nullable_spec in H1. congruence.
  - by rewrite !Matches_alt_inv, IH1, IH2.
  - rewrite Matches_seq_inv. setoid_rewrite IH. split.
    + intros (s1 & s2 & -> & H1 & H2).
      exact (Regex.Matches_star_cons r (c :: s1) s2 H1 H2).
    + apply Matches_star_cons_inv.
Qed.

(** [test] decides the language of the pattern. *)
Lemma test_spec r s : Regex.test r s = true ↔ Regex.Matches r s.
Proof.
  unfold Regex.test. revert r. induction s as [| c s IH]; intros r; simpl.
  - apply nullable_spec.
  - rewrite IH. apply derivative_spec.
Qed.

Lemma Matches_star_class p s :
  Regex.Matches (Regex.Star (Regex.Class p)) s ↔ Forall (λ c, p c = true) s.
Proof.
  split.
  - intros H. remember (Regex.Star (Regex.Class p)) as r eqn:Er.
    induction H as [| | | | | | r0 s1 s2 H1 _ H2 IH2]; try done.
    injection Er as ->. inversion H1; subst. constructor; [done | by apply IH2].
  - induction 1 as [| c s Hc _ IH]; [constructor |].
    exact (Regex.Matches_star_cons _ [c] s (Regex.Matches_class p c Hc) IH).
Qed.

Lemma Matches_plus_class p s :
  Regex.Matches (Regex.Plus (Regex.Class p)) s ↔ s ≠ [] ∧ Forall (λ c, p c = true) s.
Proof.
  unfold Regex.Plus. rewrite Matches_seq_inv. split.
  - intros (s1 & s2 & -> & H1 & H2). inversion H1; subst.
    apply Matches_star_class in H2. split; [done | by constructor].
  - intros [Hne Hall]. destruct s as [| c s]; [done |].
    apply Forall_cons in Hall as [Hc Hall].
    exists [c], s. split_and!; [done | by constructor | by apply Matches_star_class].
Qed.

Lemma Matches_char c s : Regex.Matches (Regex.Char c) s ↔ s = [c].
Proof.
  unfold Regex.Char. split.
  - inversion 1 as [| p c' Hc | | | | |]; subst. by apply N.eqb_eq in Hc as ->.
  - intros ->. constructor. apply N.eqb_refl.
Qed.

(** X16.  [isValidEmail] accepts exactly the strings of the form
    local@domain.rest in which the three parts are non-empty and hold
    neither white space nor an at sign; so an accepted address has exactly
    one at sign, no white space anywhere, and a dot after the at sign with
    something on either side of it. *)
Theorem X16_isValidEmail_shape (email : list N) :
  isValidEmail email = true ↔
  ∃ l d r,
    email = l ++ [0x40%N] ++ d ++ [0x2E%N] ++ r ∧
    l ≠ [] ∧ d ≠ [] ∧ r ≠ [] ∧
    Forall (λ c, is_white_space c = false ∧ c ≠ 0x40%N) (l ++ d ++ r).
Proof.
  assert (∀ s, Forall (λ c, not_space_or_at c = true) s
               ↔ Forall (λ c, is_white_space c = false ∧ c ≠ 0x40%N) s) as Hcls.
  { intros s. apply Forall_iff. intros c. unfold not_space_or_at.
    rewrite negb_true_iff, orb_false_iff, N.eqb_neq. done. }
  unfold isValidEmail, emailRegex. rewrite test_spec. split.
  - intros (l & s1 & -> & Hl & H1)%Matches_seq_inv.
    apply Matches_plus_class in Hl as [Hl Hla].
    apply Matches_seq_inv in H1 as (a & s2 & -> & ->%Matches_char & H2).
    apply Matches_seq_inv in H2 as (d & s3 & -> & Hd & H3).
    apply Matches_plus_class in Hd as [Hd Hda].
    apply Matches_seq_inv in H3 as (dot & r & -> & ->%Matches_char & Hr).
    apply Matches_plus_class in Hr as [Hr Hra].
    exists l, d, r. split_and!; try done.
    rewrite !Forall_app, <- !Hcls. done.
  - intros (l & d & r & -> & Hl & Hd & Hr & Hall).
    rewrite !Forall_app, <- !Hcls in Hall. destruct Hall as (Hla & Hda & Hra).
    apply Matches_seq_inv. exists l, ([0x40%N] ++ d ++ [0x2E%N] ++ r).
    split_and!; [done | by apply Matches_plus_class |].
    apply Matches_seq_inv. exists [0x40%N], (d ++ [0x2E%N] ++ r).
    split_and!; [done | by apply Matches_char |].
    apply Matches_seq_inv. exists d, ([0x2E%N] ++ r).
    split_and!; [done | by apply Matches_plus_class |].
    apply Matches_seq_inv. exists [0x2E%N], r.
    split_and!; [done | by apply Matches_char | by apply Matches_plus_class].
Qed.

Example isValidEmail_examples :
  isValidEmail (code_units "alice@example.org") = true ∧
  isValidEmail (code_units "a@b.c") = true ∧
  isValidEmail (code_units "a@b") = false ∧
  isValidEmail (code_units "@b.c") = false ∧
  isValidEmail (code_units "a@.c") = false ∧
  isValidEmail (code_units "a@b.") = false ∧
  isValidEmail (code_units "a b@c.d") = false ∧
  isValidEmail (code_units "a@b@c.d") = false ∧
  isValidEmail (code_units "a@b..c") = true ∧
  isValidEmail [0x61; 0x40; 0x62; 0x2E; 0x3000]%N = false.
Proof. vm_compute. done. Qed.

(** ** The CSV text *)

Lemma string_app_cons (x : ascii) (a b : string) : String x a +:+ b = String x (a +:+ b).
Proof. reflexivity. Qed.

Lemma string_app_assoc (a b c : string) : (a +:+ b) +:+ c = a +:+ (b +:+ c).
Proof.
  induction a as [| x a IH]; [done |]. by rewrite !string_app_cons, IH.
Qed.

Lemma string_app_nil_r (a : string) : a +:+ "" = a.
Proof. induction a as [| x a IH]; [done |]. by rewrite string_app_cons, IH. Qed.

Lemma read_escape v rest cell row rows :
  CSV.read (CSV.escape v +:+ rest) CSV.InCell cell row rows
  = CSV.read rest CSV.InCell (cell +:+ v) row rows.
Proof.
  revert cell. induction v as [| c v IH]; intros cell; simpl.
  { by rewrite string_app_nil_r. }
  destruct (Ascii.eqb_spec c CSV.quote_char) as [-> | Hc]; simpl.
  - rewrite IH, string_app_assoc. done.
  - destruct (Ascii.eqb_spec c CSV.quote_char) as [| _]; [done |].
    rewrite IH, string_app_assoc. done.
Qed.

Lemma read_quoted v rest cell row rows :
  CSV.read (CSV.quoted v +:+ rest) CSV.Start cell row rows
  = CSV.read rest CSV.AfterQuote v row rows.
Proof.
  unfold CSV.quoted. simpl. rewrite string_app_assoc, read_escape. done.
Qed.

Lemma join_cons separator (x : string) (l : list string) :
  l ≠ [] → CSV.join separator (x :: l) = x +:+ String separator (CSV.join separator l).
Proof. by destruct l. Qed.

Lemma read_comma s cell row rows :
  CSV.read (String CSV.comma s) CSV.AfterQuote cell row rows
  = CSV.read s CSV.Start EmptyString (row ++ [cell]) rows.
Proof. reflexivity. Qed.

Lemma read_newline s cell row rows :
  CSV.read (String CSV.newline s) CSV.AfterQuote cell row rows
  = CSV.read s CSV.Start EmptyString [] (rows ++ [row ++ [cell]]).
Proof. reflexivity. Qed.

Lemma read_row pre cell rest cell0 row rows :
  CSV.read (CSV.join CSV.comma (CSV.quoted <$> pre ++ [cell]) +:+ rest) CSV.Start cell0 row rows
  = CSV.read rest CSV.AfterQuote cell (row ++ pre) rows.
Proof.
  revert cell0 row. induction pre as [| x pre IH]; intros cell0 row.
  { change (CSV.join CSV.comma (CSV.quoted <$> [] ++ [cell])) with (CSV.quoted cell).
    by rewrite read_quoted, app_nil_r. }
  rewrite <- app_comm_cons, fmap_cons, join_cons by (by destruct pre).
  rewrite string_app_assoc, read_quoted, string_app_cons, read_comma, IH, <- app_assoc.
  done.
Qed.

Lemma read_table (table : list (list string)) cell0 rows :
  table ≠ [] → Forall (λ row, row ≠ []) table →
  CSV.read (CSV.csvContent table) CSV.Start cell0 [] rows = Some (rows ++ table).
Proof.
  unfold CSV.csvContent. revert cell0 rows.
  induction table as [| r table IH]; intros cell0 rows Hne Hrows; [done |].
  apply Forall_cons in Hrows as [Hr Hrows].
  destruct (exists_last Hr) as (pre & cell & ->).
  destruct (decide (table = [])) as [-> | Hne'].
  - change (CSV.join CSV.newline
              ((λ row, CSV.join CSV.comma (CSV.quoted <$> row)) <$> [pre ++ [cell]]))
      with (CSV.join CSV.comma (CSV.quoted <$> pre ++ [cell])).
    rewrite <- (string_app_nil_r (CSV.join _ _)), read_row. done.
  - rewrite fmap_cons, join_cons by (by destruct table).
    rewrite read_row, read_newline, IH by done. by rewrite <- app_assoc.
Qed.

(** X17.  The CSV text keeps every cell.  Whatever the entries and however
    numbers are rendered, reading the text [convertToCSV] builds (cells in
    quotes, quotes within a cell doubled, commas and line feeds between)
    gives back the header row followed by one row of five cells per entry,
    with the text of every cell as it was; so two lists of entries with the
    same CSV text have the same cells. *)
Theorem X17_csv_round_trip `{NumberToString} (entries : list Entries.row) :
  CSV.parse (CSV.convertToCSV entries) = Some (CSV.headers :: (CSV.cells <$> entries)) ∧
  ∀ entries',
    CSV.convertToCSV entries' = CSV.convertToCSV entries →
    CSV.cells <$> entries' = CSV.cells <$> entries.
Proof.
  assert (∀ l, CSV.parse (CSV.convertToCSV l) = Some (CSV.headers :: (CSV.cells <$> l)))
    as Hparse.
  { intros l. unfold CSV.parse, CSV.convertToCSV.
    rewrite read_table; [done | done |].
    constructor; [done |]. apply Forall_fmap, Forall_forall. by intros entry _. }
  split; [apply Hparse |].
  intros entries' E. pose proof (Hparse entries') as H1.
  rewrite E, Hparse in H1. by injection H1.
Qed.

Example csv_history :
  @CSV.convertToCSV sample_numbers
    [ {| Entries.date := "2024-06-03"; Entries.day_of_week := Some "Monday"%string;
         Entries.start_time := "23:00"; Entries.end_time := "00:15";
         Entries.duration_hours := 125 # 100 |} ]
  = CSV.quoted "Date" +:+ "," +:+ CSV.quoted "Day" +:+ "," +:+ CSV.quoted "Start Time"
    +:+ "," +:+ CSV.quoted "End Time" +:+ "," +:+ CSV.quoted "Duration (Hours)"
    +:+ String CSV.newline
          (CSV.quoted "2024-06-03" +:+ "," +:+ CSV.quoted "Monday" +:+ ","
           +:+ CSV.quoted "23:00" +:+ "," +:+ CSV.quoted "00:15" +:+ ","
           +:+ CSV.quoted "0125").
Proof. vm_compute. reflexivity. Qed.

(** ** The elapsed-time display *)

Lemma Math_floor_3600 (a : Z) : Math_floor (inject_Z a / 3600) = a / 3600.
Proof. unfold Math_floor, Qfloor, Qdiv, Qmult, Qinv, inject_Z. simpl. f_equal. lia. Qed.

Lemma Math_floor_60 (a : Z) : Math_floor (inject_Z a / 60) = a / 60.
Proof. unfold Math_floor, Qfloor, Qdiv, Qmult, Qinv, inject_Z. simpl. f_equal. lia. Qed.

Lemma padStart_two (n : Z) :
  0 ≤ n < 100 → App.padStart 2 (App.String_of_int n) = pad 2 n.
Proof.
  intros Hn.
  assert (forallb (λ k, String.eqb (App.padStart 2 (App.String_of_int (Z.of_nat k)))
                                   (pad 2 (Z.of_nat k)))
                  (seq 0 100) = true) as Hall by (vm_compute; reflexivity).
  rewrite forallb_forall in Hall.
  specialize (Hall (Z.to_nat n)). rewrite Z2Nat.id in Hall by lia.
  apply String.eqb_eq, Hall, in_seq. lia.
Qed.

(** X18.  The running display shows the time since the session began.
    With a session and a browser clock that is not behind its start, the text
    is hours, minutes and seconds of the elapsed time, colon-separated: the
    minutes and seconds always two digits below 60, the hours the whole hours
    elapsed, two digits as long as they are fewer than 100.  Without a
    session the display is left alone. *)
Theorem X18_elapsed_display (sessionStartTime now : Z) :
  0 ≤ now - sessionStartTime →
  let d := now - sessionStartTime in
  App.updateElapsedTime (Some sessionStartTime) now
  = Some (App.padStart 2 (App.String_of_int (d / msPerHour)) +:+ ":" +:+
          pad 2 (MinFromTime d) +:+ ":" +:+ pad 2 (SecFromTime d)) ∧
  (d < 100 * msPerHour →
   App.updateElapsedTime (Some sessionStartTime) now
   = Some (pad 2 (d / msPerHour) +:+ ":" +:+
           pad 2 (MinFromTime d) +:+ ":" +:+ pad 2 (SecFromTime d))) ∧
  App.updateElapsedTime None now = None.
Proof.
  intros Hd d. fold d in Hd.
  assert (App.updateElapsedTime (Some sessionStartTime) now
          = Some (App.padStart 2 (App.String_of_int (d / msPerHour)) +:+ ":" +:+
                  pad 2 (MinFromTime d) +:+ ":" +:+ pad 2 (SecFromTime d))) as E.
  { unfold App.updateElapsedTime. fold d.
    rewrite Math_floor_seconds, Math_floor_3600, Math_floor_60.
    assert (d / 1000 / 3600 = d / msPerHour) as ->.
    { unfold msPerHour. Z.to_euclidean_division_equations. lia. }
    assert (Z.rem (d / 1000) 3600 / 60 = MinFromTime d) as ->.
    { unfold MinFromTime, msPerMinute. Z.to_euclidean_division_equations. lia. }
    assert (Z.rem (d / 1000) 60 = SecFromTime d) as ->.
    { unfold SecFromTime, msPerSecond. Z.to_euclidean_division_equations. lia. }
    rewrite (padStart_two (MinFromTime d)), (padStart_two (SecFromTime d)); [done | |].
    - unfold SecFromTime. pose proof (Z.mod_pos_bound (d / msPerSecond) 60). lia.
    - unfold MinFromTime. pose proof (Z.mod_pos_bound (d / msPerMinute) 60). lia. }
  split_and!; [done | | done].
  intros Hlt. rewrite E, padStart_two; [done |].
  unfold msPerHour in *. Z.to_euclidean_division_equations. lia.
Qed.

Lemma X18_elapsed_display_witness :
  App.updateElapsedTime (Some Sample.sat_0800) (Sample.sat_0900 + 61500)
  = Some "01:01:01"%string.
Proof.
  destruct (X18_elapsed_display Sample.sat_0800 (Sample.sat_0900 + 61500)) as (_ & E & _).
  - vm_compute. discriminate.
  - rewrite E; [reflexivity |]. vm_compute. reflexivity.
Defined.

(** A browser clock half a second behind the start of the session. *)
Example elapsed_display_clock_behind :
  App.updateElapsedTime (Some 1000) 500 = Some "-1:-1:-1"%string.
Proof. vm_compute. reflexivity. Qed.

(** ** Clock-in without a usable time zone *)

(** X19.  A clock-in that names no usable time zone creates nothing, and is
    refused before the weekend rule and the open entry are looked at.  For a
    POST with a session: when the request has no body at all the answer is
    the 500 of the handler's catch; when the body has no [timezone], or one
    that is not a non-empty string, the answer is 400 "Timezone is required.";
    either way the tables are unchanged, whatever the day and whether or not
    the user is clocked in, through either clock-in handler. *)
Theorem X19_clock_in_needs_timezone `{Intl} (now : Z) (db : DB) (request : request)
    (user : U.user) :
  method request = "POST"%string →
  getCurrentUser db request = Some user →
  (body request = JUndefined ∨ body request = JNull →
   ClockIn.handler now db request = (db, something_went_wrong) ∧
   ClockIn.handler_ungated now db request = (db, something_went_wrong)) ∧
  (∀ timezone,
     getprop (body request) "timezone" = Some timezone →
     (∀ tz, timezone = JString tz → tz = ""%string) →
     ClockIn.handler now db request = (db, sendError 400 "Timezone is required.") ∧
     ClockIn.handler_ungated now db request = (db, sendError 400 "Timezone is required.")) ∧
  (∀ fields,
     body request = JObject fields →
     getprop (body request) "timezone" = Some (assoc "timezone" fields)) ∧
  (∀ reply,
     ClockIn.handler now db request = (db, reply) ∨
     ClockIn.handler_ungated now db request = (db, reply) →
     reply = sendError 400 "Timezone is required." →
     ∀ tz, getprop (body request) "timezone" = Some (JString tz) → tz = ""%string).
Proof.
  intros Hm Hu. unfold ClockIn.handler, ClockIn.handler_ungated. rewrite Hm, Hu. simpl.
  split_and!.
  - by intros [-> | ->].
  - intros timezone -> Hv.
    destruct timezone as [| | b | q | tz |]; simpl; try done.
    + by destruct b.
    + by destruct (negb (Qeq_bool q 0)).
    + by rewrite (Hv tz eq_refl).
  - by intros fields ->.
  - intros reply Hr -> tz Htz. rewrite Htz in Hr. simpl in Hr.
    destruct (String.eqb_spec tz "") as [| Hne]; [done |]. simpl in Hr.
    destruct Hr as [Hr | Hr].
    + destruct (checkWeekendRestriction tz now) as [msg |] eqn:Hw.
      * injection Hr as ->.
        apply restriction_message in Hw as [[=] | [=]].
      * destruct (select_open db (U.id user)); [| done].
        by destruct (insert_entry db (U.id user) now tz) as [[? []] |].
    + destruct (select_open db (U.id user)); [| done].
      by destruct (insert_entry db (U.id user) now tz) as [[? []] |].
Qed.

Lemma X19_clock_in_needs_timezone_witness :
  @ClockIn.handler always_sunday Sample.mon_0900 (Sample.working Sample.sat_0800 "UTC")
    (Sample.post (JObject [("timezone"%string, JNumber 5)]))
  = (Sample.working Sample.sat_0800 "UTC", sendError 400 "Timezone is required.").
Proof.
  destruct (@X19_clock_in_needs_timezone always_sunday Sample.mon_0900
              (Sample.working Sample.sat_0800 "UTC")
              (Sample.post (JObject [("timezone"%string, JNumber 5)]))
              Sample.alice eq_refl eq_refl) as (_ & Hbad & _).
  apply (Hbad (JNumber 5)); [reflexivity | discriminate].
Defined.

(** ** The heatmap grid of the page *)

Section Grid.
Context `{App.TimeZone} (tza : Z).
Hypothesis constant_offset : ∀ t b, App.LocalTZA t b = tza.
Hypothesis offset_range : - msPerDay < tza < msPerDay.

Lemma TimeClip_midnight D :
  -99999900 ≤ D ≤ 99999900 → App.TimeClip (local_midnight tza D) = Some (local_midnight tza D).
Proof.
  intros HD. unfold App.TimeClip, local_midnight, msPerDay in *.
  destruct (Z.leb_spec (Z.abs (D * 86400000 - tza)) 8640000000000000); [done | lia].
Qed.

Lemma year_days yr :
  -271820 ≤ yr ≤ 275759 →
  -99999900 ≤ DayFromYear yr ∧ DayFromYear yr + 366 ≤ 99999900.
Proof. intros Hy. unfold DayFromYear. Z.to_euclidean_division_equations. lia. Qed.

Lemma new_Date_midnight year month date :
  -99999900 ≤ MakeDay (App.MakeFullYear year) month date ≤ 99999900 →
  App.new_Date year month date
  = Some (local_midnight tza (MakeDay (App.MakeFullYear year) month date)).
Proof.
  intros HD. unfold App.new_Date, App.UTC_of_local. rewrite constant_offset.
  replace (MakeDate (MakeDay (App.MakeFullYear year) month date) (MakeTime 0 0 0 0) - tza)
    with (local_midnight tza (MakeDay (App.MakeFullYear year) month date))
    by (unfold MakeDate, MakeTime, local_midnight; lia).
  by apply TimeClip_midnight.
Qed.

Lemma LocalTime_midnight D : App.LocalTime (local_midnight tza D) = D * msPerDay.
Proof. unfold App.LocalTime, local_midnight. rewrite constant_offset. lia. Qed.

Lemma MakeDay_succ y m dt : MakeDay y m (dt + 1) = MakeDay y m dt + 1.
Proof. unfold MakeDay. lia. Qed.

Lemma setDate_next D :
  -99999900 ≤ D + 1 ≤ 99999900 →
  App.setDate (local_midnight tza D) (App.getDate (local_midnight tza D) + 1)
  = Some (local_midnight tza (D + 1)).
Proof.
  intros HD. unfold App.setDate, App.getDate.
  rewrite LocalTime_midnight. cbv zeta.
  destruct (MakeDay_inverse (D * msPerDay)) as [E _].
  rewrite MakeDay_succ, E, Day_of_midnight.
  assert (TimeWithinDay (D * msPerDay) = 0) as ->.
  { unfold TimeWithinDay. apply Z.mod_mul. unfold msPerDay. lia. }
  unfold App.UTC_of_local. rewrite constant_offset.
  replace (MakeDate (D + 1) 0 - tza) with (local_midnight tza (D + 1))
    by (unfold MakeDate, local_midnight; lia).
  by apply TimeClip_midnight.
Qed.

Lemma isoDate_midnight D :
  isoDate (local_midnight tza D) = isoDate ((if 0 <? tza then D - 1 else D) * msPerDay).
Proof.
  apply isoDate_Day. rewrite Day_of_midnight.
  unfold Day, local_midnight, msPerDay in *.
  destruct (Z.ltb_spec 0 tza); Z.to_euclidean_division_equations; lia.
Qed.

Lemma fill_weeks_run (today : Z) (daysData : gmap string (option Q)) (Dlast : Z) (r : nat) :
  ∀ D fuel currentWeek weeks,
    Dlast + 1 - D = Z.of_nat r → (r < fuel)%nat →
    -99999900 ≤ D → Dlast + 1 ≤ 99999900 →
    (length currentWeek < 7)%nat → Forall (λ week, length week = 7%nat) weeks →
    ∃ currentWeek' weeks',
      App.fill_weeks fuel (Some (local_midnight tza Dlast)) today daysData
        (Some (local_midnight tza D)) currentWeek weeks
      = Some (currentWeek', weeks') ∧
      mjoin weeks' ++ currentWeek'
      = mjoin weeks ++ currentWeek ++
        ((λ d, Some (day_cell daysData today (local_midnight tza d))) <$> seqZ D (Z.of_nat r)) ∧
      (length currentWeek' < 7)%nat ∧ Forall (λ week, length week = 7%nat) weeks'.
Proof.
  induction r as [| r IH]; intros D fuel cw ws HD Hfuel Hlo Hhi Hcw Hws;
    (destruct fuel as [| fuel]; [lia |]); cbn [App.fill_weeks].
  - destruct (Z.leb_spec (local_midnight tza D) (local_midnight tza Dlast)) as [Hle | _].
    { unfold local_midnight, msPerDay in Hle. lia. }
    exists cw, ws. rewrite seqZ_nil by lia. by rewrite fmap_nil, app_nil_r.
  - destruct (Z.leb_spec (local_midnight tza D) (local_midnight tza Dlast)) as [_ | Hgt];
      [| unfold local_midnight, msPerDay in Hgt; lia].
    rewrite split_T_0_toISOString, setDate_next by lia.
    fold (day_cell daysData today (local_midnight tza D)).
    rewrite seqZ_cons, fmap_cons by lia.
    replace (Z.pred (Z.of_nat (S r))) with (Z.of_nat r) by lia.
    replace (Z.succ D) with (D + 1) by lia.
    rewrite length_app. simpl length.
    destruct (Nat.eqb_spec (length cw + 1) 7) as [E | E].
    + destruct (IH (D + 1) fuel [] (ws ++ [cw ++ [Some (day_cell daysData today
                                                   (local_midnight tza D))]]))
        as (cw' & ws' & -> & Hj & Hcw' & Hws'); try lia.
      { simpl. lia. }
      { apply Forall_app. split; [done |]. constructor; [| done].
        rewrite length_app. simpl. lia. }
      exists cw', ws'. split_and!; [done | | done | done].
      rewrite Hj, join_app. simpl. rewrite app_nil_r, <- !app_assoc. done.
    + destruct (IH (D + 1) fuel (cw ++ [Some (day_cell daysData today (local_midnight tza D))])
                  ws) as (cw' & ws' & -> & Hj & Hcw' & Hws'); try lia.
      { rewrite length_app. simpl. lia. }
      { done. }
      exists cw', ws'. split_and!; [done | | done | done].
      rewrite Hj, <- !app_assoc. done.
Qed.

End Grid.

Lemma render_cell_Some (d : option App.day) : is_Some (App.render_cell (Some d)).
Proof. destruct d; by eexists. Qed.

(** The grid is the transpose of the weeks. *)
Lemma grid_transpose (weeks : list (list (option App.day))) :
  Forall (λ week, length week = 7%nat) weeks →
  ∃ cells,
    App.grid weeks = Some cells ∧
    length cells = (7 * length weeks)%nat ∧
    ∀ w d c,
      (d < 7)%nat → mjoin weeks !! (w * 7 + d)%nat = Some c →
      ∃ cl, App.render_cell (Some c) = Some cl ∧
            cells !! (d * length weeks + w)%nat = Some cl.
Proof.
  intros Hweeks. unfold App.grid.
  assert (is_Some (mapM (λ dayOfWeek,
                           mapM (λ week, App.render_cell (week !! dayOfWeek)) weeks)
                     (seq 0 7))) as [rows Hrows].
  { apply mapM_is_Some_2, Forall_forall. intros d Hd%elem_of_seq. simpl.
    apply mapM_is_Some_2. eapply Forall_impl; [exact Hweeks |]. simpl.
    intros week Hlen. destruct (week !! d) as [c |] eqn:E; [apply render_cell_Some |].
    apply lookup_ge_None in E. lia. }
  rewrite Hrows. simpl. exists (mjoin rows).
  apply mapM_Some_1 in Hrows.
  assert (Forall (λ row, length row = length weeks) rows) as Hlen.
  { apply Forall_forall. intros row Hrow.
    apply list_elem_of_lookup in Hrow as [d Hrow].
    destruct (Forall2_lookup_r _ _ _ _ _ Hrows Hrow) as (d' & _ & Hm).
    by apply length_mapM in Hm. }
  split_and!; [done | |].
  - rewrite length_join, (sum_list_fmap_same (length weeks)) by done.
    apply Forall2_length in Hrows. rewrite length_seq in Hrows. rewrite <- Hrows. lia.
  - intros w d c Hd Hc.
    apply (join_lookup_Some_same_length' 7) in Hc as (week & Hw & Hc); [| done | done].
    destruct (Forall2_lookup_l _ _ _ d d Hrows) as (row & Hrow & Hm).
    { by apply lookup_seq. }
    apply mapM_Some_1 in Hm.
    destruct (Forall2_lookup_l _ _ _ w week Hm Hw) as (cl & Hcl & Hr).
    rewrite Hc in Hr. exists cl. split; [done |].
    apply (join_lookup_Some_same_length' (length weeks)); [done | |].
    + by apply lookup_lt_Some in Hw.
    + by exists row.
Qed.

(** X20.  The grid of the page holds every day of the year once, in the row
    of its weekday, and labels it with the UTC date of its local midnight.
    For a browser in a zone that keeps one offset from UTC (less than a day)
    and a year the calendar can hold, the loop of [renderHeatmap] ends within
    367 rounds; every week has seven cells; the weeks, read in order, are the
    cells of the days of the year from January 1, after as many empty cells
    as the weekday of January 1 and before fewer than seven empty cells; the
    grid is the transpose of the weeks, so that day [k] of the year sits in
    the row of its weekday and in the column of its week.  The date a cell
    shows, and under which it looks up its hours, is the date of the day
    itself in UTC and west of it, and the date of the day before in a zone
    east of UTC, where the first cell is labelled December 31 of the year
    before. *)
Theorem X20_heatmap_grid `{App.TimeZone} (tza : Z) (fuel : nat) (year : Z)
    (daysData : gmap string (option Q)) (today : Z) :
  (∀ t b, App.LocalTZA t b = tza) →
  - msPerDay < tza < msPerDay →
  -271820 ≤ App.MakeFullYear year ≤ 275759 →
  (366 < fuel)%nat →
  let yr := App.MakeFullYear year in
  let first := DayFromYear yr in
  let offset := Z.to_nat (WeekDay (first * msPerDay)) in
  let days :=
    (λ d, Some (day_cell daysData today (local_midnight tza d)))
      <$> seqZ first (DaysInYear yr) in
  ∃ weeks cells,
    App.weeks_of fuel year daysData today = Some weeks ∧
    Forall (λ week, length week = 7%nat) weeks ∧
    (∃ trailing,
       (trailing < 7)%nat ∧
       mjoin weeks = replicate offset None ++ days ++ replicate trailing None) ∧
    App.grid weeks = Some cells ∧
    length cells = (7 * length weeks)%nat ∧
    (∀ k, 0 ≤ k < DaysInYear yr →
       let position := (offset + Z.to_nat k)%nat in
       Z.of_nat (position mod 7) = WeekDay ((first + k) * msPerDay) ∧
       ∃ cl,
         App.render_cell
           (Some (Some (day_cell daysData today (local_midnight tza (first + k)))))
         = Some cl ∧
         cells !! ((position mod 7) * length weeks + position / 7)%nat = Some cl) ∧
    (∀ d, isoDate (local_midnight tza d)
          = isoDate ((if 0 <? tza then d - 1 else d) * msPerDay)) ∧
    (∀ k, 0 ≤ k < DaysInYear yr → YearFromTime ((first + k) * msPerDay) = yr) ∧
    YearFromTime ((first - 1) * msPerDay) = yr - 1.
Proof.
  intros Hconst Htza Hyear Hfuel yr first offset days.
  pose proof (year_days yr Hyear) as [Hlo Hhi]. fold first in Hlo, Hhi.
  pose proof (DaysInYear_cases yr) as Hn.
  assert (0 ≤ WeekDay (first * msPerDay) < 7) as Hw
    by (unfold WeekDay; apply Z.mod_pos_bound; lia).
  assert (MakeDay yr 0 1 = first) as E0 by (unfold MakeDay, DayFromMonth; lia).
  assert (MakeDay yr 11 31 = first + DaysInYear yr - 1) as E1.
  { unfold MakeDay, DayFromMonth. fold first.
    destruct Hn as [-> | ->]; simpl; lia. }
  unfold App.weeks_of.
  rewrite (new_Date_midnight tza Hconst Htza year 0 1),
    (new_Date_midnight tza Hconst Htza year 11 31);
    fold yr; rewrite ?E0, ?E1; [| lia | lia].
  simpl fmap. unfold App.getDay. rewrite (LocalTime_midnight tza Hconst). fold offset.
  destruct (fill_weeks_run tza Hconst Htza today daysData (first + DaysInYear yr - 1)
              (Z.to_nat (DaysInYear yr)) first fuel (replicate offset None) [])
    as (cw & ws & -> & Hj & Hcw & Hws); try lia.
  { rewrite length_replicate. lia. }
  { constructor. }
  rewrite Z2Nat.id in Hj by lia. fold days in Hj. simpl in Hj.
  set (weeks := if (0 <? length cw)%nat
                then ws ++ [cw ++ replicate (7 - length cw) None] else ws).
  assert (Forall (λ week, length week = 7%nat) weeks) as Hweeks.
  { subst weeks. destruct (Nat.ltb_spec 0 (length cw)); [| done].
    apply Forall_app. split; [done |]. constructor; [| done].
    rewrite length_app, length_replicate. lia. }
  assert (∃ trailing, (trailing < 7)%nat ∧
            mjoin weeks = replicate offset None ++ days ++ replicate trailing None)
    as (trailing & Htr & Hjoin).
  { subst weeks. destruct (Nat.ltb_spec 0 (length cw)) as [Hpos | Hzero].
    - exists (7 - length cw)%nat. split; [lia |].
      rewrite join_app. simpl. rewrite app_nil_r, app_assoc, Hj, <- app_assoc. done.
    - exists 0%nat. split; [lia |]. destruct cw; [| simpl in Hzero; lia].
      rewrite app_nil_r in Hj. rewrite Hj. simpl. by rewrite app_nil_r. }
  destruct (grid_transpose weeks Hweeks) as (cells & Hgrid & Hlen & Hcells).
  exists weeks, cells. split_and!; try done.
  - by exists trailing.
  - intros k Hk. set (position := (offset + Z.to_nat k)%nat). split.
    + subst position offset. unfold WeekDay in *. rewrite !Day_of_midnight.
      rewrite Day_of_midnight in Hw.
      rewrite Nat2Z.inj_mod, Nat2Z.inj_add, !Z2Nat.id by lia.
      change (Z.of_nat 7) with 7. Z.to_euclidean_division_equations. lia.
    + apply Hcells; [apply Nat.mod_upper_bound; lia |].
      replace (position `div` 7 * 7 + position `mod` 7)%nat with position
        by (pose proof (Nat.div_mod_eq position 7); lia).
      rewrite Hjoin. subst position.
      rewrite lookup_app_r by (rewrite length_replicate; lia).
      rewrite length_replicate.
      replace (offset + Z.to_nat k - offset)%nat with (Z.to_nat k) by lia.
      rewrite lookup_app_l by (subst days; rewrite length_fmap, length_seqZ; lia).
      subst days. rewrite list_lookup_fmap, lookup_seqZ_lt by lia.
      simpl. by rewrite Z2Nat.id by lia.
  - apply (isoDate_midnight tza Htza).
  - intros k Hk. apply YearFromTime_in_year.
    pose proof (DayFromYear_succ yr) as Hs. fold first in Hs.
    unfold TimeFromYear. fold first. rewrite Hs. unfold msPerDay. lia.
  - apply YearFromTime_in_year.
    pose proof (DayFromYear_succ (yr - 1)) as Hs.
    replace (yr - 1 + 1) with yr in * by lia. fold first in Hs.
    pose proof (DaysInYear_cases (yr - 1)).
    unfold TimeFromYear. rewrite Hs. unfold msPerDay. lia.
Qed.

Lemma X20_heatmap_grid_witness :
  ∃ weeks cells,
    @App.weeks_of browser_tokyo 400 2024 ∅ Sample.fri_1200 = Some weeks ∧
    Forall (λ week, length week = 7%nat) weeks ∧
    App.grid weeks = Some cells ∧
    isoDate (local_midnight (9 * msPerHour) (DayFromYear 2024)) = "2023-12-31"%string.
Proof.
  destruct (@X20_heatmap_grid browser_tokyo (9 * msPerHour) 400 2024 ∅ Sample.fri_1200)
    as (weeks & cells & Hweeks & Hseven & _ & Hgrid & _ & _ & Hdate & _).
  - reflexivity.
  - unfold msPerDay, msPerHour. lia.
  - unfold App.MakeFullYear. simpl. lia.
  - lia.
  - exists weeks, cells. split_and!; [done | done | done |].
    rewrite Hdate. vm_compute. reflexivity.
Defined.

(** The first cell of 2024 in Tokyo, in UTC and in Phoenix. *)
Example first_cell_2024 :
  isoDate (local_midnight (9 * msPerHour) (DayFromYear 2024)) = "2023-12-31"%string ∧
  isoDate (local_midnight 0 (DayFromYear 2024)) = "2024-01-01"%string ∧
  isoDate (local_midnight (-7 * msPerHour) (DayFromYear 2024)) = "2024-01-01"%string.
Proof. vm_compute. done. Qed.

(** X21.  The shade of a cell.  The level of a day is 0 exactly when its
    hours are zero (which is what a day without a key in the heatmap gets);
    it is 1 exactly for other hours below 2, 2 exactly from 2 hours to below
    5, 3 exactly from 5 hours to below 10 and 4 exactly from 10 hours on, so
    that on non-negative hours more hours never give a lower level; and a
    negative total is shown at level 1, as if some work had been done. *)
Theorem X21_heat_levels (h1 h2 : Q) :
  (App.getHeatLevel h1 = 0 ↔ (h1 == 0)%Q) ∧
  (App.getHeatLevel h1 = 1 ↔ ¬ (h1 == 0)%Q ∧ (h1 < 2)%Q) ∧
  (App.getHeatLevel h1 = 2 ↔ (2 <= h1)%Q ∧ (h1 < 5)%Q) ∧
  (App.getHeatLevel h1 = 3 ↔ (5 <= h1)%Q ∧ (h1 < 10)%Q) ∧
  (App.getHeatLevel h1 = 4 ↔ (10 <= h1)%Q) ∧
  0 ≤ App.getHeatLevel h1 ≤ 4 ∧
  ((0 <= h1)%Q → (h1 <= h2)%Q → App.getHeatLevel h1 ≤ App.getHeatLevel h2) ∧
  ((h1 < 0)%Q → App.getHeatLevel h1 = 1) ∧
  (∀ daysData today t,
     daysData !! isoDate t = None →
     App.getHeatLevel (App.hours (day_cell daysData today t)) = 0).
Proof.
  assert (∀ h n, App.Qltb h n = true ↔ (h < n)%Q) as Hlt.
  { intros h n. unfold App.Qltb. rewrite negb_true_iff, <- not_true_iff_false, Qle_bool_iff.
    split; [apply Qnot_le_lt | apply Qlt_not_le]. }
  assert (∀ h,
            ((h == 0)%Q ∧ App.getHeatLevel h = 0) ∨
            (¬ (h == 0)%Q ∧ (h < 2)%Q ∧ App.getHeatLevel h = 1) ∨
            ((2 <= h)%Q ∧ (h < 5)%Q ∧ App.getHeatLevel h = 2) ∨
            ((5 <= h)%Q ∧ (h < 10)%Q ∧ App.getHeatLevel h = 3) ∨
            ((10 <= h)%Q ∧ App.getHeatLevel h = 4)) as Hcases.
  { intros h. unfold App.getHeatLevel.
    destruct (Qeq_bool h 0) eqn:E0.
    { left. by apply Qeq_bool_iff in E0. }
    assert (¬ (h == 0)%Q) as Hne.
    { intros E. apply Qeq_bool_iff in E. congruence. }
    destruct (App.Qltb h 2) eqn:E2.
    { right; left. by apply Hlt in E2. }
    assert (2 <= h)%Q as H2.
    { apply Qnot_lt_le. intros Hc. apply Hlt in Hc. congruence. }
    destruct (App.Qltb h 5) eqn:E5.
    { right; right; left. by apply Hlt in E5. }
    assert (5 <= h)%Q as H5.
    { apply Qnot_lt_le. intros Hc. apply Hlt in Hc. congruence. }
    destruct (App.Qltb h 10) eqn:E10.
    { right; right; right; left. by apply Hlt in E10. }
    right; right; right; right. split; [| done].
    apply Qnot_lt_le. intros Hc. apply Hlt in Hc. congruence. }
  refine (conj _ (conj _ (conj _ (conj _ (conj _ (conj _ (conj _ (conj _ _)))))))).
  - destruct (Hcases h1) as [[? ->] | [(? & ? & ->) | [(? & ? & ->) | [(? & ? & ->) | [? ->]]]]];
      split; try done; intros E; rewrite E in *; lra.
  - destruct (Hcases h1) as [[? ->] | [(? & ? & ->) | [(? & ? & ->) | [(? & ? & ->) | [? ->]]]]];
      split; try done; intros [Hne Hlt2]; lra.
  - destruct (Hcases h1) as [[E ->] | [(? & ? & ->) | [(? & ? & ->) | [(? & ? & ->) | [? ->]]]]];
      split; try done; intros [Hlo Hhi]; lra.
  - destruct (Hcases h1) as [[E ->] | [(? & ? & ->) | [(? & ? & ->) | [(? & ? & ->) | [? ->]]]]];
      split; try done; intros [Hlo Hhi]; lra.
  - destruct (Hcases h1) as [[? ->] | [(? & ? & ->) | [(? & ? & ->) | [(? & ? & ->) | [? ->]]]]];
      split; try done; intros; lra.
  - destruct (Hcases h1) as [[? ->] | [(? & ? & ->) | [(? & ? & ->) | [(? & ? & ->) | [? ->]]]]];
      lia.
  - intros Hpos Hle.
    destruct (Hcases h1)
      as [[? ->] | [(? & ? & ->) | [(? & ? & ->) | [(? & ? & ->) | [? ->]]]]];
      destruct (Hcases h2)
        as [[? ->] | [(? & ? & ->) | [(? & ? & ->) | [(? & ? & ->) | [? ->]]]]];
      try lia; lra.
  - intros Hneg.
    destruct (Hcases h1) as [[? ?] | [(? & ? & ->) | [(? & ? & ?) | [(? & ? & ?) | [? ?]]]]];
      try done; lra.
  - intros daysData today t Hk. unfold day_cell. simpl. by rewrite Hk.
Qed.

(** ** Registration and the users table *)

Lemma register_cases `{Strings} id passwordHash sessionToken table request :
  (∃ status message,
     Register.handler id passwordHash sessionToken table request
     = (table, Error status message)) ∨
  ∃ raw password,
    method request = "POST"%string ∧
    getprop (body request) "email" = Some (JString raw) ∧ raw ≠ ""%string ∧
    getprop (body request) "password" = Some (JString password) ∧
    (8 ≤ String.length password)%nat ∧
    isValidEmail (code_units (trim (toLowerCase raw))) = true ∧
    Users.select_by_email table (trim (toLowerCase raw)) = [] ∧
    (id ∉ Users.id <$> table) ∧
    Register.handler id passwordHash sessionToken table request
    = (table ++ [{| Users.id := id; Users.email := trim (toLowerCase raw);
                    Users.password_hash := passwordHash;
                    Users.session_token := Some sessionToken |}],
       Json 201 (id, trim (toLowerCase raw))).
Proof.
  unfold Register.handler.
  destruct (String.eqb_spec (method request) "POST") as [Hm | _]; simpl;
    [| left; by eexists _, _].
  destruct (getprop (body request) "email") as [email |]; [| left; by eexists _, _].
  destruct (getprop (body request) "password") as [password |]; [| left; by eexists _, _].
  destruct (if truthy email then as_string email else None) as [raw |] eqn:He;
    [| left; by eexists _, _].
  apply truthy_string in He as [-> Hraw].
  destruct (if truthy password then as_string password else None) as [pw |] eqn:Hp;
    [| left; by eexists _, _].
  apply truthy_string in Hp as [-> Hpw].
  destruct (isValidEmail (code_units (trim (toLowerCase raw)))) eqn:Hvalid; simpl;
    [| left; by eexists _, _].
  destruct (Nat.ltb_spec (String.length pw) 8) as [| Hlen]; [left; by eexists _, _ |].
  destruct (Users.select_by_email table (trim (toLowerCase raw))) eqn:Hsel;
    [| left; by eexists _, _].
  destruct (Users.fits (trim (toLowerCase raw)) && Users.fits passwordHash
            && Users.fits sessionToken && bool_decide (id ∉ Users.id <$> table)) eqn:Hok;
    [| left; by eexists _, _].
  apply andb_prop in Hok as [_ Hfresh]. apply bool_decide_eq_true in Hfresh.
  right. by exists raw, pw.
Qed.

Lemma select_by_email_nil table email :
  Users.select_by_email table email = [] → ∀ r, r ∈ table → Users.email r ≠ email.
Proof.
  intros Hsel r Hr E.
  assert (r ∈ Users.select_by_email table email) as Hin by by apply list_elem_of_filter.
  rewrite Hsel in Hin. by apply elem_of_nil in Hin.
Qed.

Lemma filter_token_none (l : list U.user) (t : string) :
  (∀ u, u ∈ l → U.session_token u ≠ Some t) →
  filter (λ u, U.session_token u = Some t) l = [].
Proof.
  induction l as [| u l IH]; [done |]. intros Hl. rewrite filter_cons.
  destruct (decide (U.session_token u = Some t)) as [Ht | _].
  - destruct (Hl u); [left | done].
  - apply IH. intros u' Hu'. apply Hl. by right.
Qed.

(** X22.  Registration creates an account only for a valid address that is
    not taken and a password of eight characters or more, and the account it
    creates can log in.  Every answer other than 201 leaves the users table
    as it is.  With 201 one row is appended, holding the id and the email of
    the answer, the hash and the session token; the email is the address of
    the request in lower case and trimmed, [isValidEmail] accepts it, no other
    row has it, and the password of the request has at least 8 characters; a
    request carrying the token (non-empty and new) is then a request of the
    new user; and a login with the body of the registration is answered 200
    with the same id and email, provided bcrypt matches the password with the
    stored hash. *)
Theorem X22_register_creates_account `{Strings, Bcrypt} (id : Z)
    (passwordHash sessionToken : string) (db : DB) (table table' : list Users.row)
    (request : request) :
  (∀ status message,
     Register.handler id passwordHash sessionToken table request
     = (table', Error status message) → table' = table) ∧
  (∀ uid email,
     Register.handler id passwordHash sessionToken table request
     = (table', Json 201 (uid, email)) →
     uid = id ∧
     table' = table ++ [{| Users.id := id; Users.email := email;
                           Users.password_hash := passwordHash;
                           Users.session_token := Some sessionToken |}] ∧
     isValidEmail (code_units email) = true ∧
     (∀ r, r ∈ table → Users.email r ≠ email ∧ Users.id r ≠ id) ∧
     (∃ raw password,
        getprop (body request) "email" = Some (JString raw) ∧
        email = trim (toLowerCase raw) ∧
        getprop (body request) "password" = Some (JString password) ∧
        (8 ≤ String.length password)%nat ∧
        ∀ token' request',
          method request' = "POST"%string → body request' = body request →
          compare (JString password) passwordHash = Some true →
          Users.fits token' = true →
          Login.handler token' table' request'
          = (Users.set_session_token table' id (Some token'), Json 200 (id, email))) ∧
     (sessionToken ≠ ""%string →
      (∀ r, r ∈ table → Users.session_token r ≠ Some sessionToken) →
      ∀ request',
        cookie_session request' = Some sessionToken →
        getCurrentUser (with_users db table') request'
        = Some {| U.id := id; U.email := email; U.session_token := Some sessionToken |})).
Proof.
  destruct (register_cases id passwordHash sessionToken table request)
    as [(st & msg & E) | (raw & pw & Hm & He & Hraw & Hp & Hlen & Hvalid & Hsel & Hfresh & E)];
    rewrite E.
  { split; [by intros ? ? [= <-] | done]. }
  split; [done |].
  intros uid email [= <- <- <-].
  pose proof (select_by_email_nil _ _ Hsel) as Hnew.
  split_and!; try done.
  - intros r Hr. split; [by apply Hnew |].
    intros Hid. apply Hfresh. apply list_elem_of_fmap. by exists r.
  - exists raw, pw. split_and!; try done.
    intros token' request' Hm' Hb Hcmp Hfit.
    unfold Login.handler. rewrite Hm', Hb, He, Hp. simpl.
    destruct (String.eqb_spec raw "") as [| _]; [done |].
    assert (pw ≠ ""%string) as Hpw by (intros ->; simpl in Hlen; lia).
    destruct (String.eqb_spec pw "") as [| _]; [done |]. simpl.
    unfold Users.select_by_email in *. rewrite filter_app, Hsel, filter_cons, filter_nil.
    simpl. destruct (decide (trim (toLowerCase raw) = trim (toLowerCase raw))); [| done].
    simpl. by rewrite Hcmp, Hfit.
  - intros Hne Htok request' Hc. unfold getCurrentUser. rewrite Hc.
    destruct (String.eqb_spec sessionToken "") as [| _]; [done |].
    simpl. rewrite fmap_app, filter_app.
    rewrite (filter_token_none (Users.user <$> table) sessionToken).
    2: { intros u (r & -> & Hr)%list_elem_of_fmap. by apply Htok. }
    simpl. rewrite filter_cons, filter_nil. simpl.
    by destruct (decide (Some sessionToken = Some sessionToken)).
Qed.

Example register_alice :
  @Register.handler ascii_strings 1 "$2a$10$correct horse" "a1b2c3" []
    {| method := "POST"; cookie_session := None;
       body := JObject [("email"%string, JString " Alice@Example.org ");
                        ("password"%string, JString "correct horse")] |}
  = ([alice_row], Json 201 (1, "alice@example.org"%string)) ∧
  @Register.handler ascii_strings 2 "$2a$10$12345678" "d4e5f6" [alice_row]
    {| method := "POST"; cookie_session := None;
       body := JObject [("email"%string, JString "ALICE@example.org");
                        ("password"%string, JString "12345678")] |}
  = ([alice_row], Error 400 "An account with this email already exists.") ∧
  @Register.handler ascii_strings 2 "$2a$10$1234567" "d4e5f6" [alice_row]
    {| method := "POST"; cookie_session := None;
       body := JObject [("email"%string, JString "bob@example.org");
                        ("password"%string, JString "1234567")] |}
  = ([alice_row], Error 400 "Password must be at least 8 characters.").
Proof. vm_compute. done. Qed.

Lemma set_session_token_ids table uid token :
  Users.id <$> Users.set_session_token table uid token = Users.id <$> table.
Proof.
  unfold Users.set_session_token. rewrite <- list_fmap_compose. apply list_fmap_ext.
  intros _ r _. simpl. by destruct (decide (Users.id r = uid)).
Qed.

Lemma set_session_token_emails table uid token :
  Users.email <$> Users.set_session_token table uid token = Users.email <$> table.
Proof.
  unfold Users.set_session_token. rewrite <- list_fmap_compose. apply list_fmap_ext.
  intros _ r _. simpl. by destruct (decide (Users.id r = uid)).
Qed.

Lemma users_consistent_set_session_token table uid token :
  users_consistent table → users_consistent (Users.set_session_token table uid token).
Proof.
  intros (Hid & Hemail & Hvalid). unfold users_consistent.
  rewrite set_session_token_ids, set_session_token_emails. split_and!; [done | done |].
  intros r' (r & -> & Hr)%list_elem_of_fmap.
  destruct (decide (Users.id r = uid)); simpl; by apply Hvalid.
Qed.

Lemma user_delete table uid :
  Users.user <$> Users.delete table uid
  = filter (λ u, U.id u ≠ uid) (Users.user <$> table).
Proof.
  unfold Users.delete. induction table as [| r l IH]; [done |].
  rewrite fmap_cons, !filter_cons. simpl.
  destruct (decide (Users.id r ≠ uid)); [by rewrite fmap_cons, IH | done].
Qed.

Lemma users_consistent_step `{Strings, Bcrypt} table table' :
  users_consistent table → auth_step table table' → users_consistent table'.
Proof.
  intros Hc [id passwordHash sessionToken request | sessionToken request | uid | uid].
  - destruct (register_cases id passwordHash sessionToken table request)
      as [(st & msg & ->) | (raw & pw & _ & _ & _ & _ & _ & Hvalid & Hsel & Hfresh & ->)];
      [done |].
    destruct Hc as (Hid & Hemail & Hall). simpl. unfold users_consistent.
    rewrite !fmap_app. simpl. split_and!.
    + apply NoDup_app. split_and!; [done | | apply NoDup_singleton].
      intros i Hi ->%list_elem_of_singleton. done.
    + apply NoDup_app. split_and!; [done | | apply NoDup_singleton].
      intros e (r & -> & Hr)%list_elem_of_fmap Heq%list_elem_of_singleton.
      by apply (select_by_email_nil _ _ Hsel r Hr).
    + intros r [Hr | ->%list_elem_of_singleton]%elem_of_app; [by apply Hall | done].
  - destruct (login_cases sessionToken table request)
      as [(st & msg & ->) | (e & p & user & rest & _ & _ & _ & _ & _ & _ & ->)]; [done |].
    by apply users_consistent_set_session_token.
  - by apply users_consistent_set_session_token.
  - destruct Hc as (Hid & Hemail & Hall). unfold users_consistent, Users.delete.
    split_and!.
    + eapply sublist_NoDup; [exact Hid |]. apply fmap_sublist, sublist_filter.
    + eapply sublist_NoDup; [exact Hemail |]. apply fmap_sublist, sublist_filter.
    + intros r [_ Hr]%list_elem_of_filter. by apply Hall.
Qed.

(** X23.  The users table keeps its keys.  In every table that
    registrations, logins, logouts and account deletions produce from the
    empty one, no two rows have the same id, no two rows have the same email,
    and every email is of the shape [isValidEmail] accepts; so the lookup by
    email of a login finds at most one account.  The steps taken for logout
    and account deletion are what their handlers do to the rows the other
    endpoints see. *)
Theorem X23_users_table_keys `{Strings, Bcrypt} (table : list Users.row) :
  auth_reachable table →
  users_consistent table ∧
  (∀ email, (length (Users.select_by_email table email) ≤ 1)%nat) ∧
  (∀ db uid,
     users (Logout.clear_session_token (with_users db table) uid)
     = Users.user <$> Users.set_session_token table uid None) ∧
  (∀ db uid,
     users (Account.delete_user (with_users db table) uid)
     = Users.user <$> Users.delete table uid).
Proof.
  intros Hr.
  assert (users_consistent table) as Hc.
  { induction Hr as [| table table' _ IH Hs].
    - split_and!; [constructor | constructor |]. by intros r Hr%elem_of_nil.
    - by eapply users_consistent_step. }
  split_and!; [done | | |].
  - intros email. destruct Hc as (_ & Hemail & _).
    destruct (Users.select_by_email table email) as [| r1 [| r2 l]] eqn:E; simpl; [lia | lia |].
    exfalso.
    assert (NoDup (Users.email <$> Users.select_by_email table email)) as Hnd.
    { eapply sublist_NoDup; [exact Hemail |]. apply fmap_sublist, sublist_filter. }
    assert (r1 ∈ Users.select_by_email table email) as H1 by (rewrite E; left).
    assert (r2 ∈ Users.select_by_email table email) as H2 by (rewrite E; right; left).
    apply list_elem_of_filter in H1 as [H1 _]. apply list_elem_of_filter in H2 as [H2 _].
    rewrite E in Hnd. simpl in Hnd. rewrite H1, H2 in Hnd.
    apply NoDup_cons in Hnd as [Hnd _]. apply Hnd. left.
  - intros db uid. simpl. by rewrite user_set_session_token.
  - intros db uid. simpl. by rewrite user_delete.
Qed.

Lemma X23_users_table_keys_witness :
  users_consistent [alice_row] ∧
  (length (Users.select_by_email [alice_row] "alice@example.org") ≤ 1)%nat.
Proof.
  destruct (@X23_users_table_keys ascii_strings sample_bcrypt [alice_row])
    as (Hc & Hone & _).
  - apply (@auth_reachable_step ascii_strings sample_bcrypt [] [alice_row]); [constructor |].
    pose proof (@auth_register ascii_strings sample_bcrypt [] 1 "$2a$10$correct horse"
                  "a1b2c3"
                  {| method := "POST"; cookie_session := None;
                     body := JObject [("email"%string, JString " Alice@Example.org ");
                                      ("password"%string, JString "correct horse")] |})
      as Hs.
    vm_compute in Hs. exact Hs.
  - split; [exact Hc | apply Hone].
Defined.

(** ** A whole session *)

Lemma fmap_fixed {A} (f : A → A) (l : list A) : (∀ x, x ∈ l → f x = x) → f <$> l = l.
Proof.
  induction l as [| a l IH]; [done |]. intros Hf.
  rewrite fmap_cons, Hf by left. f_equal. apply IH. intros x Hx. apply Hf. by right.
Qed.

(** X24.  A session from clock-in to clock-out leaves one closed row.  After
    a clock-in answered 201 at [now] (on tables the handlers have produced), a
    clock-out with the same session at [now'], not earlier, is refused as
    blocked, with the tables unchanged, when it is manual and the weekend rule
    restricts the zone of the clock-in at [now']; otherwise it is answered 200
    with the id and the start the clock-in reported, the end [now'] or, past
    15 hours, [now + 15 h], and the length in hours rounded to two decimals;
    and the time entries are then those from before the clock-in followed by
    that one closed row, between 0 and 15 hours long, with no open entry left
    for the user. *)
Theorem X24_session_round_trip `{Intl} (now now' : Z) (db db' : DB)
    (request request' : request) (i s : Z) (z : string) :
  reachable db →
  ClockIn.handler now db request = (db', sendJson 201 (ClockInEntry i s z)) →
  method request' = "POST"%string →
  cookie_session request' = cookie_session request →
  now ≤ now' →
  let end_ := if max_shift_ms <? now' - now then now + max_shift_ms else now' in
  ∃ user,
    getCurrentUser db request = Some user ∧
    (isAuto request' = false → restricted z now' →
     ∃ reply, ClockOut.handler now' db' request' = (db', reply) ∧ Blocked reply) ∧
    (isAuto request' = true ∨ ¬ restricted z now' →
     ∃ db'' d,
       ClockOut.handler now' db' request'
       = (db'', sendJson 200 (ClockOutEntry i now end_ d)) ∧
       rounded_to_2_decimals (duration_in_hours now end_) d ∧
       0 ≤ end_ - now ≤ max_shift_ms ∧
       time_entries db''
       = time_entries db ++ [{| id := i; user_id := U.id user; start_time := now;
                                end_time := Some end_; start_timezone := z |}] ∧
       users db'' = users db ∧
       select_open db'' (U.id user) = []).
Proof.
  intros Hreach Hin Hm Hc Hle end_.
  pose proof (reachable_consistent db Hreach) as Hcons.
  assert (ClockIn.handler now db request = (db', sendJson 201 (ClockInEntry i s z)) ∨
          ClockIn.handler_ungated now db request = (db', sendJson 201 (ClockInEntry i s z)))
    as Hin' by by left.
  apply clock_in_success in Hin' as (user & Hu & Ho & -> & -> & -> & Hz).
  exists user. split; [done |].
  set (r0 := {| id := time_entries_id_seq db; user_id := U.id user; start_time := now;
                end_time := None; start_timezone := z |}).
  set (db1 := (insert_row db (U.id user) now z).1).
  assert (select_open db1 (U.id user) = [r0]) as Ho1.
  { subst db1. rewrite select_open_insert, Ho. by destruct (decide (U.id user = U.id user)). }
  assert (getCurrentUser db1 request' = Some user) as Hu1
    by (rewrite <- Hu; by apply getCurrentUser_ext).
  pose proof (consistent_insert db (U.id user) now z Hcons Ho Hz) as [[Hnd1 _] _ _ _].
  fold db1 in Hnd1.
  assert (r0 ∈ time_entries db1) as Hr0 by (simpl; apply elem_of_app; right; left).
  unfold ClockOut.handler. rewrite Hm, Hu1, Ho1.
  split.
  - intros Hauto [msg Hmsg]. rewrite Hauto. simpl.
    destruct (String.eqb_spec z "") as [| _]; [done |]. simpl. rewrite Hmsg.
    eexists. split; [done |]. by eapply restriction_message.
  - intros Hpass.
    rewrite (gate_passes request' r0 now' Hpass), (close_eq db1 r0 now' Hnd1 Hr0).
    simpl id. simpl start_time. rewrite endTime_eq. fold end_.
    eexists _, _. split; [done |].
    split_and!.
    + eapply rounded_to_2_decimals_comp; [apply duration_hours_eq | apply round2_rounds].
    + subst end_. destruct (Z.ltb_spec max_shift_ms (now' - now));
        unfold max_shift_ms, MAX_SHIFT_HOURS in *; lia.
    + subst end_. destruct (Z.ltb_spec max_shift_ms (now' - now));
        unfold max_shift_ms, MAX_SHIFT_HOURS in *; lia.
    + simpl. rewrite fmap_app. simpl.
      destruct (decide (time_entries_id_seq db = time_entries_id_seq db)); [| done].
      f_equal. apply fmap_fixed. intros r Hr.
      destruct (decide (id r = time_entries_id_seq db)) as [E | _]; [| done].
      destruct Hcons as [[_ Hseq] _ _ _]. apply Hseq in Hr. lia.
    + done.
    + rewrite select_open_update, Ho1, filter_cons, filter_nil. simpl.
      by destruct (decide (time_entries_id_seq db ≠ time_entries_id_seq db)).
Qed.

Lemma X24_session_round_trip_witness :
  ∃ db'' d,
    @ClockOut.handler fixed_zones Sample.sat_2359
      (Sample.working Sample.sat_0800 "Etc/GMT+7") (Sample.post JUndefined)
    = (db'', sendJson 200 (ClockOutEntry 1 Sample.sat_0800 Sample.sat_2300 d)) ∧
    time_entries db''
    = [{| id := 1; user_id := 1; start_time := Sample.sat_0800;
          end_time := Some Sample.sat_2300; start_timezone := "Etc/GMT+7" |}].
Proof.
  destruct (@X24_session_round_trip fixed_zones Sample.sat_0800 Sample.sat_2359
              Sample.registered (Sample.working Sample.sat_0800 "Etc/GMT+7")
              (Sample.post (Sample.with_timezone "Etc/GMT+7")) (Sample.post JUndefined)
              1 Sample.sat_0800 "Etc/GMT+7")
    as (user & Hu & _ & Hpass).
  - apply (@reachable_step fixed_zones 0 empty_db); [constructor |].
    exact (@step_auth fixed_zones 0 empty_db [Sample.alice]).
  - reflexivity.
  - reflexivity.
  - reflexivity.
  - vm_compute. discriminate.
  - injection Hu as <-.
    destruct Hpass as (db'' & d & E & _ & _ & He & _).
    { right. intros [msg Hmsg]. revert Hmsg. vm_compute. discriminate. }
    exists db'', d. split; [exact E | exact He].
Defined.
